(** * AdStash: the asset registry, its REST handlers and the content-script
    scanner, embedded from the TypeScript sources.

    Layout of the development:
    - [Js]: the JavaScript string and truthiness idioms the handlers rely on;
    - [Schema]: the rows of [db/schema/*.ts] and the tables of [db];
    - [Sql]: where-clauses as data, the statements the ORM issues and the
      effect monad of a request (database, statement log, exceptions);
    - [Storage], [Pat]: [lib/supabase/storage] and
      [db/schema/personal-access-tokens];
    - one module per route file, each with the handlers it exports, and
      [Api], which dispatches a call to its handler;
    - [Content]: the extension's content script;
    - [Spec]: the vocabulary of the specification's properties;
    - the theorems, one group per property of the specification.

    Conventions. A table is the list of its rows in storage order. Ids are
    the strings the handlers pass around. The id columns are of type [uuid]:
    the database rejects a string that does not spell one and compares ids
    as values, where the model compares the strings. The two agree on ids
    in the text form the database itself prints ([Schema.uuid]), which is
    the form of every id it has generated; a theorem about an id that the
    request supplies assumes that form. The width, the height and the size
    of a request are whole numbers, as the [integer] and [bigint] columns
    accept no others, and a statement that binds one outside the range of
    its column throws; a duration is any decimal number. A missing field or
    [null] is [None]. Everything a request reads from
    outside the repository (the session's user, the clock, the random
    generator, the digest, the storage provider's replies) is a field of
    [Env], so that a handler is a function of its environment, its request
    and the database. *)

From Stdlib Require Import ZArith Ascii String.
From Stdlib.Strings Require Byte.
From stdpp Require Import base list strings gmap pretty sorting.

Local Open Scope Z_scope.

(** ** JavaScript idioms *)
Module Js.

(** Strings are sequences of code units; [string] carries the units below
    256, which is where every character class used by the sources lives. *)

(** [!s] for a string, i.e. [s] is falsy exactly when it is empty. *)
Definition truthy (s : string) : bool :=
  match s with EmptyString => false | String _ _ => true end.

(** [o || null] and [!o] for an optional string. *)
Definition truthy_opt (o : option string) : bool :=
  match o with Some s => truthy s | None => false end.

(** [s || null] *)
Definition or_null (o : option string) : option string :=
  match o with
  | Some s => if truthy s then Some s else None
  | None => None
  end.

(** [n || null] for a number: zero is falsy. *)
Definition num_or_null (o : option Z) : option Z :=
  match o with
  | Some n => if Z.eqb n 0 then None else Some n
  | None => None
  end.

(** [s || d] *)
Definition or_default (o : option string) (d : string) : string :=
  match o with
  | Some s => if truthy s then s else d
  | None => d
  end.

(** [s.startsWith(p)] *)
Definition startsWith (s p : string) : bool := String.prefix p s.

(** [s.slice(n)] for [0 <= n]. *)
Fixpoint slice (n : nat) (s : string) : string :=
  match n, s with
  | O, _ => s
  | S n', EmptyString => EmptyString
  | S n', String _ s' => slice n' s'
  end.

(** [s.slice(0, n)] *)
Fixpoint take (n : nat) (s : string) : string :=
  match n, s with
  | O, _ => EmptyString
  | S n', EmptyString => EmptyString
  | S n', String c s' => String c (take n' s')
  end.

(** [s.substring(a, b)] for [a <= b]. *)
Definition substring (a b : nat) (s : string) : string :=
  take (b - a) (slice a s).

(** [s.includes(p)] *)
Fixpoint includes (s p : string) : bool :=
  String.prefix p s ||
  match s with
  | EmptyString => false
  | String _ s' => includes s' p
  end.

(** [Number.prototype.toString()] on an integer. *)
Definition toString (n : Z) : string := pretty n.

(** A finite number that need not be whole, carried by the decimal
    JavaScript writes for it: [mantissa] over ten to the [scale]. *)
Record number := mkNumber { mantissa : Z; scale : nat }.

Definition whole (n : Z) : number := mkNumber n 0.

(** The decimal without trailing zeros after the point. *)
Fixpoint shortest (m : Z) (s : nat) : Z * nat :=
  match s with
  | O => (m, O)
  | S s' => if m mod 10 =? 0 then shortest (m / 10) s' else (m, s)
  end.

(** The [s] low digits of [m], highest first. *)
Fixpoint low_digits (s : nat) (m : Z) : string :=
  match s with
  | O => ""
  | S s' => low_digits s' (m / 10) +:+ pretty (m mod 10)
  end.

(** [Number.prototype.toString()] in plain notation. JavaScript turns to
    exponent notation from 1e21 on and below 1e-6; the [numeric] column the
    string goes to holds the same number and gives it back in plain
    notation, so that this is what a row carries in every case. *)
Definition number_toString (x : number) : string :=
  let '(m, s) := shortest (mantissa x) (scale x) in
  match s with
  | O => toString m
  | S _ =>
      (if m <? 0 then "-" else "")
        +:+ pretty (Z.abs m / 10 ^ Z.of_nat s) +:+ "." +:+ low_digits s (Z.abs m)
  end.

(** White space as [String.prototype.trim] sees it (units below 256). *)
Definition is_white (c : ascii) : bool :=
  match c with
  | "009" | "010" | "011" | "012" | "013" | " " | "160" => true
  | _ => false
  end%char.

Fixpoint trimStart (s : string) : string :=
  match s with
  | EmptyString => EmptyString
  | String c s' => if is_white c then trimStart s' else s
  end.

(** [trimEnd] keeps a character when something non-white follows it or it
    is itself non-white. *)
Fixpoint trimEnd (s : string) : string :=
  match s with
  | EmptyString => EmptyString
  | String c s' =>
      match trimEnd s' with
      | EmptyString => if is_white c then EmptyString else String c EmptyString
      | t => String c t
      end
  end.

Definition trim (s : string) : string := trimEnd (trimStart s).

(** [s.split(sep)] for a one-character separator. *)
Fixpoint split_go (sep : ascii) (cur : string) (s : string) : list string :=
  match s with
  | EmptyString => [String.rev cur]
  | String c s' =>
      if Ascii.eqb c sep then String.rev cur :: split_go sep EmptyString s'
      else split_go sep (String c cur) s'
  end.
Definition split (sep : ascii) (s : string) : list string :=
  split_go sep EmptyString s.

(** [Number.parseInt(s, 10)]; [None] is [NaN]. The result is the integer
    the digits spell, which is what JavaScript gives up to 2^53. *)
Fixpoint digits_prefix (s : string) (acc : option Z) : option Z :=
  match s with
  | EmptyString => acc
  | String c s' =>
      match Ascii.is_nat c with
      | Some d => digits_prefix s' (Some (10 * default 0 acc + Z.of_nat d))
      | None => acc
      end
  end.

Definition parseInt (s : string) : option Z :=
  match trimStart s with
  | String "-" s' => Z.opp <$> digits_prefix s' None
  | String "+" s' => digits_prefix s' None
  | s' => digits_prefix s' None
  end%char.

(** [s.toLowerCase()] on the letters A to Z. *)
Definition lower (c : ascii) : ascii :=
  let n := nat_of_ascii c in
  if ((65 <=? n) && (n <=? 90))%nat then ascii_of_nat (n + 32) else c.

Fixpoint toLowerCase (s : string) : string :=
  match s with
  | EmptyString => EmptyString
  | String c s' => String (lower c) (toLowerCase s')
  end.

End Js.

(** ** Rows and tables ([db/schema/*.ts], [db]) *)
Module Schema.

Inductive AssetStatus := draft | uploading | ready | failed.
Inductive CaptureMethod := web_upload | extension_capture.

Global Instance AssetStatus_eq_dec : EqDecision AssetStatus.
Proof. solve_decision. Defined.
Global Instance CaptureMethod_eq_dec : EqDecision CaptureMethod.
Proof. solve_decision. Defined.

(** *** Column types. An [integer] column holds the numbers of 32 bits and
    a [bigint] column those of 64; a nullable column also takes [null]. *)
Definition integer (n : Z) : bool :=
  bool_decide (-2147483648 ≤ n ≤ 2147483647).

Definition bigint (n : Z) : bool :=
  bool_decide (-9223372036854775808 ≤ n ≤ 9223372036854775807).

Definition nullable {A} (fits : A → bool) (v : option A) : bool :=
  from_option fits true v.

(** The text of a [uuid] as the database prints it: 32 hexadecimal digits,
    the letters in lower case, in groups of 8, 4, 4, 4 and 12 with a hyphen
    between two groups. *)
Definition hex_lower (c : ascii) : bool :=
  let n := nat_of_ascii c in
  (((48 <=? n) && (n <=? 57)) || ((97 <=? n) && (n <=? 102)))%nat.

Fixpoint uuid_from (i : nat) (s : string) : bool :=
  match s with
  | EmptyString => (i =? 36)%nat
  | String c s' =>
      (if ((i =? 8) || (i =? 13) || (i =? 18) || (i =? 23))%nat
       then Ascii.eqb c "-" else hex_lower c)
      && uuid_from (S i) s'
  end.

Definition uuid (s : string) : bool := uuid_from 0 s.

(** Timestamps are milliseconds since the epoch; [numeric] columns are
    strings, as the ORM maps them; a nullable column is an [option]. *)
Module Asset.
Record t := mk {
    id : string;
    ownerId : string;
    createdAt : Z;
    updatedAt : Z;
    status : AssetStatus;
    captureMethod : CaptureMethod;
    sourcePlatform : string;
    captureUrl : option string;
    mediaUrl : option string;
    originalFilename : string;
    mimeType : string;
    sizeBytes : option Z;
    width : option Z;
    height : option Z;
    durationSeconds : option string;
    storageBucket : string;
    storagePath : string;
    previewBucket : option string;
    previewPath : option string;
    sha256 : option string;
    notes : option string;
    extra : option string
  }.
End Asset.

Module AssetTag.
Record t := mk { assetId : string; tagId : string }.
End AssetTag.

Module Tag.
Record t := mk {
    id : string;
    ownerId : string;
    name : string;
    color : string;
    createdAt : Z
  }.
End Tag.

Module Token.
Record t := mk {
    id : string;
    ownerId : string;
    name : string;
    tokenHash : string;
    tokenPrefix : string;
    createdAt : Z;
    lastUsedAt : option Z;
    revokedAt : option Z;
    expiresAt : option Z
  }.
End Token.

Global Instance Asset_eq_dec : EqDecision Asset.t.
Proof. solve_decision. Defined.
Global Instance AssetTag_eq_dec : EqDecision AssetTag.t.
Proof. solve_decision. Defined.
Global Instance Tag_eq_dec : EqDecision Tag.t.
Proof. solve_decision. Defined.
Global Instance Token_eq_dec : EqDecision Token.t.
Proof. solve_decision. Defined.

(** The four tables the handlers touch, rows in storage order. *)
Record Db := mkDb {
    assets : list Asset.t;
    assetTags : list AssetTag.t;
    tags : list Tag.t;
    personalAccessTokens : list Token.t
  }.

End Schema.
Export Schema.

(** ** Where-clauses, statements and the effects of a request *)
Module Sql.

(** *** [ILIKE]: [%] any run, [_] any one character, backslash escapes,
    letters compared without case. *)
Definition lower : ascii → ascii := Js.lower.

Definition nonempty_then (f : ascii → string → bool) (s : string) : bool :=
  match s with
  | EmptyString => false
  | String d s' => f d s'
  end.

Fixpoint like (p : string) : string → bool :=
  match p with
  | EmptyString => λ s, match s with EmptyString => true | _ => false end
  | String "%" p' =>
      fix star (s : string) : bool :=
        like p' s ||
        match s with
        | EmptyString => false
        | String _ s' => star s'
        end
  | String "_" p' => nonempty_then (λ _ s', like p' s')
  | String "\" (String c p') =>
      nonempty_then (λ d s', Ascii.eqb (lower c) (lower d) && like p' s')
  | String c p' =>
      nonempty_then (λ d s', Ascii.eqb (lower c) (lower d) && like p' s')
  end%char.

Definition ilike (column : string) (pattern : string) : bool :=
  like pattern column.

(** A nullable column compared by [ILIKE] yields NULL, which a where-clause
    treats as false. *)
Definition ilike_opt (column : option string) (pattern : string) : bool :=
  match column with
  | Some s => ilike s pattern
  | None => false
  end.

(** *** Conditions, one type per table, named after the ORM's operators. *)
Inductive AssetCond :=
| A_eq_id (v : string)
| A_eq_ownerId (v : string)
| A_eq_status (v : AssetStatus)
| A_eq_sourcePlatform (v : string)
| A_ilike_originalFilename (p : string)
| A_ilike_notes (p : string)
| A_ilike_mimeType (p : string)
| A_or (a b : AssetCond)
| A_gte_createdAt (d : option Z)
| A_lte_createdAt (d : option Z)
| A_inArray_id (ids : list string).

Inductive LinkCond :=
| L_eq_assetId (v : string)
| L_eq_tagId (v : string)
| L_inArray_assetId (ids : list string)
| L_inArray_tagId (ids : list string).

Inductive TagCond :=
| T_eq_id (v : string)
| T_eq_ownerId (v : string).

Inductive TokenCond :=
| K_eq_id (v : string)
| K_eq_ownerId (v : string)
| K_eq_tokenHash (v : string)
| K_isNull_revokedAt.

Fixpoint asset_holds (c : AssetCond) (r : Asset.t) : bool :=
  match c with
  | A_eq_id v => bool_decide (Asset.id r = v)
  | A_eq_ownerId v => bool_decide (Asset.ownerId r = v)
  | A_eq_status v => bool_decide (Asset.status r = v)
  | A_eq_sourcePlatform v => bool_decide (Asset.sourcePlatform r = v)
  | A_ilike_originalFilename p => ilike (Asset.originalFilename r) p
  | A_ilike_notes p => ilike_opt (Asset.notes r) p
  | A_ilike_mimeType p => ilike (Asset.mimeType r) p
  | A_or a b => asset_holds a r || asset_holds b r
  | A_gte_createdAt d => from_option (λ d, bool_decide (d ≤ Asset.createdAt r)) false d
  | A_lte_createdAt d => from_option (λ d, bool_decide (Asset.createdAt r ≤ d)) false d
  | A_inArray_id ids => bool_decide (Asset.id r ∈ ids)
  end.

Definition link_holds (c : LinkCond) (r : AssetTag.t) : bool :=
  match c with
  | L_eq_assetId v => bool_decide (AssetTag.assetId r = v)
  | L_eq_tagId v => bool_decide (AssetTag.tagId r = v)
  | L_inArray_assetId ids => bool_decide (AssetTag.assetId r ∈ ids)
  | L_inArray_tagId ids => bool_decide (AssetTag.tagId r ∈ ids)
  end.

Definition tag_holds (c : TagCond) (r : Tag.t) : bool :=
  match c with
  | T_eq_id v => bool_decide (Tag.id r = v)
  | T_eq_ownerId v => bool_decide (Tag.ownerId r = v)
  end.

Definition token_holds (c : TokenCond) (r : Token.t) : bool :=
  match c with
  | K_eq_id v => bool_decide (Token.id r = v)
  | K_eq_ownerId v => bool_decide (Token.ownerId r = v)
  | K_eq_tokenHash v => bool_decide (Token.tokenHash r = v)
  | K_isNull_revokedAt => bool_decide (Token.revokedAt r = None)
  end.

(** A condition on a timestamp column is sent as the date's ISO string; an
    invalid date ([None]) has none and the statement throws instead. *)
Fixpoint asset_sendable (c : AssetCond) : bool :=
  match c with
  | A_gte_createdAt None | A_lte_createdAt None => false
  | A_or a b => asset_sendable a && asset_sendable b
  | _ => true
  end.

(** *** The numbers a statement binds, each with the type of its column.
    A number is sent as text and read by the database at that type; one
    that does not fit makes the statement fail, whether or not a row
    matches. *)
Inductive Param :=
| P_integer (v : option Z)
| P_bigint (v : option Z).

Definition param_fits (p : Param) : bool :=
  match p with
  | P_integer v => nullable integer v
  | P_bigint v => nullable bigint v
  end.

(** The numeric columns of [assets]. *)
Definition asset_params (r : Asset.t) : list Param :=
  [P_bigint (Asset.sizeBytes r); P_integer (Asset.width r); P_integer (Asset.height r)].

(** [and(...conditions)] *)
Definition all_hold {C R} (holds : C → R → bool) (w : list C) (r : R) : bool :=
  forallb (λ c, holds c r) w.

(** *** The statements a handler sends, as the log records them. *)
Inductive Verb := SELECT | INSERT | UPDATE | DELETE.

Inductive Stmt :=
| OnAssets (v : Verb) (w : list AssetCond)
| OnAssetTags (v : Verb) (w : list LinkCond)
| OnAssetTagsJoinTags (w : list LinkCond)
| OnTags (v : Verb) (w : list TagCond)
| OnTokens (v : Verb) (w : list TokenCond).

(** What a request does to the outside, in order: the statements it sends
    and its calls to the storage provider. *)
Inductive Event :=
| Query (s : Stmt)
| StorageSignUpload (bucket path : string)
| StorageSignDownload (bucket path : string)
| StorageRemove (bucket path : string).

(** *** The state of a request and its monad: a statement may throw, and
    whatever was written before the throw stays written (the handlers open
    no transaction). *)
Record World := mkWorld { db : Db; log : list Event }.

Inductive Outcome (A : Type) :=
| Done (a : A)
| Thrown.
Global Arguments Done {A} a.
Global Arguments Thrown {A}.

Definition M (A : Type) : Type := World → Outcome A * World.

Global Instance M_ret : MRet M := λ A a w, (Done a, w).
Global Instance M_bind : MBind M := λ A B f m w,
  match m w with
  | (Done a, w') => f a w'
  | (Thrown, w') => (Thrown, w')
  end.

Definition throw {A} : M A := λ w, (Thrown, w).

(** [try { body } catch { handler }] *)
Definition try_catch {A} (body : M A) (handler : M A) : M A := λ w,
  match body w with
  | (Done a, w') => (Done a, w')
  | (Thrown, w') => handler w'
  end.

(** [await Promise.all([a, b])]: both calls are made, whatever becomes of
    the other, and the results are there when both have succeeded. *)
Definition Promise_all {A B} (a : M A) (b : M B) : M (A * B) := λ w,
  match a w with
  | (ra, w1) =>
      match b w1 with
      | (rb, w2) =>
          (match ra, rb with
           | Done x, Done y => Done (x, y)
           | _, _ => Thrown
           end, w2)
      end
  end.

Definition emit (e : Event) : M unit := λ w,
  (Done (), mkWorld (db w) (log w ++ [e])).

Definition issue (s : Stmt) : M unit := emit (Query s).

Fixpoint mapM {A B} (f : A → M B) (l : list A) : M (list B) :=
  match l with
  | [] => mret []
  | x :: l' => y ← f x; ys ← mapM f l'; mret (y :: ys)
  end.

Definition read {A} (f : Db → A) : M A := λ w, (Done (f (db w)), w).

Definition write (f : Db → Db) : M unit := λ w,
  (Done (), mkWorld (f (db w)) (log w)).

End Sql.
Export Sql.

(** ** The ORM calls the handlers make ([db.select], [db.insert], ...) *)
Module Orm.

Definition set_assets (l : list Asset.t) (d : Db) : Db :=
  mkDb l (assetTags d) (tags d) (personalAccessTokens d).
Definition set_assetTags (l : list AssetTag.t) (d : Db) : Db :=
  mkDb (assets d) l (tags d) (personalAccessTokens d).
Definition set_tags (l : list Tag.t) (d : Db) : Db :=
  mkDb (assets d) (assetTags d) l (personalAccessTokens d).
Definition set_tokens (l : list Token.t) (d : Db) : Db :=
  mkDb (assets d) (assetTags d) (tags d) l.

(** [UPDATE t SET ... WHERE w] on a list of rows. *)
Definition update_rows {R} (hit : R → bool) (set : R → R) (l : list R) : list R :=
  map (λ r, if hit r then set r else r) l.

(** [DELETE FROM t WHERE w] on a list of rows. *)
Definition delete_rows {R} (hit : R → bool) (l : list R) : list R :=
  filter (λ r, negb (hit r)) l.

(** *** assets *)
Definition selectAssets (w : list AssetCond) : M (list Asset.t) :=
  if forallb asset_sendable w then
    issue (OnAssets SELECT w);;
    read (λ d, filter (λ r, all_hold asset_holds w r) (assets d))
  else throw.

(** [.orderBy(desc(assets.createdAt))] *)
Definition newer_first (a b : Asset.t) : Prop :=
  Asset.createdAt b ≤ Asset.createdAt a.
Global Instance newer_first_dec : RelDecision newer_first.
Proof. intros a b. unfold newer_first. apply _. Defined.

Definition orderBy_desc_createdAt (l : list Asset.t) : list Asset.t :=
  merge_sort newer_first l.

(** [.limit(n).offset(k)] as the query builder renders them: a limit that
    is not a number at least zero adds no LIMIT, an offset that is zero or
    not a number adds no OFFSET, and the database rejects an OFFSET that is
    negative or no [bigint]. [None] is [NaN]. *)
Definition limit_offset {R} (limit offset : option Z) (l : list R)
    : option (list R) :=
  let skipped :=
    match offset with
    | Some k =>
        if bool_decide (k < 0 ∨ 9223372036854775807 < k) then None
        else Some (drop (Z.to_nat k) l)
    | None => Some l
    end in
  match skipped, limit with
  | Some l', Some n => Some (if bool_decide (0 ≤ n) then take (Z.to_nat n) l' else l')
  | Some l', None => Some l'
  | None, _ => None
  end.

Definition selectAssetsPage (w : list AssetCond) (limit offset : option Z)
    : M (list Asset.t) :=
  rows ← selectAssets w;
  match limit_offset limit offset (orderBy_desc_createdAt rows) with
  | Some page => mret page
  | None => throw
  end.

(** [INSERT INTO assets ... RETURNING *]: the numbers must fit their
    columns and the primary key must be new. *)
Definition insertAsset (row : Asset.t) : M Asset.t :=
  issue (OnAssets INSERT []);;
  if negb (forallb param_fits (asset_params row)) then throw
  else
    taken ← read (λ d, bool_decide (Asset.id row ∈ map Asset.id (assets d)));
    if (taken : bool) then throw
    else write (λ d, set_assets (assets d ++ [row]) d);; mret row.

(** [UPDATE assets SET ... WHERE w RETURNING *]; [params] are the numbers
    of the [.set({...})]. *)
Definition updateAssets (set : Asset.t → Asset.t) (params : list Param)
    (w : list AssetCond) : M (list Asset.t) :=
  issue (OnAssets UPDATE w);;
  if negb (forallb param_fits params) then throw
  else
    hit ← read (λ d, filter (λ r, all_hold asset_holds w r) (assets d));
    write (λ d, set_assets (update_rows (all_hold asset_holds w) set (assets d)) d);;
    mret (map set hit).

(** [asset_tags.asset_id] references [assets.id] with [onDelete: cascade]. *)
Definition deleteAssets (w : list AssetCond) : M unit :=
  issue (OnAssets DELETE w);;
  gone ← read (λ d, map Asset.id (filter (λ r, all_hold asset_holds w r) (assets d)));
  write (λ d, set_assets (delete_rows (all_hold asset_holds w) (assets d)) d);;
  write (λ d, set_assetTags
    (delete_rows (λ l, bool_decide (AssetTag.assetId l ∈ gone)) (assetTags d)) d).

(** *** asset_tags *)
Definition deleteAssetTags (w : list LinkCond) : M unit :=
  issue (OnAssetTags DELETE w);;
  write (λ d, set_assetTags (delete_rows (all_hold link_holds w) (assetTags d)) d).

(** The table has no key of its own; [asset_id] must name an asset. *)
Definition insertAssetTags (rows : list AssetTag.t) : M unit :=
  issue (OnAssetTags INSERT []);;
  ok ← read (λ d, forallb
    (λ l, bool_decide (AssetTag.assetId l ∈ map Asset.id (assets d))) rows);
  if (ok : bool) then write (λ d, set_assetTags (assetTags d ++ rows) d)
  else throw.

(** [select({assetId, tag}).from(assetTags).innerJoin(tags, eq(tagId, tags.id))] *)
Definition join_tags (links : list AssetTag.t) (ts : list Tag.t)
    : list (string * Tag.t) :=
  l ← links;
  t ← filter (λ t, Tag.id t = AssetTag.tagId l) ts;
  [(AssetTag.assetId l, t)].

Definition selectAssetTagsJoinTags (w : list LinkCond) : M (list (string * Tag.t)) :=
  issue (OnAssetTagsJoinTags w);;
  read (λ d, join_tags (filter (λ l, all_hold link_holds w l) (assetTags d)) (tags d)).

(** [select({assetId}).from(assetTags).where(inArray(tagId, tagIds))
      .groupBy(assetId).having(count(distinct tagId) = tagIds.length)] *)
Definition count_distinct_tagId (rows : list AssetTag.t) : nat :=
  length (remove_dups (map AssetTag.tagId rows)).

Definition groupBy_assetId_having (n : nat) (rows : list AssetTag.t) : list string :=
  filter
    (λ a, count_distinct_tagId (filter (λ l, AssetTag.assetId l = a) rows) = n)
    (remove_dups (map AssetTag.assetId rows)).

Definition assetsWithTags_rows (tagIds : list string) (links : list AssetTag.t)
    : list string :=
  groupBy_assetId_having (length tagIds)
    (filter (λ l, all_hold link_holds [L_inArray_tagId tagIds] l) links).

Definition selectAssetsWithTags (tagIds : list string) : M (list string) :=
  issue (OnAssetTags SELECT [L_inArray_tagId tagIds]);;
  read (λ d, assetsWithTags_rows tagIds (assetTags d)).

(** *** tags: [uniqueIndex] on (owner_id, name) *)
Definition tag_key (t : Tag.t) : string * string := (Tag.ownerId t, Tag.name t).

Definition key_clash (row : Tag.t) (others : list Tag.t) : bool :=
  bool_decide (tag_key row ∈ map tag_key others).

Definition selectTags (w : list TagCond) : M (list Tag.t) :=
  issue (OnTags SELECT w);;
  read (λ d, filter (λ r, all_hold tag_holds w r) (tags d)).

(** [.orderBy(asc(tags.name))] *)
Definition name_le (a b : Tag.t) : Prop := String.le (Tag.name a) (Tag.name b).
Global Instance name_le_dec : RelDecision name_le.
Proof. intros a b. unfold name_le. apply _. Defined.

Definition orderBy_asc_name (l : list Tag.t) : list Tag.t :=
  merge_sort name_le l.

Definition insertTag (row : Tag.t) : M Tag.t :=
  issue (OnTags INSERT []);;
  bad ← read (λ d,
    bool_decide (Tag.id row ∈ map Tag.id (tags d)) || key_clash row (tags d));
  if (bad : bool) then throw
  else write (λ d, set_tags (tags d ++ [row]) d);; mret row.

Definition updateTags (set : Tag.t → Tag.t) (w : list TagCond) : M (list Tag.t) :=
  issue (OnTags UPDATE w);;
  hit ← read (λ d, filter (λ r, all_hold tag_holds w r) (tags d));
  kept ← read (λ d, delete_rows (all_hold tag_holds w) (tags d));
  if existsb (λ r, key_clash (set r) kept) hit
     || negb (bool_decide (NoDup (map (λ r, tag_key (set r)) hit)))
  then throw
  else
    write (λ d, set_tags (update_rows (all_hold tag_holds w) set (tags d)) d);;
    mret (map set hit).

Definition deleteTags (w : list TagCond) : M unit :=
  issue (OnTags DELETE w);;
  write (λ d, set_tags (delete_rows (all_hold tag_holds w) (tags d)) d).

(** *** personal_access_tokens *)
Definition selectTokens (w : list TokenCond) : M (list Token.t) :=
  issue (OnTokens SELECT w);;
  read (λ d, filter (λ r, all_hold token_holds w r) (personalAccessTokens d)).

(** [.orderBy(desc(personalAccessTokens.createdAt))] *)
Definition newer_token_first (a b : Token.t) : Prop :=
  Token.createdAt b ≤ Token.createdAt a.
Global Instance newer_token_first_dec : RelDecision newer_token_first.
Proof. intros a b. unfold newer_token_first. apply _. Defined.

Definition orderBy_desc_token_createdAt (l : list Token.t) : list Token.t :=
  merge_sort newer_token_first l.

Definition insertToken (row : Token.t) : M Token.t :=
  issue (OnTokens INSERT []);;
  taken ← read (λ d, bool_decide (Token.id row ∈ map Token.id (personalAccessTokens d)));
  if (taken : bool) then throw
  else write (λ d, set_tokens (personalAccessTokens d ++ [row]) d);; mret row.

Definition updateTokens (set : Token.t → Token.t) (w : list TokenCond) : M unit :=
  issue (OnTokens UPDATE w);;
  write (λ d, set_tokens
    (update_rows (all_hold token_holds w) set (personalAccessTokens d)) d).

Definition deleteTokens (w : list TokenCond) : M unit :=
  issue (OnTokens DELETE w);;
  write (λ d, set_tokens
    (delete_rows (all_hold token_holds w) (personalAccessTokens d)) d).

End Orm.
Export Orm.

(** ** What a request reads from outside the repository *)
Module Ambient.

(** The object the storage provider returns for a signed upload. *)
Record SignedUpload := mkSignedUpload {
  signedUrl : string;
  token : string;
  path : string
}.

Record Env := mkEnv {
  (** [supabase.auth.getUser()]: the id of the session's user, if any *)
  getUser : option string;
  (** [crypto.subtle.digest('SHA-256', data)] *)
  digest : list Byte.byte → list Byte.byte;
  (** [defaultRandom()] and [defaultNow()] of the row this request inserts *)
  newId : string;
  dbNow : Z;
  (** the i-th [Date.now()] / [new Date()] of the request *)
  dateNow : nat → Z;
  (** the i-th [Math.random().toString(36)] of the request *)
  random36 : nat → string;
  (** the i-th [Math.floor(Math.random() * chars.length)] of the request *)
  randomIndex : nat → nat;
  (** the storage provider; [None] and [false] are its error replies *)
  storage_createSignedUploadUrl : string → string → option SignedUpload;
  storage_createSignedUrl : string → string → option string;
  storage_remove : string → string → bool;
  (** [new Date(s)]; [None] is an invalid date *)
  parseDate : string → option Z;
  (** [new URL(s).hostname]; [None] when the constructor throws *)
  urlHostname : string → option string;
  (** whether the process environment names the storage project and a key *)
  adminConfigured : bool
}.

End Ambient.
Export Ambient.

(** ** [lib/supabase/storage] *)
Module Storage.

Definition ASSETS_BUCKET : string := "assets".
Definition PREVIEWS_BUCKET : string := "previews".

Definition createSignedUploadUrl (env : Env) (bucket path : string)
    : M SignedUpload :=
  emit (StorageSignUpload bucket path);;
  match storage_createSignedUploadUrl env bucket path with
  | Some data => mret data
  | None => throw
  end.

Definition createSignedDownloadUrl (env : Env) (bucket path : string)
    : M string :=
  emit (StorageSignDownload bucket path);;
  match storage_createSignedUrl env bucket path with
  | Some url => mret url
  | None => throw
  end.

Definition deleteFile (env : Env) (bucket path : string) : M unit :=
  emit (StorageRemove bucket path);;
  if storage_remove env bucket path then mret () else throw.

(** The class [[a-zA-Z0-9.-]] of the sanitising regular expression. *)
Definition path_safe (c : ascii) : bool :=
  let n := nat_of_ascii c in
  (((97 <=? n) && (n <=? 122)) || ((65 <=? n) && (n <=? 90))
   || ((48 <=? n) && (n <=? 57)) || (n =? 46) || (n =? 45))%nat.

(** [filename.replace(/[^a-zA-Z0-9.-]/g, '_')] *)
Fixpoint sanitize (filename : string) : string :=
  match filename with
  | EmptyString => EmptyString
  | String c s => String (if path_safe c then c else "_"%char) (sanitize s)
  end.

(** [generateAssetPath]; [timestamp] is its [Date.now()] and [random36] its
    [Math.random().toString(36)]. *)
Definition randomSuffix (random36 : string) : string :=
  Js.substring 2 8 random36.

Definition generateAssetPath (timestamp : Z) (random36 : string)
    (userId filename : string) (prefix : option string) : string :=
  let sanitizedFilename := sanitize filename in
  let pathPrefix :=
    match prefix with
    | Some p => if Js.truthy p then p +:+ "/" else ""
    | None => ""
    end in
  pathPrefix +:+ userId +:+ "/" +:+ Js.toString timestamp +:+ "-"
    +:+ randomSuffix random36 +:+ "-" +:+ sanitizedFilename.

End Storage.
Export Storage.

(** ** [db/schema/personal-access-tokens] *)
Module Pat.

Definition chars : string :=
  "ABCDEFGHIJKLMNOPQRSTUVWXYZabcdefghijklmnopqrstuvwxyz0123456789".

(** [chars.charAt(i)]: the empty string out of range. *)
Definition charAt (s : string) (i : nat) : string :=
  match String.get i s with
  | Some c => String c EmptyString
  | None => EmptyString
  end.

Definition tokenLength : nat := 40.

Definition generatePAT (env : Env) : string :=
  foldl (λ token i, token +:+ charAt chars (randomIndex env i))
    "adstash_" (seq 0 tokenLength).

(** [new TextEncoder().encode(token)] on the code units the model carries. *)
Definition byte_of_N (n : N) : Byte.byte := default Byte.x00 (Byte.of_N n).

Definition encode_unit (c : ascii) : list Byte.byte :=
  let n := N_of_ascii c in
  if (n <? 128)%N then [byte_of_N n]
  else [byte_of_N (192 + n / 64); byte_of_N (128 + n mod 64)].

Fixpoint encode (s : string) : list Byte.byte :=
  match s with
  | EmptyString => []
  | String c s' => encode_unit c ++ encode s'
  end.

(** [b.toString(16).padStart(2, '0')] for a byte. *)
Definition hex_digit (n : N) : string :=
  charAt "0123456789abcdef" (N.to_nat n).

Definition hex_byte (b : Byte.byte) : string :=
  let n := Byte.to_N b in hex_digit (n / 16) +:+ hex_digit (n mod 16).

Definition hashPAT (env : Env) (token : string) : string :=
  foldr (λ b acc, hex_byte b +:+ acc) "" (digest env (encode token)).

Definition getPATPrefix (token : string) : string := Js.take 16 token.

End Pat.
Export Pat.

(** ** [db/schema/sources]: the built-in platforms *)
Module Sources.

Record Source := mkSource {
  key : string;
  label : string;
  domainPatterns : list string
}.

Definition DEFAULT_SOURCES : list Source :=
  [ mkSource "facebook" "Facebook" ["facebook.com"; "fb.com"; "fb.me"];
    mkSource "instagram" "Instagram" ["instagram.com"; "instagr.am"];
    mkSource "tiktok" "TikTok" ["tiktok.com"; "vm.tiktok.com"];
    mkSource "youtube" "YouTube" ["youtube.com"; "youtu.be"];
    mkSource "twitter" "X / Twitter" ["twitter.com"; "x.com"; "t.co"];
    mkSource "linkedin" "LinkedIn" ["linkedin.com"];
    mkSource "pinterest" "Pinterest" ["pinterest.com"; "pin.it"];
    mkSource "snapchat" "Snapchat" ["snapchat.com"];
    mkSource "other" "Other" [] ].

Definition detectSourceFromUrl (env : Env) (url : string) : string :=
  match urlHostname env url with
  | Some h =>
      let hostname := Js.toLowerCase h in
      match
        filter (λ source, existsb (Js.includes hostname) (domainPatterns source))
          DEFAULT_SOURCES
      with
      | source :: _ => key source
      | [] => "other"
      end
  | None => "other"
  end.

End Sources.

(** ** Responses ([NextResponse.json]) *)
Module Http.

(** An asset of a listing page, and the asset of the detail route. *)
Record AssetWithPreview := mkAssetWithPreview {
  lp_asset : Asset.t;
  lp_previewUrl : option string;
  lp_tags : list Tag.t
}.

Record AssetDetail := mkAssetDetail {
  ad_asset : Asset.t;
  ad_assetUrl : option string;
  ad_previewUrl : option string;
  ad_tags : list Tag.t
}.

(** [page], [limit] and [totalCount] of the listing; [totalPages] and
    [hasMore] are floating-point functions of these three and are not
    carried. *)
Record Pagination := mkPagination {
  pg_page : option Z;
  pg_limit : option Z;
  pg_totalCount : nat
}.

(** The columns the token routes select. *)
Record TokenInfo := mkTokenInfo {
  ti_id : string;
  ti_name : string;
  ti_tokenPrefix : string;
  ti_createdAt : Z;
  ti_lastUsedAt : option Z
}.

Inductive Body :=
| B_error (error : string)
| B_success
| B_assets (assets : list AssetWithPreview) (pagination : Pagination)
| B_asset_detail (asset : AssetDetail)
| B_asset (asset : Asset.t)
| B_init (assetId : string) (assetUpload previewUpload : option SignedUpload)
| B_tags (tags : list Tag.t)
| B_tag (tag : Tag.t)
| B_tokens (tokens : list TokenInfo)
| B_token_created (token : string) (tokenInfo : TokenInfo)
| B_valid (ownerId : string).

Record Response := json { body : Body; status : nat }.

Definition ok (b : Body) : Response := json b 200.
Definition Unauthorized : Response := json (B_error "Unauthorized") 401.

(** [try { ... } catch (error) { return json({error}, {status: 500}) }] *)
Definition handler (message : string) (run : M Response) : M Response :=
  try_catch run (mret (json (B_error message) 500)).

(** [const [row] = await ...] *)
Definition first {A} (rows : list A) : option A := head rows.

End Http.
Export Http.

(** ** The asset listing route ([GET /api/assets]) *)
Module AssetsRoute.

Record QueryParams := mkQueryParams {
  page : option Z;
  limit : option Z;
  search : string;
  sourcePlatform : string;
  mimeTypeFilter : string;
  tagIds : list string;
  fromDate : string;
  toDate : string
}.

(** [searchParams.get(name)] on the decoded query pairs. *)
Definition get (searchParams : list (string * string)) (name : string)
    : option string :=
  snd <$> head (filter (λ kv, fst kv = name) searchParams).

Definition parseQueryParams (searchParams : list (string * string))
    : QueryParams :=
  {| page := Js.parseInt (Js.or_default (get searchParams "page") "1");
     limit := (λ n, Z.min n 100) <$>
                Js.parseInt (Js.or_default (get searchParams "limit") "24");
     search := Js.or_default (get searchParams "search") "";
     sourcePlatform := Js.or_default (get searchParams "source") "";
     mimeTypeFilter := Js.or_default (get searchParams "type") "";
     tagIds :=
       match get searchParams "tags" with
       | Some s => filter (λ t, Js.truthy t) (Js.split "," s)
       | None => []
       end;
     fromDate := Js.or_default (get searchParams "from") "";
     toDate := Js.or_default (get searchParams "to") "" |}.

Definition buildWhereConditions (env : Env) (userId : string)
    (params : QueryParams) : list AssetCond :=
  [A_eq_ownerId userId; A_eq_status ready]
  ++ (if Js.truthy (search params) then
        [A_or (A_ilike_originalFilename ("%" +:+ search params +:+ "%"))
              (A_ilike_notes ("%" +:+ search params +:+ "%"))]
      else [])
  ++ (if Js.truthy (sourcePlatform params) then
        [A_eq_sourcePlatform (sourcePlatform params)]
      else [])
  ++ (if bool_decide (mimeTypeFilter params = "image") then
        [A_ilike_mimeType "image/%"]
      else if bool_decide (mimeTypeFilter params = "video") then
        [A_ilike_mimeType "video/%"]
      else [])
  ++ (if Js.truthy (fromDate params) then
        [A_gte_createdAt (parseDate env (fromDate params))]
      else [])
  ++ (if Js.truthy (toDate params) then
        [A_lte_createdAt (parseDate env (toDate params))]
      else []).

(** The [Map] from asset id to its tags, filled row by row. *)
Definition group_tags (rows : list (string * Tag.t)) : gmap string (list Tag.t) :=
  foldl
    (λ (tagsByAsset : gmap string (list Tag.t)) row,
       let existing := default [] (tagsByAsset !! fst row) in
       <[fst row := existing ++ [snd row]]> tagsByAsset)
    ∅ rows.

Definition getAssetsWithTags (assetIds : list string)
    : M (gmap string (list Tag.t)) :=
  match assetIds with
  | [] => mret ∅
  | _ =>
      assetTagsData ← selectAssetTagsJoinTags [L_inArray_assetId assetIds];
      mret (group_tags assetTagsData)
  end.

Definition addPreviewUrls (env : Env) (assetResults : list Asset.t)
    (tagsByAsset : gmap string (list Tag.t)) : M (list AssetWithPreview) :=
  mapM
    (λ asset,
       previewUrl ←
         try_catch
           match Asset.previewBucket asset, Asset.previewPath asset with
           | Some bucket, Some path =>
               if Js.truthy bucket && Js.truthy path then
                 url ← createSignedDownloadUrl env bucket path; mret (Some url)
               else mret None
           | _, _ => mret None
           end
           (mret None);
       mret (mkAssetWithPreview asset previewUrl
               (default [] (tagsByAsset !! Asset.id asset))))
    assetResults.

(** [(params.page - 1) * params.limit] *)
Definition offset_of (params : QueryParams) : option Z :=
  p ← page params; l ← limit params; Some ((p - 1) * l).

Definition GET (env : Env) (searchParams : list (string * string)) : M Response :=
  handler "Failed to fetch assets"
    match getUser env with
    | None => mret Unauthorized
    | Some user =>
        let params := parseQueryParams searchParams in
        let offset := offset_of params in
        let conditions := buildWhereConditions env user params in
        assetResults ←
          (if bool_decide (0 < length (tagIds params))%nat then
             assetsWithTags ← selectAssetsWithTags (tagIds params);
             selectAssetsPage (conditions ++ [A_inArray_id assetsWithTags])
               (limit params) offset
           else selectAssetsPage conditions (limit params) offset);
        countResult ← selectAssets conditions;
        let assetIds := map Asset.id assetResults in
        tagsByAsset ← getAssetsWithTags assetIds;
        assetsWithUrls ← addPreviewUrls env assetResults tagsByAsset;
        let totalCount := length countResult in
        mret (ok (B_assets assetsWithUrls
                    (mkPagination (page params) (limit params) totalCount)))
    end.

End AssetsRoute.

(** ** [app/api/assets/[id]/route.ts] *)
Module AssetRoute.

(** The optional signed URL of one storage object: an error of the provider
    leaves [null]. *)
Definition signed_or_null (env : Env) (bucket path : string) : M (option string) :=
  try_catch
    (url ← createSignedDownloadUrl env bucket path; mret (Some url))
    (mret None).

(** [asset.previewBucket && asset.previewPath] *)
Definition preview_of (asset : Asset.t) : option (string * string) :=
  match Asset.previewBucket asset, Asset.previewPath asset with
  | Some bucket, Some path =>
      if Js.truthy bucket && Js.truthy path then Some (bucket, path) else None
  | _, _ => None
  end.

Definition GET (env : Env) (id : string) : M Response :=
  handler "Failed to fetch asset"
    match getUser env with
    | None => mret Unauthorized
    | Some user =>
        rows ← selectAssets [A_eq_id id; A_eq_ownerId user];
        match first rows with
        | None => mret (json (B_error "Asset not found") 404)
        | Some asset =>
            assetTagsData ← selectAssetTagsJoinTags [L_eq_assetId id];
            assetUrl ←
              signed_or_null env (Asset.storageBucket asset) (Asset.storagePath asset);
            previewUrl ←
              match preview_of asset with
              | Some (bucket, path) => signed_or_null env bucket path
              | None => mret None
              end;
            mret (ok (B_asset_detail
                        (mkAssetDetail asset assetUrl previewUrl
                           (map snd assetTagsData))))
        end
    end.

(** The JSON body of PATCH: [notes] may be absent, [null] or a string;
    [tagIds] is [Some] exactly when the body carries an array. *)
Record PatchBody := mkPatchBody {
  notes : option (option string);
  sourcePlatform : option string;
  tagIds : option (list string)
}.

Definition set_updatedAt (at_ : Z) (r : Asset.t) : Asset.t :=
  Asset.mk (Asset.id r) (Asset.ownerId r) (Asset.createdAt r) at_
    (Asset.status r) (Asset.captureMethod r) (Asset.sourcePlatform r)
    (Asset.captureUrl r) (Asset.mediaUrl r) (Asset.originalFilename r)
    (Asset.mimeType r) (Asset.sizeBytes r) (Asset.width r) (Asset.height r)
    (Asset.durationSeconds r) (Asset.storageBucket r) (Asset.storagePath r)
    (Asset.previewBucket r) (Asset.previewPath r) (Asset.sha256 r)
    (Asset.notes r) (Asset.extra r).

Definition set_notes (v : option string) (r : Asset.t) : Asset.t :=
  Asset.mk (Asset.id r) (Asset.ownerId r) (Asset.createdAt r) (Asset.updatedAt r)
    (Asset.status r) (Asset.captureMethod r) (Asset.sourcePlatform r)
    (Asset.captureUrl r) (Asset.mediaUrl r) (Asset.originalFilename r)
    (Asset.mimeType r) (Asset.sizeBytes r) (Asset.width r) (Asset.height r)
    (Asset.durationSeconds r) (Asset.storageBucket r) (Asset.storagePath r)
    (Asset.previewBucket r) (Asset.previewPath r) (Asset.sha256 r)
    v (Asset.extra r).

Definition set_sourcePlatform (v : string) (r : Asset.t) : Asset.t :=
  Asset.mk (Asset.id r) (Asset.ownerId r) (Asset.createdAt r) (Asset.updatedAt r)
    (Asset.status r) (Asset.captureMethod r) v
    (Asset.captureUrl r) (Asset.mediaUrl r) (Asset.originalFilename r)
    (Asset.mimeType r) (Asset.sizeBytes r) (Asset.width r) (Asset.height r)
    (Asset.durationSeconds r) (Asset.storageBucket r) (Asset.storagePath r)
    (Asset.previewBucket r) (Asset.previewPath r) (Asset.sha256 r)
    (Asset.notes r) (Asset.extra r).

(** [updateData] as the function the update applies to a row. *)
Definition updateData (env : Env) (body : PatchBody) (r : Asset.t) : Asset.t :=
  let r := set_updatedAt (dateNow env 0) r in
  let r := match notes body with Some v => set_notes v r | None => r end in
  match sourcePlatform body with
  | Some v => if Js.truthy v then set_sourcePlatform v r else r
  | None => r
  end.

Definition PATCH (env : Env) (id : string) (body : PatchBody) : M Response :=
  handler "Failed to update asset"
    match getUser env with
    | None => mret Unauthorized
    | Some user =>
        rows ← updateAssets (updateData env body) []
                 [A_eq_id id; A_eq_ownerId user];
        match first rows with
        | None => mret (json (B_error "Asset not found") 404)
        | Some updatedAsset =>
            match tagIds body with
            | Some tagIds =>
                deleteAssetTags [L_eq_assetId id];;
                (if bool_decide (0 < length tagIds)%nat then
                   insertAssetTags (map (λ tagId, AssetTag.mk id tagId) tagIds)
                 else mret ());;
                mret (ok (B_asset updatedAsset))
            | None => mret (ok (B_asset updatedAsset))
            end
        end
    end.

(** [try { await deleteFile(...) } catch { console.warn(...) }] *)
Definition deleteFile_quietly (env : Env) (bucket path : string) : M unit :=
  try_catch (deleteFile env bucket path) (mret ()).

Definition DELETE (env : Env) (id : string) : M Response :=
  handler "Failed to delete asset"
    match getUser env with
    | None => mret Unauthorized
    | Some user =>
        rows ← selectAssets [A_eq_id id; A_eq_ownerId user];
        match first rows with
        | None => mret (json (B_error "Asset not found") 404)
        | Some asset =>
            deleteFile_quietly env (Asset.storageBucket asset) (Asset.storagePath asset);;
            match preview_of asset with
            | Some (bucket, path) => deleteFile_quietly env bucket path
            | None => mret ()
            end;;
            deleteAssetTags [L_eq_assetId id];;
            deleteAssets [A_eq_id id];;
            mret (ok B_success)
        end
    end.

End AssetRoute.

(** ** [app/api/assets/init-upload/route.ts] *)
Module InitUpload.

Record InitUploadRequest := mkInitUploadRequest {
  filename : option string;
  mimeType : option string;
  sizeBytes : option Z;
  sourcePlatform : option string;
  captureUrl : option string
}.

(** The two storage paths of an upload, each from its own clock and random
    readings. *)
Definition storagePath (env : Env) (user filename : string) : string :=
  generateAssetPath (dateNow env 0) (random36 env 0) user filename None.

Definition previewPath (env : Env) (user filename : string) : string :=
  generateAssetPath (dateNow env 1) (random36 env 1)
    user ("preview-" +:+ filename) (Some "previews").

(** The [.values({...})] of the insert, with the column defaults. *)
Definition values (env : Env) (user filename mimeType : string)
    (body : InitUploadRequest) : Asset.t :=
  {| Asset.id := newId env;
     Asset.ownerId := user;
     Asset.createdAt := dbNow env;
     Asset.updatedAt := dbNow env;
     Asset.status := uploading;
     Asset.captureMethod := web_upload;
     Asset.sourcePlatform :=
       match Js.or_null (sourcePlatform body) with
       | Some s => s
       | None =>
           match Js.or_null (captureUrl body) with
           | Some url => Sources.detectSourceFromUrl env url
           | None => "other"
           end
       end;
     Asset.captureUrl := Js.or_null (captureUrl body);
     Asset.mediaUrl := None;
     Asset.originalFilename := filename;
     Asset.mimeType := mimeType;
     Asset.sizeBytes := Js.num_or_null (sizeBytes body);
     Asset.width := None;
     Asset.height := None;
     Asset.durationSeconds := None;
     Asset.storageBucket := ASSETS_BUCKET;
     Asset.storagePath := storagePath env user filename;
     Asset.previewBucket := Some PREVIEWS_BUCKET;
     Asset.previewPath := Some (previewPath env user filename);
     Asset.sha256 := None;
     Asset.notes := None;
     Asset.extra := None |}.

Definition POST (env : Env) (body : InitUploadRequest) : M Response :=
  handler "Failed to initialize upload"
    match getUser env with
    | None => mret Unauthorized
    | Some user =>
        match filename body, mimeType body with
        | Some filename, Some mimeType =>
            if negb (Js.truthy filename && Js.truthy mimeType) then
              mret (json (B_error "Missing required fields: filename, mimeType") 400)
            else
              asset ← insertAsset (values env user filename mimeType body);
              uploads ←
                Promise_all
                  (createSignedUploadUrl env ASSETS_BUCKET
                     (storagePath env user filename))
                  (createSignedUploadUrl env PREVIEWS_BUCKET
                     (previewPath env user filename));
              mret (ok (B_init (Asset.id asset) (Some uploads.1) (Some uploads.2)))
        | _, _ =>
            mret (json (B_error "Missing required fields: filename, mimeType") 400)
        end
    end.

End InitUpload.

(** ** [app/api/assets/finalize-upload/route.ts] *)
Module FinalizeUpload.

Record FinalizeUploadRequest := mkFinalizeUploadRequest {
  assetId : option string;
  width : option Z;
  height : option Z;
  durationSeconds : option Js.number;
  sha256 : option string;
  sizeBytes : option Z;
  notes : option string
}.

(** [durationSeconds?.toString() || null] *)
Definition duration_or_null (d : option Js.number) : option string :=
  Js.or_null (Js.number_toString <$> d).

(** The numbers of the [.set({...})], with their columns. *)
Definition params (body : FinalizeUploadRequest) : list Param :=
  [P_integer (Js.num_or_null (width body));
   P_integer (Js.num_or_null (height body));
   P_bigint (Js.num_or_null (sizeBytes body))].

(** The [.set({...})] of the update, as a function on the row. *)
Definition finalized (env : Env) (body : FinalizeUploadRequest) (r : Asset.t)
    : Asset.t :=
  {| Asset.id := Asset.id r;
     Asset.ownerId := Asset.ownerId r;
     Asset.createdAt := Asset.createdAt r;
     Asset.updatedAt := dateNow env 0;
     Asset.status := ready;
     Asset.captureMethod := Asset.captureMethod r;
     Asset.sourcePlatform := Asset.sourcePlatform r;
     Asset.captureUrl := Asset.captureUrl r;
     Asset.mediaUrl := Asset.mediaUrl r;
     Asset.originalFilename := Asset.originalFilename r;
     Asset.mimeType := Asset.mimeType r;
     Asset.sizeBytes := Js.num_or_null (sizeBytes body);
     Asset.width := Js.num_or_null (width body);
     Asset.height := Js.num_or_null (height body);
     Asset.durationSeconds := duration_or_null (durationSeconds body);
     Asset.storageBucket := Asset.storageBucket r;
     Asset.storagePath := Asset.storagePath r;
     Asset.previewBucket := Asset.previewBucket r;
     Asset.previewPath := Asset.previewPath r;
     Asset.sha256 := Js.or_null (sha256 body);
     Asset.notes := Js.or_null (notes body);
     Asset.extra := Asset.extra r |}.

Definition POST (env : Env) (body : FinalizeUploadRequest) : M Response :=
  handler "Failed to finalize upload"
    match getUser env with
    | None => mret Unauthorized
    | Some user =>
        match Js.or_null (assetId body) with
        | None => mret (json (B_error "Missing assetId") 400)
        | Some assetId =>
            rows ← updateAssets (finalized env body) (params body)
                     [A_eq_id assetId; A_eq_ownerId user];
            match first rows with
            | None => mret (json (B_error "Asset not found") 404)
            | Some updatedAsset => mret (ok (B_asset updatedAsset))
            end
        end
    end.

End FinalizeUpload.

(** ** The tag collection routes ([GET] and [POST /api/tags]) *)
Module TagsRoute.

Record TagBody := mkTagBody {
  name : option string;
  color : option string
}.

Definition GET (env : Env) : M Response :=
  handler "Failed to fetch tags"
    match getUser env with
    | None => mret Unauthorized
    | Some user =>
        rows ← selectTags [T_eq_ownerId user];
        mret (ok (B_tags (orderBy_asc_name rows)))
    end.

Definition POST (env : Env) (body : TagBody) : M Response :=
  handler "Failed to create tag"
    match getUser env with
    | None => mret Unauthorized
    | Some user =>
        match Js.or_null (name body) with
        | None => mret (json (B_error "Name is required") 400)
        | Some name =>
            newTag ← insertTag
              {| Tag.id := newId env;
                 Tag.ownerId := user;
                 Tag.name := Js.trim name;
                 Tag.color := Js.or_default (color body) "#6b7280";
                 Tag.createdAt := dbNow env |};
            mret (ok (B_tag newTag))
        end
    end.

End TagsRoute.

(** ** The tag routes ([PATCH] and [DELETE /api/tags/:id]) *)
Module TagRoute.

Definition set_name (v : string) (t : Tag.t) : Tag.t :=
  Tag.mk (Tag.id t) (Tag.ownerId t) v (Tag.color t) (Tag.createdAt t).
Definition set_color (v : string) (t : Tag.t) : Tag.t :=
  Tag.mk (Tag.id t) (Tag.ownerId t) (Tag.name t) v (Tag.createdAt t).

(** [updateData]: the fields the body sets, and the update they make. *)
Definition updateData (body : TagsRoute.TagBody) : list (Tag.t → Tag.t) :=
  match Js.or_null (TagsRoute.name body) with
  | Some name => [set_name (Js.trim name)]
  | None => []
  end ++
  match Js.or_null (TagsRoute.color body) with
  | Some color => [set_color color]
  | None => []
  end.

Definition apply_all (fs : list (Tag.t → Tag.t)) (t : Tag.t) : Tag.t :=
  foldl (λ t f, f t) t fs.

Definition PATCH (env : Env) (id : string) (body : TagsRoute.TagBody) : M Response :=
  handler "Failed to update tag"
    match getUser env with
    | None => mret Unauthorized
    | Some user =>
        if bool_decide (length (updateData body) = 0%nat) then
          mret (json (B_error "No fields to update") 400)
        else
          rows ← updateTags (apply_all (updateData body))
                   [T_eq_id id; T_eq_ownerId user];
          match first rows with
          | None => mret (json (B_error "Tag not found") 404)
          | Some updatedTag => mret (ok (B_tag updatedTag))
          end
    end.

Definition DELETE (env : Env) (id : string) : M Response :=
  handler "Failed to delete tag"
    match getUser env with
    | None => mret Unauthorized
    | Some user =>
        rows ← selectTags [T_eq_id id; T_eq_ownerId user];
        match first rows with
        | None => mret (json (B_error "Tag not found") 404)
        | Some tag =>
            deleteAssetTags [L_eq_tagId id];;
            deleteTags [T_eq_id id];;
            mret (ok B_success)
        end
    end.

End TagRoute.

(** ** [app/api/tokens/route.ts] *)
Module TokensRoute.

Definition info (t : Token.t) : TokenInfo :=
  mkTokenInfo (Token.id t) (Token.name t) (Token.tokenPrefix t)
    (Token.createdAt t) (Token.lastUsedAt t).

Definition GET (env : Env) : M Response :=
  handler "Failed to fetch tokens"
    match getUser env with
    | None => mret Unauthorized
    | Some user =>
        rows ← selectTokens [K_eq_ownerId user];
        let tokens := map info (orderBy_desc_token_createdAt rows) in
        let activeTokens := filter (λ _, True) tokens in
        mret (ok (B_tokens activeTokens))
    end.

Definition POST (env : Env) (name : option string) : M Response :=
  handler "Failed to create token"
    match getUser env with
    | None => mret Unauthorized
    | Some user =>
        match Js.or_null name with
        | None => mret (json (B_error "Name is required") 400)
        | Some name =>
            let token := generatePAT env in
            let tokenHash := hashPAT env token in
            let tokenPrefix := getPATPrefix token in
            newToken ← insertToken
              {| Token.id := newId env;
                 Token.ownerId := user;
                 Token.name := Js.trim name;
                 Token.tokenHash := tokenHash;
                 Token.tokenPrefix := tokenPrefix;
                 Token.createdAt := dbNow env;
                 Token.lastUsedAt := None;
                 Token.revokedAt := None;
                 Token.expiresAt := None |};
            mret (ok (B_token_created token (info newToken)))
        end
    end.

End TokensRoute.

(** ** [app/api/tokens/[id]/route.ts] *)
Module TokenRoute.

Definition DELETE (env : Env) (id : string) : M Response :=
  handler "Failed to delete token"
    match getUser env with
    | None => mret Unauthorized
    | Some user =>
        deleteTokens [K_eq_id id; K_eq_ownerId user];;
        mret (ok B_success)
    end.

End TokenRoute.

(** ** [app/api/extension/verify/route.ts] *)
Module ExtensionVerify.

Definition verifyPAT (env : Env) (authHeader : option string) : M (option string) :=
  match authHeader with
  | None => mret None
  | Some header =>
      if negb (Js.startsWith header "Bearer ") then mret None
      else
        let token := Js.slice 7 header in
        let tokenHash := hashPAT env token in
        rows ← selectTokens [K_eq_tokenHash tokenHash; K_isNull_revokedAt];
        match first rows with
        | None => mret None
        | Some pat => mret (Some (Token.ownerId pat))
        end
  end.

Definition GET (env : Env) (Authorization : option string) : M Response :=
  handler "Failed to verify token"
    (ownerId ← verifyPAT env Authorization;
     match Js.or_null ownerId with
     | None => mret Unauthorized
     | Some ownerId => mret (ok (B_valid ownerId))
     end).

End ExtensionVerify.

(** ** [app/api/extension/assets/init/route.ts] *)
Module ExtensionInit.

Definition set_lastUsedAt (at_ : Z) (t : Token.t) : Token.t :=
  Token.mk (Token.id t) (Token.ownerId t) (Token.name t) (Token.tokenHash t)
    (Token.tokenPrefix t) (Token.createdAt t) (Some at_) (Token.revokedAt t)
    (Token.expiresAt t).

Definition verifyPAT (env : Env) (authHeader : option string) : M (option string) :=
  match authHeader with
  | None => mret None
  | Some header =>
      if negb (Js.startsWith header "Bearer ") then mret None
      else
        let token := Js.slice 7 header in
        let tokenHash := hashPAT env token in
        rows ← selectTokens [K_eq_tokenHash tokenHash; K_isNull_revokedAt];
        match first rows with
        | None => mret None
        | Some pat =>
            updateTokens (set_lastUsedAt (dateNow env 0)) [K_eq_id (Token.id pat)];;
            mret (Some (Token.ownerId pat))
        end
  end.

(** [getAdminSupabase()] throws when the environment is not configured. *)
Definition getAdminSupabase (env : Env) : M unit :=
  if adminConfigured env then mret () else throw.

Record InitRequest := mkInitRequest {
  filename : option string;
  mimeType : option string;
  sizeBytes : option Z;
  sourcePlatform : option string;
  captureUrl : option string;
  mediaUrl : option string;
  hasBlob : bool
}.

(** The two storage paths; the clock was read once before, by [verifyPAT]. *)
Definition storagePath (env : Env) (ownerId filename : string) : string :=
  generateAssetPath (dateNow env 1) (random36 env 0) ownerId filename None.

Definition previewPath (env : Env) (ownerId filename : string) : string :=
  generateAssetPath (dateNow env 2) (random36 env 1)
    ownerId ("preview-" +:+ filename) (Some "previews").

(** The [.values({...})] of the insert, with the column defaults. *)
Definition values (env : Env) (ownerId filename mimeType : string)
    (body : InitRequest) : Asset.t :=
  {| Asset.id := newId env;
     Asset.ownerId := ownerId;
     Asset.createdAt := dbNow env;
     Asset.updatedAt := dbNow env;
     Asset.status := if hasBlob body then uploading else ready;
     Asset.captureMethod := extension_capture;
     Asset.sourcePlatform := Js.or_default (sourcePlatform body) "other";
     Asset.captureUrl := Js.or_null (captureUrl body);
     Asset.mediaUrl := Js.or_null (mediaUrl body);
     Asset.originalFilename := filename;
     Asset.mimeType := mimeType;
     Asset.sizeBytes := Js.num_or_null (sizeBytes body);
     Asset.width := None;
     Asset.height := None;
     Asset.durationSeconds := None;
     Asset.storageBucket := ASSETS_BUCKET;
     Asset.storagePath := storagePath env ownerId filename;
     Asset.previewBucket := Some PREVIEWS_BUCKET;
     Asset.previewPath := Some (previewPath env ownerId filename);
     Asset.sha256 := None;
     Asset.notes := None;
     Asset.extra := None |}.

Definition POST (env : Env) (Authorization : option string) (body : InitRequest)
    : M Response :=
  handler "Failed to initialize upload"
    (ownerId ← verifyPAT env Authorization;
     match Js.or_null ownerId with
     | None => mret Unauthorized
     | Some ownerId =>
         match filename body, mimeType body with
         | Some filename, Some mimeType =>
             if negb (Js.truthy filename && Js.truthy mimeType) then
               mret (json (B_error "Missing required fields: filename, mimeType") 400)
             else
               asset ← insertAsset (values env ownerId filename mimeType body);
               if hasBlob body then
                 getAdminSupabase env;;
                 uploads ←
                   Promise_all
                     (createSignedUploadUrl env ASSETS_BUCKET
                        (storagePath env ownerId filename))
                     (createSignedUploadUrl env PREVIEWS_BUCKET
                        (previewPath env ownerId filename));
                 mret (ok (B_init (Asset.id asset) (Some uploads.1) (Some uploads.2)))
               else
                 mret (ok (B_init (Asset.id asset) None None))
         | _, _ =>
             mret (json (B_error "Missing required fields: filename, mimeType") 400)
         end
     end).

End ExtensionInit.

(** ** The extension's finalize route *)
Module ExtensionFinalize.

Definition verifyPAT (env : Env) (authHeader : option string) : M (option string) :=
  match authHeader with
  | None => mret None
  | Some header =>
      if negb (Js.startsWith header "Bearer ") then mret None
      else
        let token := Js.slice 7 header in
        let tokenHash := hashPAT env token in
        rows ← selectTokens [K_eq_tokenHash tokenHash; K_isNull_revokedAt];
        match first rows with
        | None => mret None
        | Some pat => mret (Some (Token.ownerId pat))
        end
  end.

Record FinalizeRequest := mkFinalizeRequest {
  assetId : option string;
  width : option Z;
  height : option Z;
  durationSeconds : option Js.number;
  sha256 : option string;
  tagIds : option (list string)
}.

(** The numbers of the [.set({...})], with their columns. *)
Definition params (body : FinalizeRequest) : list Param :=
  [P_integer (Js.num_or_null (width body));
   P_integer (Js.num_or_null (height body))].

(** The [.set({...})] of the update, as a function on the row. *)
Definition finalized (env : Env) (body : FinalizeRequest) (r : Asset.t) : Asset.t :=
  {| Asset.id := Asset.id r;
     Asset.ownerId := Asset.ownerId r;
     Asset.createdAt := Asset.createdAt r;
     Asset.updatedAt := dateNow env 0;
     Asset.status := ready;
     Asset.captureMethod := Asset.captureMethod r;
     Asset.sourcePlatform := Asset.sourcePlatform r;
     Asset.captureUrl := Asset.captureUrl r;
     Asset.mediaUrl := Asset.mediaUrl r;
     Asset.originalFilename := Asset.originalFilename r;
     Asset.mimeType := Asset.mimeType r;
     Asset.sizeBytes := Asset.sizeBytes r;
     Asset.width := Js.num_or_null (width body);
     Asset.height := Js.num_or_null (height body);
     Asset.durationSeconds := FinalizeUpload.duration_or_null (durationSeconds body);
     Asset.storageBucket := Asset.storageBucket r;
     Asset.storagePath := Asset.storagePath r;
     Asset.previewBucket := Asset.previewBucket r;
     Asset.previewPath := Asset.previewPath r;
     Asset.sha256 := Js.or_null (sha256 body);
     Asset.notes := Asset.notes r;
     Asset.extra := Asset.extra r |}.

Definition POST (env : Env) (Authorization : option string)
    (body : FinalizeRequest) : M Response :=
  handler "Failed to finalize upload"
    (ownerId ← verifyPAT env Authorization;
     match Js.or_null ownerId with
     | None => mret Unauthorized
     | Some ownerId =>
         match Js.or_null (assetId body) with
         | None => mret (json (B_error "Missing assetId") 400)
         | Some assetId =>
             rows ← updateAssets (finalized env body) (params body)
                      [A_eq_id assetId; A_eq_ownerId ownerId];
             match first rows with
             | None => mret (json (B_error "Asset not found") 404)
             | Some updatedAsset =>
                 match tagIds body with
                 | Some tagIds =>
                     (if bool_decide (0 < length tagIds)%nat then
                        insertAssetTags
                          (map (λ tagId, AssetTag.mk assetId tagId) tagIds)
                      else mret ());;
                     mret (ok (B_asset updatedAsset))
                 | None => mret (ok (B_asset updatedAsset))
                 end
             end
         end
     end).

End ExtensionFinalize.

(** ** The extension's content script *)
Module Content.

Inductive MediaType := image | video.

Record MediaCandidate := mkCandidate {
  id : string;
  type : MediaType;
  url : string;
  thumbnailUrl : option string;
  width : option Z;
  height : option Z;
  alt : option string;
  poster : option string
}.

(** The parts of the page the script reads. *)
Record Img := mkImg {
  img_currentSrc : string;
  img_src : string;
  naturalWidth : Z;
  naturalHeight : Z;
  img_alt : string
}.

Record Video := mkVideo {
  video_currentSrc : string;
  video_src : string;
  (** [video.querySelector('source')?.src] *)
  video_source_src : option string;
  video_poster : string;
  videoWidth : Z;
  videoHeight : Z
}.

Record Page := mkPage {
  (** [document.querySelectorAll('img')] *)
  images : list Img;
  (** [getComputedStyle(el).backgroundImage] of each element whose style
      attribute mentions a background image *)
  backgroundImages : list string;
  (** [document.querySelectorAll('video')] *)
  videos : list Video;
  (** [textContent] of each [script[type="application/json"]] *)
  jsonScripts : list string;
  (** [textContent] of each [script[id="__UNIVERSAL_DATA_FOR_REHYDRATION__"]] *)
  hydrationScripts : list string;
  hostname : string;
  href : string;
  title : string;
  (** [Date.now()] and [Math.random().toString(36)] as read when the i-th
      candidate is pushed *)
  now : nat → Z;
  random : nat → string;
  (** [JSON.parse] of a quoted string body; [None] when it throws *)
  JSON_parse_quoted : string → option string;
  (** [utils/source-detection] *)
  detectSourceFromUrl : string → string
}.

Record PageContext := mkPageContext {
  pc_url : string;
  pc_title : string;
  pc_sourcePlatform : string
}.

Record GetCandidatesResponse := mkGetCandidatesResponse {
  candidates : list MediaCandidate;
  pageContext : PageContext
}.

(** The two objects every pass receives and mutates, with the number of
    ambient reads made so far. *)
Record Scan := mkScan {
  found : list MediaCandidate;
  seenUrls : gset string;
  reads : nat
}.

(** [seenUrls.add(url); candidates.push(c)] where [c] is built from the
    current clock and random readings. *)
Definition add_push (p : Page) (u : string)
    (c : Z → string → MediaCandidate) (st : Scan) : Scan :=
  mkScan (found st ++ [c (now p (reads st)) (random p (reads st))])
         ({[u]} ∪ seenUrls st) (S (reads st)).

Definition has (st : Scan) (u : string) : bool := bool_decide (u ∈ seenUrls st).

(** [v || undefined] *)
Definition num_or_undefined (n : Z) : option Z := Js.num_or_null (Some n).
Definition str_or_undefined (s : string) : option string := Js.or_null (Some s).
(** [a || b] on strings *)
Definition or_else (a b : string) : string := if Js.truthy a then a else b.

(** *** [scanImages] *)
Fixpoint scanImages_from (p : Page) (imgs : list Img) (imageIndex : nat)
    (st : Scan) : Scan :=
  match imgs with
  | [] => st
  | img :: rest =>
      let url := or_else (img_currentSrc img) (img_src img) in
      if negb (Js.truthy url) || Js.startsWith url "data:" || has st url then
        scanImages_from p rest imageIndex st
      else if bool_decide (naturalWidth img < 100)
              || bool_decide (naturalHeight img < 100) then
        scanImages_from p rest imageIndex st
      else
        scanImages_from p rest (S imageIndex)
          (add_push p url
             (λ t _, mkCandidate
                ("img-" +:+ pretty imageIndex +:+ "-" +:+ Js.toString t)
                image url None (Some (naturalWidth img)) (Some (naturalHeight img))
                (str_or_undefined (img_alt img)) None)
             st)
  end.

Definition scanImages (p : Page) (st : Scan) : Scan :=
  scanImages_from p (images p) 0 st.

(** *** [BG_IMAGE_URL_REGEX]: [url(], an optional quote, the longest run of
    characters other than quotes and [)], an optional quote, [)]. *)
Definition is_quote (c : ascii) : bool :=
  (Ascii.eqb c "034" || Ascii.eqb c "'")%char.

Fixpoint span (keep : ascii → bool) (s : string) : string * string :=
  match s with
  | EmptyString => (EmptyString, EmptyString)
  | String c s' =>
      if keep c then let '(run, rest) := span keep s' in (String c run, rest)
      else (EmptyString, s)
  end.

Definition bg_match_here (s : string) : option string :=
  if negb (Js.startsWith s "url(") then None
  else
    let body := Js.slice 4 s in
    let body :=
      match body with
      | String c body' => if is_quote c then body' else body
      | EmptyString => body
      end in
    let '(run, rest) :=
      span (λ c, negb (is_quote c || Ascii.eqb c ")"%char)) body in
    if negb (Js.truthy run) then None
    else
      match rest with
      | String ")" _ => Some run
      | String q (String ")" _) => if is_quote q then Some run else None
      | _ => None
      end%char.

(** [bgImage.match(BG_IMAGE_URL_REGEX)?.[1]]: the leftmost match. *)
Fixpoint bg_match (s : string) : option string :=
  match bg_match_here s with
  | Some u => Some u
  | None =>
      match s with
      | EmptyString => None
      | String _ s' => bg_match s'
      end
  end.

(** *** [scanBackgroundImages] *)
Fixpoint scanBackgroundImages_from (p : Page) (els : list string)
    (bgIndex : nat) (st : Scan) : Scan :=
  match els with
  | [] => st
  | bgImage :: rest =>
      match bg_match bgImage with
      | None => scanBackgroundImages_from p rest bgIndex st
      | Some url =>
          if Js.startsWith url "data:" || has st url then
            scanBackgroundImages_from p rest bgIndex st
          else
            scanBackgroundImages_from p rest (S bgIndex)
              (add_push p url
                 (λ t _, mkCandidate
                    ("bg-" +:+ pretty bgIndex +:+ "-" +:+ Js.toString t)
                    image url None None None None None)
                 st)
      end
  end.

Definition scanBackgroundImages (p : Page) (st : Scan) : Scan :=
  scanBackgroundImages_from p (backgroundImages p) 0 st.

(** *** [getVideoUrl], [handleBlobVideo], [scanVideos] *)
Definition getVideoUrl (v : Video) : string :=
  let url := or_else (video_currentSrc v) (video_src v) in
  if negb (Js.truthy url) then
    match video_source_src v with
    | Some s => or_else s ""
    | None => ""
    end
  else url.

Definition handleBlobVideo (p : Page) (v : Video) (videoIndex : nat)
    (st : Scan) : Scan :=
  let poster := video_poster v in
  if Js.truthy poster && negb (has st poster) then
    add_push p poster
      (λ t _, mkCandidate
         ("video-poster-" +:+ pretty videoIndex +:+ "-" +:+ Js.toString t)
         image poster None (num_or_undefined (videoWidth v))
         (num_or_undefined (videoHeight v)) None None)
      st
  else st.

Fixpoint scanVideos_from (p : Page) (vs : list Video) (videoIndex : nat)
    (st : Scan) : Scan :=
  match vs with
  | [] => st
  | v :: rest =>
      let url := getVideoUrl v in
      if negb (Js.truthy url) || Js.startsWith url "blob:"
         || Js.startsWith url "data:" then
        scanVideos_from p rest (S videoIndex)
          (if Js.startsWith (video_currentSrc v) "blob:"
              || Js.startsWith (video_src v) "blob:"
           then handleBlobVideo p v videoIndex st
           else st)
      else if has st url then scanVideos_from p rest (S videoIndex) st
      else
        scanVideos_from p rest (S videoIndex)
          (add_push p url
             (λ t _, mkCandidate
                ("video-" +:+ pretty videoIndex +:+ "-" +:+ Js.toString t)
                video url (str_or_undefined (video_poster v))
                (num_or_undefined (videoWidth v))
                (num_or_undefined (videoHeight v)) None
                (str_or_undefined (video_poster v)))
             st)
  end.

Definition scanVideos (p : Page) (st : Scan) : Scan :=
  scanVideos_from p (videos p) 0 st.

(** *** The three global patterns: a quoted key, a colon, and a quoted
    non-empty run of characters other than the double quote. *)
Definition dq : string := String "034"%char EmptyString.

Definition quoted_key (key : string) : string :=
  dq +:+ key +:+ dq +:+ ":" +:+ dq.

Definition INSTAGRAM_VIDEO_REGEX : string := quoted_key "video_url".
Definition INSTAGRAM_IMAGE_REGEX : string := quoted_key "display_url".
Definition TIKTOK_VIDEO_REGEX : string := quoted_key "playAddr".

Definition kv_match_here (opening : string) (s : string) : option string :=
  if negb (Js.startsWith s opening) then None
  else
    let '(run, rest) :=
      span (λ c, negb (Ascii.eqb c "034"%char))
        (Js.slice (String.length opening) s) in
    if negb (Js.truthy run) then None
    else
      match rest with
      | String _ _ => Some run
      | EmptyString => None
      end.

(** [text.matchAll(re)]: the captures of the successive leftmost matches;
    [skip] counts the characters still covered by the previous match. *)
Fixpoint matchAll_from (opening : string) (s : string) (skip : nat)
    : list string :=
  match s with
  | EmptyString => []
  | String _ s' =>
      match skip with
      | S k => matchAll_from opening s' k
      | O =>
          match kv_match_here opening s with
          | Some run =>
              run :: matchAll_from opening s'
                       (String.length opening + String.length run)
          | None => matchAll_from opening s' 0
          end
      end
  end.

Definition matchAll (opening : string) (text : string) : list string :=
  matchAll_from opening text 0.

(** *** [scanInstagramMedia]: a [JSON.parse] that throws leaves the whole
    pass, keeping what was pushed before. The boolean is [true] once the
    pass has thrown. *)
Fixpoint instagram_matches (p : Page) (label : string) (ty : MediaType)
    (ms : list string) (st : Scan) : Scan * bool :=
  match ms with
  | [] => (st, false)
  | m :: rest =>
      match JSON_parse_quoted p m with
      | None => (st, true)
      | Some url =>
          instagram_matches p label ty rest
            (if negb (has st url) then
               add_push p url
                 (λ t r, mkCandidate
                    (label +:+ Js.toString t +:+ "-" +:+ Js.slice 2 r)
                    ty url None None None None None)
                 st
             else st)
      end
  end.

Fixpoint scanInstagramMedia_from (p : Page) (scripts : list string)
    (st : Scan) : Scan :=
  match scripts with
  | [] => st
  | text :: rest =>
      match instagram_matches p "ig-video-" video
              (matchAll INSTAGRAM_VIDEO_REGEX text) st with
      | (st1, true) => st1
      | (st1, false) =>
          match instagram_matches p "ig-image-" image
                  (matchAll INSTAGRAM_IMAGE_REGEX text) st1 with
          | (st2, true) => st2
          | (st2, false) => scanInstagramMedia_from p rest st2
          end
      end
  end.

Definition scanInstagramMedia (p : Page) (st : Scan) : Scan :=
  scanInstagramMedia_from p (jsonScripts p) st.

(** *** [scanTikTokMedia]: here a [JSON.parse] that throws skips one match. *)
Fixpoint tiktok_matches (p : Page) (ms : list string) (st : Scan) : Scan :=
  match ms with
  | [] => st
  | m :: rest =>
      match JSON_parse_quoted p m with
      | None => tiktok_matches p rest st
      | Some url =>
          tiktok_matches p rest
            (if negb (has st url || Js.startsWith url "blob:") then
               add_push p url
                 (λ t r, mkCandidate
                    ("tt-video-" +:+ Js.toString t +:+ "-" +:+ Js.slice 2 r)
                    video url None None None None None)
                 st
             else st)
      end
  end.

Definition scanTikTokMedia (p : Page) (st : Scan) : Scan :=
  foldl (λ st text, tiktok_matches p (matchAll TIKTOK_VIDEO_REGEX text) st)
    st (hydrationScripts p).

Definition scanPlatformSpecificMedia (p : Page) (st : Scan) : Scan :=
  let st :=
    if Js.includes (hostname p) "instagram.com" then scanInstagramMedia p st
    else st in
  if Js.includes (hostname p) "tiktok.com" then scanTikTokMedia p st else st.

Definition getCandidates (p : Page) : GetCandidatesResponse :=
  let st := mkScan [] ∅ 0 in
  let st := scanImages p st in
  let st := scanBackgroundImages p st in
  let st := scanVideos p st in
  let st := scanPlatformSpecificMedia p st in
  mkGetCandidatesResponse (found st)
    (mkPageContext (href p) (title p) (detectSourceFromUrl p (href p))).

End Content.

(** ** The API as a whole: one constructor per route and method *)
Module Api.

Inductive Call :=
| ListAssets (searchParams : list (string * string))
| GetAsset (id : string)
| PatchAsset (id : string) (body : AssetRoute.PatchBody)
| DeleteAsset (id : string)
| InitUpload (body : InitUpload.InitUploadRequest)
| FinalizeUpload (body : FinalizeUpload.FinalizeUploadRequest)
| ListTags
| CreateTag (body : TagsRoute.TagBody)
| PatchTag (id : string) (body : TagsRoute.TagBody)
| DeleteTag (id : string)
| ListTokens
| CreateToken (name : option string)
| DeleteToken (id : string)
| ExtVerify (Authorization : option string)
| ExtInit (Authorization : option string) (body : ExtensionInit.InitRequest)
| ExtFinalize (Authorization : option string)
    (body : ExtensionFinalize.FinalizeRequest).

Definition serve (env : Env) (c : Call) : M Response :=
  match c with
  | ListAssets sp => AssetsRoute.GET env sp
  | GetAsset id => AssetRoute.GET env id
  | PatchAsset id body => AssetRoute.PATCH env id body
  | DeleteAsset id => AssetRoute.DELETE env id
  | InitUpload body => InitUpload.POST env body
  | FinalizeUpload body => FinalizeUpload.POST env body
  | ListTags => TagsRoute.GET env
  | CreateTag body => TagsRoute.POST env body
  | PatchTag id body => TagRoute.PATCH env id body
  | DeleteTag id => TagRoute.DELETE env id
  | ListTokens => TokensRoute.GET env
  | CreateToken name => TokensRoute.POST env name
  | DeleteToken id => TokenRoute.DELETE env id
  | ExtVerify h => ExtensionVerify.GET env h
  | ExtInit h body => ExtensionInit.POST env h body
  | ExtFinalize h body => ExtensionFinalize.POST env h body
  end.

(** The response and the database a call leaves, from a database. *)
Definition respond (env : Env) (c : Call) (d : Db) : option Response * Db :=
  match serve env c (mkWorld d []) with
  | (Done r, w) => (Some r, db w)
  | (Thrown, w) => (None, db w)
  end.

(** The statements and storage calls of a call. *)
Definition events (env : Env) (c : Call) (d : Db) : list Event :=
  log (snd (serve env c (mkWorld d []))).

(** A sequence of requests, each with what it reads from outside. *)
Definition after (calls : list (Env * Call)) (d : Db) : Db :=
  foldl (λ d ec, snd (respond ec.1 ec.2 d)) d calls.

(** The non-revoked row a bearer header selects, as every copy of
    [verifyPAT] looks it up. *)
Definition bearer_row (env : Env) (Authorization : option string) (d : Db)
    : option Token.t :=
  match Authorization with
  | Some header =>
      if Js.startsWith header "Bearer " then
        first (filter
          (λ r, all_hold token_holds
                  [K_eq_tokenHash (hashPAT env (Js.slice 7 header));
                   K_isNull_revokedAt] r)
          (personalAccessTokens d))
      else None
  | None => None
  end.

(** The principal on whose behalf a call runs: the session's user, or the
    owner of the token row for the extension's routes. *)
Definition principal (env : Env) (c : Call) (d : Db) : option string :=
  match c with
  | ExtVerify h | ExtInit h _ | ExtFinalize h _ =>
      Js.or_null (Token.ownerId <$> bearer_row env h d)
  | _ => getUser env
  end.

(** Primary keys are unique, and [owner_id] columns hold a user id, which
    is never the empty string. *)
Record wf (d : Db) : Prop := mkWf {
  wf_asset_ids : NoDup (map Asset.id (assets d));
  wf_tag_ids : NoDup (map Tag.id (tags d));
  wf_token_ids : NoDup (map Token.id (personalAccessTokens d));
  wf_token_owner :
    ∀ t, t ∈ personalAccessTokens d → Token.ownerId t ≠ ""
}.

End Api.
Export Api.

(** ** Properties the theorems speak about *)
Module Spec.

(** *** Storage paths *)
Definition class_chars : string :=
  "abcdefghijklmnopqrstuvwxyzABCDEFGHIJKLMNOPQRSTUVWXYZ0123456789.-".

(** Membership in [[a-zA-Z0-9.-]], by listing the class. *)
Definition in_class (c : ascii) : bool :=
  bool_decide (c ∈ list_ascii_of_string class_chars).

(** The form [owner/timestamp-random-sanitizedFilename] with a random part
    of six characters. *)
Definition path_as_specified (owner filename path : string) : Prop :=
  ∃ (timestamp : Z) (suffix : string),
    String.length suffix = 6%nat ∧
    path = owner +:+ "/" +:+ Js.toString timestamp +:+ "-" +:+ suffix
             +:+ "-" +:+ sanitize filename.

(** *** Finalize: a column holds the request's value when that value is
    truthy and null otherwise. *)
Definition truthy_or_null {A} (falsy : A) (requested stored : option A) : Prop :=
  match requested with
  | Some v => (v = falsy → stored = None) ∧ (v ≠ falsy → stored = Some v)
  | None => stored = None
  end.

(** *** Bearer tokens *)
Definition valid_bearer (env : Env) (Authorization : option string) (d : Db)
    : Prop :=
  ∃ token row,
    Authorization = Some ("Bearer " +:+ token)
    ∧ row ∈ personalAccessTokens d
    ∧ Token.tokenHash row = hashPAT env token
    ∧ Token.revokedAt row = None.

(** The header of a call to one of the extension's routes. *)
Definition authorization (c : Call) : option (option string) :=
  match c with
  | ExtVerify h | ExtInit h _ | ExtFinalize h _ => Some h
  | _ => None
  end.

(** The answer 401 Unauthorized. *)
Definition rejected (r : option Response) : Prop := r = Some Unauthorized.

(** *** The content script's invariant: the URLs found so far are distinct
    and every one of them is in [seenUrls]. *)
Definition tidy (st : Content.Scan) : Prop :=
  NoDup (map Content.url (Content.found st))
  ∧ ∀ c, c ∈ Content.found st → Content.url c ∈ Content.seenUrls st.

(** *** The lookup every copy of [verifyPAT] sends *)
Definition bearer_hash (env : Env) (header : string) : string :=
  hashPAT env (Js.slice 7 header).

Definition lookup (env : Env) (header : string) : Stmt :=
  OnTokens SELECT [K_eq_tokenHash (bearer_hash env header); K_isNull_revokedAt].

(** *** Tenancy: the rows of one owner, and what a response returns *)
Definition owned_assets (u : string) (d : Db) : list Asset.t :=
  filter (λ r, Asset.ownerId r = u) (assets d).
Definition owned_tags (u : string) (d : Db) : list Tag.t :=
  filter (λ r, Tag.ownerId r = u) (tags d).
Definition owned_tokens (u : string) (d : Db) : list Token.t :=
  filter (λ r, Token.ownerId r = u) (personalAccessTokens d).

Definition untouched (u : string) (d d' : Db) : Prop :=
  owned_assets u d' = owned_assets u d
  ∧ owned_tags u d' = owned_tags u d
  ∧ owned_tokens u d' = owned_tokens u d.

Definition returned_assets (r : Response) : list Asset.t :=
  match body r with
  | B_assets l _ => map lp_asset l
  | B_asset_detail a => [ad_asset a]
  | B_asset a => [a]
  | _ => []
  end.

(** The tag rows of the tag routes' responses. *)
Definition returned_tags (r : Response) : list Tag.t :=
  match body r with
  | B_tags l => l
  | B_tag t => [t]
  | _ => []
  end.

(** The tag rows attached to the assets of a response. *)
Definition attached_tags (r : Response) : list Tag.t :=
  match body r with
  | B_assets l _ => l ≫= lp_tags
  | B_asset_detail a => ad_tags a
  | _ => []
  end.

Definition returned_tokens (r : Response) : list TokenInfo :=
  match body r with
  | B_tokens l => l
  | B_token_created _ i => [i]
  | _ => []
  end.

(** *** The owner condition of a statement. A statement is cleared for
    principal [A] when it is an insert, carries the equality on [A]'s id, is
    the delete by id of a row that an earlier select by id and owner looked
    up, is a token lookup by hash or the update by id that follows one, or
    is on the asset-tag table, which has no owner column. *)
Definition cleared (A : string) (earlier : list Event) (e : Event) : Prop :=
  match e with
  | Query (OnAssets INSERT _) => True
  | Query (OnAssets DELETE w) =>
      ∃ id, w = [A_eq_id id]
            ∧ Query (OnAssets SELECT [A_eq_id id; A_eq_ownerId A]) ∈ earlier
  | Query (OnAssets _ w) => A_eq_ownerId A ∈ w
  | Query (OnTags INSERT _) => True
  | Query (OnTags DELETE w) =>
      ∃ id, w = [T_eq_id id]
            ∧ Query (OnTags SELECT [T_eq_id id; T_eq_ownerId A]) ∈ earlier
  | Query (OnTags _ w) => T_eq_ownerId A ∈ w
  | Query (OnTokens INSERT _) => True
  | Query (OnTokens v w) =>
      K_eq_ownerId A ∈ w
      ∨ (v = SELECT ∧ ∃ h, w = [K_eq_tokenHash h; K_isNull_revokedAt])
      ∨ (v = UPDATE ∧ ∃ id h, w = [K_eq_id id]
           ∧ Query (OnTokens SELECT [K_eq_tokenHash h; K_isNull_revokedAt]) ∈ earlier)
  | _ => True
  end.

(** A statement cleared whatever came before it. *)
Definition free (A : string) (e : Event) : Prop :=
  ∀ earlier, cleared A earlier e.

Fixpoint disciplined_after (A : string) (earlier evs : list Event) : Prop :=
  match evs with
  | [] => True
  | e :: rest => cleared A earlier e ∧ disciplined_after A (earlier ++ [e]) rest
  end.

Definition disciplined (A : string) (evs : list Event) : Prop :=
  disciplined_after A [] evs.

(** What tenancy asks of one call made for principal [A]: the rows of every
    other owner stay as they were, the asset, tag and token rows of the
    response are [A]'s, and every statement is cleared for [A]. *)
Definition tenant_safe (A : string) (env : Env) (c : Call) (d : Db) : Prop :=
  (∀ B, B ≠ A → untouched B d (respond env c d).2)
  ∧ (∀ r, (respond env c d).1 = Some r →
       (∀ a, a ∈ returned_assets r → Asset.ownerId a = A)
       ∧ (∀ t, t ∈ returned_tags r → Tag.ownerId t = A)
       ∧ (∀ i, i ∈ returned_tokens r →
            ∃ t, t ∈ personalAccessTokens (respond env c d).2
                 ∧ Token.ownerId t = A ∧ TokensRoute.info t = i))
  ∧ disciplined A (events env c d).

(** *** A world after one more statement *)
Definition logged (w : World) (s : Stmt) : World :=
  mkWorld (db w) (log w ++ [Query s]).

(** A world after the lookup of a bearer header, which is sent only for a
    header that starts with [Bearer ]. *)
Definition looked_up (env : Env) (Authorization : option string) (w : World)
    : World :=
  match Authorization with
  | Some header =>
      if Js.startsWith header "Bearer " then logged w (lookup env header) else w
  | None => w
  end.

(** The same for the init route, which also stamps the row it found. *)
Definition looked_up_stamped (env : Env) (Authorization : option string)
    (w : World) : World :=
  match bearer_row env Authorization (db w) with
  | Some pat =>
      mkWorld
        (set_tokens
           (update_rows (all_hold token_holds [K_eq_id (Token.id pat)])
              (ExtensionInit.set_lastUsedAt (dateNow env 0))
              (personalAccessTokens (db w))) (db w))
        (log (looked_up env Authorization w)
           ++ [Query (OnTokens UPDATE [K_eq_id (Token.id pat)])])
  | None => looked_up env Authorization w
  end.

End Spec.
Export Spec.

(** ** [extension/src/utils/source-detection]: the extension's own table *)
Module SourceDetection.

Record SourcePattern := mkSourcePattern {
  key : string;
  label : string;
  patterns : list string
}.

Definition SOURCE_PATTERNS : list SourcePattern :=
  [ mkSourcePattern "facebook" "Facebook" ["facebook.com"; "fb.com"; "fb.me"];
    mkSourcePattern "instagram" "Instagram" ["instagram.com"; "instagr.am"];
    mkSourcePattern "tiktok" "TikTok" ["tiktok.com"; "vm.tiktok.com"];
    mkSourcePattern "youtube" "YouTube" ["youtube.com"; "youtu.be"];
    mkSourcePattern "twitter" "X / Twitter" ["twitter.com"; "x.com"; "t.co"];
    mkSourcePattern "linkedin" "LinkedIn" ["linkedin.com"];
    mkSourcePattern "pinterest" "Pinterest" ["pinterest.com"; "pin.it"];
    mkSourcePattern "snapchat" "Snapchat" ["snapchat.com"] ].

Definition detectSourceFromUrl (env : Env) (url : string) : string :=
  match urlHostname env url with
  | Some h =>
      let hostname := Js.toLowerCase h in
      match
        filter (λ source, existsb (Js.includes hostname) (patterns source))
          SOURCE_PATTERNS
      with
      | source :: _ => key source
      | [] => "other"
      end
  | None => "other"
  end.

(** [SOURCE_PATTERNS.find((s) => s.key === key)?.label || 'Other'] *)
Definition getSourceLabel (k : string) : string :=
  match filter (λ s, key s = k) SOURCE_PATTERNS with
  | source :: _ => if Js.truthy (label source) then label source else "Other"
  | [] => "Other"
  end.

End SourceDetection.

(** ** [extension/src/utils/storage]: the extension's settings, kept in
    [chrome.storage.sync], which is a map from keys to the strings that
    [setConfig] stores. *)
Module ExtensionStorage.

Record StorageConfig := mkStorageConfig {
  apiUrl : string;
  accessToken : option string
}.

(** [Partial<StorageConfig>]: a field may be absent; the token may be
    [null]. *)
Record PartialConfig := mkPartialConfig {
  given_apiUrl : option string;
  given_accessToken : option (option string)
}.

Definition API_URL : string := "apiUrl".
Definition ACCESS_TOKEN : string := "accessToken".
Definition DEFAULT_API_URL : string := "http://localhost:3000".

Definition getConfig (sync : gmap string string) : StorageConfig :=
  {| apiUrl := Js.or_default (sync !! API_URL) DEFAULT_API_URL;
     accessToken := Js.or_null (sync !! ACCESS_TOKEN) |}.

(** [chrome.storage.sync.set(updates)] writes the keys of [updates] and
    leaves the others. *)
Definition setConfig (config : PartialConfig) (sync : gmap string string)
    : gmap string string :=
  let updates : gmap string string := ∅ in
  let updates :=
    match given_apiUrl config with
    | Some v => <[API_URL := v]> updates
    | None => updates
    end in
  let updates :=
    match given_accessToken config with
    | Some v => <[ACCESS_TOKEN := default "" (Js.or_null v)]> updates
    | None => updates
    end in
  updates ∪ sync.

Definition clearConfig (sync : gmap string string) : gmap string string :=
  delete ACCESS_TOKEN (delete API_URL sync).

Definition isConfigured (sync : gmap string string) : bool :=
  Js.truthy_opt (accessToken (getConfig sync)).

(** *** The options page: [saveConfig] on the two input fields. The
    result is the status line it shows. *)
Definition saveConfig (env : Env) (apiUrlInput tokenInput : string)
    (sync : gmap string string) : gmap string string * string :=
  let apiUrl := Js.trim apiUrlInput in
  let accessToken := Js.trim tokenInput in
  if negb (Js.truthy apiUrl) then (sync, "API URL is required")
  else
    match urlHostname env apiUrl with
    | None => (sync, "Invalid API URL")
    | Some _ =>
        (setConfig (mkPartialConfig (Some apiUrl) (Some (Some accessToken))) sync,
         "Settings saved!")
    end.

End ExtensionStorage.

(** ** Vocabulary for the passes of the content script: a pass appends
    candidates that satisfy [Q] and records exactly their URLs as seen. *)
Module Passes.

Definition appends (Q : Content.MediaCandidate → Prop)
    (st st' : Content.Scan) : Prop :=
  ∃ more,
    Content.found st' = Content.found st ++ more
    ∧ Forall Q more
    ∧ Content.seenUrls st'
      = list_to_set (map Content.url more) ∪ Content.seenUrls st.

(** A candidate of the image pass: an [img] of the page with a URL other
    than a [data:] URL, at least 100 pixels wide and high. *)
Definition from_image (imgs : list Content.Img) (c : Content.MediaCandidate)
    : Prop :=
  Content.type c = Content.image
  ∧ ∃ img, img ∈ imgs
           ∧ Content.url c
               = Content.or_else (Content.img_currentSrc img) (Content.img_src img)
           ∧ Content.url c ≠ ""
           ∧ Js.startsWith (Content.url c) "data:" = false
           ∧ 100 ≤ Content.naturalWidth img ∧ 100 ≤ Content.naturalHeight img
           ∧ Content.width c = Some (Content.naturalWidth img)
           ∧ Content.height c = Some (Content.naturalHeight img).

(** A video candidate never has a [blob:] URL. *)
Definition no_blob_video (c : Content.MediaCandidate) : Prop :=
  Content.type c = Content.video → Js.startsWith (Content.url c) "blob:" = false.

End Passes.

(** ** Sample data for the examples *)
Module Demo.

Definition signer (bucket path : string) : option SignedUpload :=
  Some (mkSignedUpload ("https://storage.test/" +:+ bucket +:+ "/" +:+ path)
          "upload-token" path).

(** A request of [user] in which the database draws [fresh] as the new id
    and [Math.random().toString(36)] reads [rnd]; the digest is the
    identity, which stands in for SHA-256 and is injective like it is
    taken to be. *)
Definition env_for (user : option string) (fresh rnd : string)
    (removes : bool) : Env :=
  {| getUser := user;
     digest := λ bytes, bytes;
     newId := fresh;
     dbNow := 1700000000000;
     dateNow := λ i, 1700000000000 + Z.of_nat i;
     random36 := λ _, rnd;
     randomIndex := λ i, i;
     storage_createSignedUploadUrl := signer;
     storage_createSignedUrl := λ bucket path,
       Some ("https://storage.test/" +:+ bucket +:+ "/" +:+ path);
     storage_remove := λ _ _, removes;
     parseDate := λ _, None;
     urlHostname := λ _, None;
     adminConfigured := true |}.

(** The same request when the storage provider refuses every call. *)
Definition refused_for (user : option string) (fresh : string) : Env :=
  {| getUser := user;
     digest := λ bytes, bytes;
     newId := fresh;
     dbNow := 1700000000000;
     dateNow := λ i, 1700000000000 + Z.of_nat i;
     random36 := λ _, "0.4fzyo82mvyr";
     randomIndex := λ i, i;
     storage_createSignedUploadUrl := λ _ _, None;
     storage_createSignedUrl := λ _ _, None;
     storage_remove := λ _ _, false;
     parseDate := λ _, None;
     urlHostname := λ _, None;
     adminConfigured := true |}.

Definition empty : Db := mkDb [] [] [] [].

Definition ad_png : InitUpload.InitUploadRequest :=
  InitUpload.mkInitUploadRequest (Some "ad.png") (Some "image/png") None None None.


(** Two tenants, each with an asset, a tag and a token. *)
Definition asset_of (id owner : string) : Asset.t :=
  Asset.mk id owner 1700000000000 1700000000000 ready web_upload "other"
    None None "ad.png" "image/png" (Some 2048) (Some 800) (Some 600) (Some "12")
    "assets" (owner +:+ "/1700000000000-4fzyo8-ad.png")
    (Some "previews")
    (Some ("previews/" +:+ owner +:+ "/1700000000001-4fzyo8-preview-ad.png"))
    None (Some "spring campaign") None.

Definition token_of (id owner secret : string) : Token.t :=
  Token.mk id owner "laptop"
    (hashPAT (env_for None "" "" true) secret) (getPATPrefix secret)
    1700000000000 None None None.

Definition shared : Db :=
  mkDb [asset_of "a1" "u1"; asset_of "b1" "u2"]
       [AssetTag.mk "a1" "t1"; AssetTag.mk "b1" "t2"]
       [Tag.mk "t1" "u1" "brand" "#6b7280" 1700000000000;
        Tag.mk "t2" "u2" "launch" "#ff0000" 1700000000000]
       [token_of "k1" "u1" "adstash_one"; token_of "k2" "u2" "adstash_two"].

(** The same two tenants with every id in the text form of a [uuid]:
    assets [a1] and [b1], tags [c1] and [c2], tokens [d1] and [d2], users
    [e1] and [e2]. *)
Definition uid (tail : string) : string :=
  "00000000-0000-4000-8000-0000000000" +:+ tail.


(** A library in which asset [a1] holds tags [t1] and [t2] and asset [a2]
    holds only [t1]. *)
Definition library : Db :=
  mkDb [asset_of "a1" "u1"; asset_of "a2" "u1"]
       [AssetTag.mk "a1" "t1"; AssetTag.mk "a2" "t1"; AssetTag.mk "a1" "t2"]
       [Tag.mk "t1" "u1" "brand" "#6b7280" 1700000000000;
        Tag.mk "t2" "u1" "launch" "#ff0000" 1700000000000]
       [].

Definition bearer_one : option string := Some "Bearer adstash_one".

(** A capture the extension posts without a blob. *)
Definition capture : ExtensionInit.InitRequest :=
  ExtensionInit.mkInitRequest (Some "clip.mp4") (Some "video/mp4") None
    (Some "tiktok") None (Some "https://cdn.example/clip.mp4") false.

(** A web finalize of a clip of 1280 by 720 that lasts 12.345 seconds. *)
Definition finalize_clip : FinalizeUpload.FinalizeUploadRequest :=
  FinalizeUpload.mkFinalizeUploadRequest (Some "a1") (Some 1280) (Some 720)
    (Some (Js.mkNumber 12345 3)) None None None.

(** A web finalize that reports a duration of zero seconds and nothing else,
    and an extension finalize that reports nothing at all. *)
Definition finalize_zero_duration : FinalizeUpload.FinalizeUploadRequest :=
  FinalizeUpload.mkFinalizeUploadRequest (Some "a1") None None
    (Some (Js.whole 0)) None None None.

Definition finalize_bare : ExtensionFinalize.FinalizeRequest :=
  ExtensionFinalize.mkFinalizeRequest (Some "a1") None None None None None.

(** A TikTok page that shows one banner three times: as an image, as the
    background of an element and as the poster of a blob video; it also has
    an icon, a second video that plays the same file as its hydration data
    names, and a hydration script that names that file twice. *)
Definition banner : string := "https://cdn.example/banner.jpg".
Definition clip : string := "https://cdn.example/clip.mp4".

Definition page : Content.Page :=
  {| Content.images :=
       [Content.mkImg banner "" 1200 628 "Spring sale";
        Content.mkImg "" "https://cdn.example/icon.png" 16 16 "";
        Content.mkImg "" banner 1200 628 ""];
     Content.backgroundImages := ["url(" +:+ Content.dq +:+ banner +:+ Content.dq +:+ ")"];
     Content.videos :=
       [Content.mkVideo "blob:https://www.tiktok.com/1f0c" "" None banner 0 0;
        Content.mkVideo clip "" None "" 720 1280];
     Content.jsonScripts := [];
     Content.hydrationScripts :=
       ["{" +:+ Content.quoted_key "playAddr" +:+ clip +:+ Content.dq +:+ ","
            +:+ Content.quoted_key "playAddr" +:+ clip +:+ Content.dq +:+ "}"];
     Content.hostname := "www.tiktok.com";
     Content.href := "https://www.tiktok.com/@brand/video/1";
     Content.title := "Brand on TikTok";
     Content.now := λ i, 1700000000000 + Z.of_nat i;
     Content.random := λ _, "0.4fzyo82mvyr";
     Content.JSON_parse_quoted := Some;
     Content.detectSourceFromUrl := λ _, "tiktok" |}.

End Demo.

(** * Theorems *)

(** ** The embedding at sample inputs *)

(** [Number.parseInt] reads an optional sign and the leading digits. *)
Example parseInt_samples :
  Js.parseInt "24" = Some 24 ∧ Js.parseInt " -12px" = Some (-12)
  ∧ Js.parseInt "abc" = None.
Proof. by vm_compute. Qed.

(** Numbers as JavaScript writes them: 0, 12.5, 12.345, -0.5, 1.2 and 1e-7
    (which the [numeric] column prints in full). *)
Example number_toString_samples :
  Js.number_toString (Js.whole 0) = "0"
  ∧ Js.number_toString (Js.mkNumber 125 1) = "12.5"
  ∧ Js.number_toString (Js.mkNumber 12345 3) = "12.345"
  ∧ Js.number_toString (Js.mkNumber (-5) 1) = "-0.5"
  ∧ Js.number_toString (Js.mkNumber 120 2) = "1.2"
  ∧ Js.number_toString (Js.mkNumber 1 7) = "0.0000001".
Proof. by vm_compute. Qed.

(** The ends of the [integer] and [bigint] columns, and what is a [uuid] in
    the text form of the database. *)
Example column_type_samples :
  integer 2147483647 = true ∧ integer 2147483648 = false
  ∧ integer (-2147483648) = true
  ∧ bigint 9223372036854775807 = true ∧ bigint 9223372036854775808 = false
  ∧ uuid "7c9e6679-7425-40de-944b-e07fc1f90ae7" = true
  ∧ uuid "7C9E6679-7425-40DE-944B-E07FC1F90AE7" = false
  ∧ uuid "7c9e66797425-40de-944b-e07fc1f90ae7" = false
  ∧ uuid "a1" = false ∧ uuid (Demo.uid "a1") = true.
Proof. by vm_compute. Qed.

(** A width of 2147483648 fails the update before a row is looked at: the
    web finalize answers 500 and the row keeps what it held. *)
Example finalize_out_of_range :
  let env := Demo.env_for (Some "u1") "n1" "0.4fzyo82mvyr" true in
  let req :=
    FinalizeUpload.mkFinalizeUploadRequest (Some "a1") (Some 2147483648)
      (Some 600) None None None None in
  respond env (FinalizeUpload req) Demo.shared
  = (Some (json (B_error "Failed to finalize upload") 500), Demo.shared).
Proof. by vm_compute. Qed.

(** A size of 2^63 fails the insert: init-upload answers 500 and no row is
    left. *)
Example init_size_out_of_range :
  let env := Demo.env_for (Some "u1") "n1" "0.4fzyo82mvyr" true in
  let req :=
    InitUpload.mkInitUploadRequest (Some "ad.png") (Some "image/png")
      (Some 9223372036854775808) None None in
  respond env (InitUpload req) Demo.shared
  = (Some (json (B_error "Failed to initialize upload") 500), Demo.shared).
Proof. by vm_compute. Qed.

Example split_keeps_empty_pieces : Js.split "," "t1,,t2" = ["t1"; ""; "t2"].
Proof. reflexivity. Qed.

Example trim_sample : Js.trim "  brand " = "brand".
Proof. reflexivity. Qed.

(** The query string [?tags=t1,,t2&limit=500]. *)
Example parseQueryParams_sample :
  let params := AssetsRoute.parseQueryParams [("tags", "t1,,t2"); ("limit", "500")] in
  AssetsRoute.tagIds params = ["t1"; "t2"]
  ∧ AssetsRoute.limit params = Some 100 ∧ AssetsRoute.page params = Some 1.
Proof. by vm_compute. Qed.

Example ilike_samples :
  ilike "Image/PNG" "image/%" = true ∧ ilike "video/mp4" "image/%" = false
  ∧ ilike "Spring_Sale.png" "%sale%" = true.
Proof. by vm_compute. Qed.

Example limit_offset_samples :
  limit_offset (Some 2) (Some 1) [1; 2; 3; 4] = Some [2; 3]
  ∧ limit_offset (Some 2) (Some (-1)) [1; 2; 3; 4] = None
  ∧ limit_offset (Some 2) (Some 9223372036854775808) [1; 2; 3; 4] = None.
Proof. by vm_compute. Qed.

(** In the sample library only [a1] holds both tags. *)
Example assetsWithTags_rows_samples :
  assetsWithTags_rows ["t1"; "t2"] (assetTags Demo.library) = ["a1"]
  ∧ assetsWithTags_rows ["t1"] (assetTags Demo.library) = ["a1"; "a2"].
Proof. by vm_compute. Qed.

Example sanitize_sample : sanitize "my ad (1).png" = "my_ad__1_.png".
Proof. reflexivity. Qed.

Example generateAssetPath_samples :
  generateAssetPath 1700000000000 "0.4fzyo82mvyr" "u1" "my ad.png" None
    = "u1/1700000000000-4fzyo8-my_ad.png"
  ∧ generateAssetPath 1700000000000 "0.4fzyo82mvyr" "u1" "preview-my ad.png"
      (Some "previews")
    = "previews/u1/1700000000000-4fzyo8-preview-my_ad.png".
Proof. by vm_compute. Qed.

(** A token is the prefix [adstash_] and forty characters of the alphabet;
    its hash is the digest in lower-case hexadecimal. *)
Example pat_samples :
  let env := Demo.env_for None "" "" true in
  generatePAT env = "adstash_ABCDEFGHIJKLMNOPQRSTUVWXYZabcdefghijklmn"
  ∧ getPATPrefix (generatePAT env) = "adstash_ABCDEFGH"
  ∧ hashPAT env "ab" = "6162".
Proof. by vm_compute. Qed.

Example bg_match_samples :
  Content.bg_match "linear-gradient(red, blue), url(a.png)" = Some "a.png"
  ∧ Content.bg_match "url('https://x/y.png')" = Some "https://x/y.png"
  ∧ Content.bg_match "none" = None.
Proof. by vm_compute. Qed.

(** On the sample page the banner and the clip are each reported once,
    although the page shows the banner three times and names the clip
    three times. *)
Example getCandidates_sample :
  let found := Content.candidates (Content.getCandidates Demo.page) in
  map Content.url found = [Demo.banner; Demo.clip]
  ∧ map Content.id found = ["img-0-1700000000000"; "video-1-1700000000001"].
Proof. by vm_compute. Qed.


(** ** Running a request: the equations of the monad and of the ORM calls *)
Lemma bind_run {A B} (m : M A) (f : A → M B) w :
  (m ≫= f) w =
  match m w with
  | (Done a, w') => f a w'
  | (Thrown, w') => (Thrown, w')
  end.
Proof. reflexivity. Qed.

Lemma ret_run {A} (a : A) w : mret (M := M) a w = (Done a, w).
Proof. reflexivity. Qed.

(** Closed equations are settled by evaluation. *)
Ltac by_vm :=
  match goal with
  | |- ?x = _ => let v := eval vm_compute in x in exact (eq_refl v <: x = v)
  end.

Ltac run := repeat (rewrite bind_run; cbn [issue emit read write throw db log]).

Lemma selectAssets_run c w :
  forallb asset_sendable c = true →
  selectAssets c w =
  (Done (filter (λ r, all_hold asset_holds c r) (assets (db w))),
   logged w (OnAssets SELECT c)).
Proof. intros H. unfold selectAssets. rewrite H. reflexivity. Qed.

Lemma updateAssets_run set params c w :
  updateAssets set params c w =
  if forallb param_fits params then
    (Done (map set (filter (λ r, all_hold asset_holds c r) (assets (db w)))),
     mkWorld (set_assets (update_rows (all_hold asset_holds c) set (assets (db w))) (db w))
       (log w ++ [Query (OnAssets UPDATE c)]))
  else (Thrown, logged w (OnAssets UPDATE c)).
Proof. unfold updateAssets. run. destruct (forallb _ _); reflexivity. Qed.

Lemma insertAsset_run row w :
  forallb param_fits (asset_params row) = true →
  Asset.id row ∉ map Asset.id (assets (db w)) →
  insertAsset row w =
  (Done row,
   mkWorld (set_assets (assets (db w) ++ [row]) (db w))
     (log w ++ [Query (OnAssets INSERT [])])).
Proof.
  intros Hfits H. unfold insertAsset. run. rewrite Hfits. cbn [negb]. run.
  rewrite bool_decide_eq_false_2 by done. run. reflexivity.
Qed.

Lemma insertAsset_taken row w :
  Asset.id row ∈ map Asset.id (assets (db w)) →
  insertAsset row w = (Thrown, logged w (OnAssets INSERT [])).
Proof.
  intros H. unfold insertAsset. run.
  destruct (forallb _ _); [|reflexivity]. cbn [negb]. run.
  rewrite bool_decide_eq_true_2 by done. reflexivity.
Qed.

Lemma insertAsset_unfit row w :
  forallb param_fits (asset_params row) = false →
  insertAsset row w = (Thrown, logged w (OnAssets INSERT [])).
Proof. intros H. unfold insertAsset. run. by rewrite H. Qed.


(** The one number an upload's row binds is its size. *)
Lemma asset_params_size row :
  Asset.width row = None → Asset.height row = None →
  forallb param_fits (asset_params row) = nullable bigint (Asset.sizeBytes row).
Proof.
  intros Hw Hh. unfold asset_params. cbn [forallb param_fits].
  rewrite Hw, Hh. cbn. by rewrite andb_true_r.
Qed.

Lemma createSignedUploadUrl_run env bucket path w :
  createSignedUploadUrl env bucket path w =
  (match storage_createSignedUploadUrl env bucket path with
   | Some data => Done data
   | None => Thrown
   end, mkWorld (db w) (log w ++ [StorageSignUpload bucket path])).
Proof.
  unfold createSignedUploadUrl. rewrite bind_run. simpl.
  destruct (storage_createSignedUploadUrl env bucket path); reflexivity.
Qed.

(** The two signatures of an upload are asked for together. *)
Lemma Promise_all_sign_run env b1 p1 b2 p2 w :
  Promise_all (createSignedUploadUrl env b1 p1) (createSignedUploadUrl env b2 p2) w =
  (match storage_createSignedUploadUrl env b1 p1,
         storage_createSignedUploadUrl env b2 p2 with
   | Some x, Some y => Done (x, y)
   | _, _ => Thrown
   end,
   mkWorld (db w) (log w ++ [StorageSignUpload b1 p1; StorageSignUpload b2 p2])).
Proof.
  unfold Promise_all. rewrite !createSignedUploadUrl_run. cbn [db log].
  rewrite <- app_assoc. cbn [app].
  destruct (storage_createSignedUploadUrl env b1 p1),
    (storage_createSignedUploadUrl env b2 p2); reflexivity.
Qed.

(** *** The web upload handshake, step by step *)
Lemma InitUpload_POST_run env body user f m w :
  getUser env = Some user →
  InitUpload.filename body = Some f → InitUpload.mimeType body = Some m →
  Js.truthy f = true → Js.truthy m = true →
  nullable bigint (Js.num_or_null (InitUpload.sizeBytes body)) = true →
  newId env ∉ map Asset.id (assets (db w)) →
  let row := InitUpload.values env user f m body in
  let sp := InitUpload.storagePath env user f in
  let pp := InitUpload.previewPath env user f in
  InitUpload.POST env body w =
  (Done match storage_createSignedUploadUrl env ASSETS_BUCKET sp,
              storage_createSignedUploadUrl env PREVIEWS_BUCKET pp with
        | Some a, Some b => ok (B_init (newId env) (Some a) (Some b))
        | _, _ => json (B_error "Failed to initialize upload") 500
        end,
   mkWorld (set_assets (assets (db w) ++ [row]) (db w))
     (log w ++ [Query (OnAssets INSERT []); StorageSignUpload ASSETS_BUCKET sp;
                StorageSignUpload PREVIEWS_BUCKET pp])).
Proof.
  intros Hu Hf Hm Tf Tm Hfits Hfresh row sp pp.
  unfold InitUpload.POST, handler, try_catch.
  rewrite Hu, Hf, Hm, Tf, Tm. cbn [negb andb].
  rewrite bind_run, insertAsset_run by (by rewrite ?asset_params_size).
  rewrite bind_run, Promise_all_sign_run.
  fold sp pp row. cbn [db log]. rewrite <- app_assoc. cbn [app].
  destruct (storage_createSignedUploadUrl env ASSETS_BUCKET sp) as [a|];
    [destruct (storage_createSignedUploadUrl env PREVIEWS_BUCKET pp) as [b|]|];
    reflexivity.
Qed.

Lemma FinalizeUpload_POST_run env body user id w :
  getUser env = Some user →
  Js.or_null (FinalizeUpload.assetId body) = Some id →
  forallb param_fits (FinalizeUpload.params body) = true →
  FinalizeUpload.POST env body w =
  (Done match first (filter (λ r, all_hold asset_holds [A_eq_id id; A_eq_ownerId user] r)
                       (assets (db w))) with
        | Some a => ok (B_asset (FinalizeUpload.finalized env body a))
        | None => json (B_error "Asset not found") 404
        end,
   mkWorld
     (set_assets (update_rows (all_hold asset_holds [A_eq_id id; A_eq_ownerId user])
                    (FinalizeUpload.finalized env body) (assets (db w))) (db w))
     (log w ++ [Query (OnAssets UPDATE [A_eq_id id; A_eq_ownerId user])])).
Proof.
  intros Hu Hid Hfits. unfold FinalizeUpload.POST, handler, try_catch.
  rewrite Hu, Hid, bind_run, updateAssets_run, Hfits.
  destruct (filter _ (assets (db w))) as [|a l]; reflexivity.
Qed.

Lemma FinalizeUpload_POST_unfit env body user id w :
  getUser env = Some user →
  Js.or_null (FinalizeUpload.assetId body) = Some id →
  forallb param_fits (FinalizeUpload.params body) = false →
  FinalizeUpload.POST env body w =
  (Done (json (B_error "Failed to finalize upload") 500),
   logged w (OnAssets UPDATE [A_eq_id id; A_eq_ownerId user])).
Proof.
  intros Hu Hid Hfits. unfold FinalizeUpload.POST, handler, try_catch.
  by rewrite Hu, Hid, bind_run, updateAssets_run, Hfits.
Qed.

(** *** Rows picked by primary key *)
Lemma filter_none {R} (P : R → Prop) `{∀ r, Decision (P r)} (l : list R) :
  (∀ r, r ∈ l → ¬ P r) → filter P l = [].
Proof.
  induction l as [|x l IH]; intros Hl; [done|].
  rewrite filter_cons_False by (apply Hl; left).
  apply IH. intros r Hr. apply Hl. by right.
Qed.

Lemma filter_by_key {R} (key : R → string) (P : R → Prop) `{∀ r, Decision (P r)}
    (l : list R) (a : R) :
  NoDup (map key l) → a ∈ l → P a → (∀ r, P r → key r = key a) →
  filter P l = [a].
Proof.
  intros Hnd Hin Ha Hkey. induction l as [|x l IH]; [inversion Hin|].
  simpl in Hnd. apply NoDup_cons in Hnd as [Hx Hnd].
  apply elem_of_cons in Hin as [<- | Hin].
  - rewrite filter_cons_True by done. f_equal.
    apply filter_none. intros r Hr HP. apply Hx.
    rewrite <- (Hkey r HP). apply list_elem_of_fmap. eauto.
  - rewrite filter_cons_False; [by apply IH|].
    intros HP. apply Hx. rewrite (Hkey x HP). apply list_elem_of_fmap. eauto.
Qed.



Lemma holds_id_owner id user r :
  all_hold asset_holds [A_eq_id id; A_eq_ownerId user] r = true ↔
  Asset.id r = id ∧ Asset.ownerId r = user.
Proof.
  unfold all_hold. simpl. rewrite andb_true_r, andb_true_iff, !bool_decide_eq_true.
  done.
Qed.


Lemma selectTags_run c w :
  selectTags c w =
  (Done (filter (λ r, all_hold tag_holds c r) (tags (db w))),
   logged w (OnTags SELECT c)).
Proof. reflexivity. Qed.

Lemma deleteTags_run c w :
  deleteTags c w =
  (Done (),
   mkWorld (set_tags (delete_rows (all_hold tag_holds c) (tags (db w))) (db w))
     (log w ++ [Query (OnTags DELETE c)])).
Proof. reflexivity. Qed.

Lemma deleteAssetTags_run c w :
  deleteAssetTags c w =
  (Done (),
   mkWorld (set_assetTags (delete_rows (all_hold link_holds c) (assetTags (db w))) (db w))
     (log w ++ [Query (OnAssetTags DELETE c)])).
Proof. reflexivity. Qed.

Lemma deleteAssets_run c w :
  deleteAssets c w =
  (Done (),
   mkWorld
     (set_assetTags
        (delete_rows
           (λ l, bool_decide (AssetTag.assetId l ∈
              map Asset.id (filter (λ r, all_hold asset_holds c r) (assets (db w)))))
           (assetTags (db w)))
        (set_assets (delete_rows (all_hold asset_holds c) (assets (db w))) (db w)))
     (log w ++ [Query (OnAssets DELETE c)])).
Proof. reflexivity. Qed.

Lemma selectTokens_run c w :
  selectTokens c w =
  (Done (filter (λ r, all_hold token_holds c r) (personalAccessTokens (db w))),
   logged w (OnTokens SELECT c)).
Proof. reflexivity. Qed.

Lemma updateTokens_run set c w :
  updateTokens set c w =
  (Done (),
   mkWorld
     (set_tokens (update_rows (all_hold token_holds c) set
                    (personalAccessTokens (db w))) (db w))
     (log w ++ [Query (OnTokens UPDATE c)])).
Proof. reflexivity. Qed.

Lemma deleteTokens_run c w :
  deleteTokens c w =
  (Done (),
   mkWorld
     (set_tokens (delete_rows (all_hold token_holds c)
                    (personalAccessTokens (db w))) (db w))
     (log w ++ [Query (OnTokens DELETE c)])).
Proof. reflexivity. Qed.

Lemma selectAssetTagsJoinTags_run c w :
  selectAssetTagsJoinTags c w =
  (Done (join_tags (filter (λ l, all_hold link_holds c l) (assetTags (db w)))
           (tags (db w))),
   logged w (OnAssetTagsJoinTags c)).
Proof. reflexivity. Qed.

Lemma insertAssetTags_run rows w :
  insertAssetTags rows w =
  if forallb (λ l, bool_decide (AssetTag.assetId l ∈ map Asset.id (assets (db w)))) rows
  then (Done (),
        mkWorld (set_assetTags (assetTags (db w) ++ rows) (db w))
          (log w ++ [Query (OnAssetTags INSERT [])]))
  else (Thrown, logged w (OnAssetTags INSERT [])).
Proof.
  unfold insertAssetTags. run. destruct (forallb _ rows); reflexivity.
Qed.

Lemma deleteFile_quietly_run env bucket path w :
  AssetRoute.deleteFile_quietly env bucket path w =
  (Done (), mkWorld (db w) (log w ++ [StorageRemove bucket path])).
Proof.
  unfold AssetRoute.deleteFile_quietly, try_catch, deleteFile. run.
  destruct (storage_remove env bucket path); reflexivity.
Qed.

Lemma signed_or_null_run env bucket path w :
  AssetRoute.signed_or_null env bucket path w =
  (Done (storage_createSignedUrl env bucket path),
   mkWorld (db w) (log w ++ [StorageSignDownload bucket path])).
Proof.
  unfold AssetRoute.signed_or_null, try_catch, createSignedDownloadUrl. run.
  destruct (storage_createSignedUrl env bucket path); reflexivity.
Qed.

(** *** The three copies of [verifyPAT] *)
Lemma bearer_row_bearer env header d :
  Js.startsWith header "Bearer " = true →
  bearer_row env (Some header) d =
  first (filter (λ r, all_hold token_holds
                        [K_eq_tokenHash (bearer_hash env header); K_isNull_revokedAt] r)
           (personalAccessTokens d)).
Proof. intros H. unfold bearer_row. by rewrite H. Qed.

Lemma ExtensionVerify_verifyPAT_run env h w :
  ExtensionVerify.verifyPAT env h w =
  match h with
  | Some header =>
      if Js.startsWith header "Bearer " then
        (Done (Token.ownerId <$> bearer_row env h (db w)),
         logged w (lookup env header))
      else (Done None, w)
  | None => (Done None, w)
  end.
Proof.
  unfold ExtensionVerify.verifyPAT. destruct h as [header|]; [|reflexivity].
  destruct (Js.startsWith header "Bearer ") eqn:Hb; [|reflexivity].
  cbn [negb]. rewrite bearer_row_bearer by done.
  rewrite bind_run, selectTokens_run. fold (bearer_hash env header).
  destruct (first _); reflexivity.
Qed.

Lemma ExtensionFinalize_verifyPAT_run env h w :
  ExtensionFinalize.verifyPAT env h w = ExtensionVerify.verifyPAT env h w.
Proof. reflexivity. Qed.

Lemma ExtensionInit_verifyPAT_run env h w :
  ExtensionInit.verifyPAT env h w =
  match h with
  | Some header =>
      if Js.startsWith header "Bearer " then
        match bearer_row env h (db w) with
        | Some pat =>
            (Done (Some (Token.ownerId pat)),
             mkWorld
               (set_tokens
                  (update_rows (all_hold token_holds [K_eq_id (Token.id pat)])
                     (ExtensionInit.set_lastUsedAt (dateNow env 0))
                     (personalAccessTokens (db w))) (db w))
               (log w ++ [Query (lookup env header);
                          Query (OnTokens UPDATE [K_eq_id (Token.id pat)])]))
        | None => (Done None, logged w (lookup env header))
        end
      else (Done None, w)
  | None => (Done None, w)
  end.
Proof.
  unfold ExtensionInit.verifyPAT. destruct h as [header|]; [|reflexivity].
  destruct (Js.startsWith header "Bearer ") eqn:Hb; [|reflexivity].
  cbn [negb]. rewrite bearer_row_bearer by done.
  rewrite bind_run, selectTokens_run. fold (bearer_hash env header).
  destruct (first _) as [pat|]; [|reflexivity].
  rewrite bind_run, updateTokens_run. unfold logged. cbn [db log].
  rewrite <- app_assoc. reflexivity.
Qed.

Lemma insertTag_run row w :
  insertTag row w =
  if bool_decide (Tag.id row ∈ map Tag.id (tags (db w))) || key_clash row (tags (db w))
  then (Thrown, logged w (OnTags INSERT []))
  else (Done row,
        mkWorld (set_tags (tags (db w) ++ [row]) (db w))
          (log w ++ [Query (OnTags INSERT [])])).
Proof. unfold insertTag. run. destruct (_ || _); reflexivity. Qed.

Lemma updateTags_run set c w :
  updateTags set c w =
  let hit := filter (λ r, all_hold tag_holds c r) (tags (db w)) in
  if existsb (λ r, key_clash (set r) (delete_rows (all_hold tag_holds c) (tags (db w)))) hit
     || negb (bool_decide (NoDup (map (λ r, tag_key (set r)) hit)))
  then (Thrown, logged w (OnTags UPDATE c))
  else (Done (map set hit),
        mkWorld (set_tags (update_rows (all_hold tag_holds c) set (tags (db w))) (db w))
          (log w ++ [Query (OnTags UPDATE c)])).
Proof. unfold updateTags. run. destruct (_ || _); reflexivity. Qed.

Lemma insertToken_run row w :
  insertToken row w =
  if bool_decide (Token.id row ∈ map Token.id (personalAccessTokens (db w)))
  then (Thrown, logged w (OnTokens INSERT []))
  else (Done row,
        mkWorld (set_tokens (personalAccessTokens (db w) ++ [row]) (db w))
          (log w ++ [Query (OnTokens INSERT [])])).
Proof. unfold insertToken. run. destruct (bool_decide _); reflexivity. Qed.

Lemma insertAsset_run_total row w :
  insertAsset row w =
  if negb (forallb param_fits (asset_params row))
     || bool_decide (Asset.id row ∈ map Asset.id (assets (db w)))
  then (Thrown, logged w (OnAssets INSERT []))
  else (Done row,
        mkWorld (set_assets (assets (db w) ++ [row]) (db w))
          (log w ++ [Query (OnAssets INSERT [])])).
Proof.
  unfold insertAsset. run. destruct (forallb _ _); [|reflexivity].
  cbn [negb orb]. run. destruct (bool_decide _); reflexivity.
Qed.

(** ** The handlers in closed form *)

Ltac tidy_log := unfold logged; cbn [db log]; rewrite <- ?app_assoc; cbn [app].

Lemma first_map {A B} (f : A → B) (l : list A) : first (map f l) = f <$> first l.
Proof. by destruct l. Qed.

Lemma AssetRoute_DELETE_run env id user w :
  getUser env = Some user →
  let c := [A_eq_id id; A_eq_ownerId user] in
  AssetRoute.DELETE env id w =
  match first (filter (λ r, all_hold asset_holds c r) (assets (db w))) with
  | None =>
      (Done (json (B_error "Asset not found") 404), logged w (OnAssets SELECT c))
  | Some asset =>
      let d1 :=
        set_assetTags
          (delete_rows (all_hold link_holds [L_eq_assetId id]) (assetTags (db w)))
          (db w) in
      (Done (ok B_success),
       mkWorld
         (set_assetTags
            (delete_rows
               (λ l, bool_decide (AssetTag.assetId l ∈
                  map Asset.id
                    (filter (λ r, all_hold asset_holds [A_eq_id id] r) (assets d1))))
               (assetTags d1))
            (set_assets (delete_rows (all_hold asset_holds [A_eq_id id]) (assets d1)) d1))
         (log w ++
          [Query (OnAssets SELECT c);
           StorageRemove (Asset.storageBucket asset) (Asset.storagePath asset)]
          ++ match AssetRoute.preview_of asset with
             | Some (bucket, path) => [StorageRemove bucket path]
             | None => []
             end
          ++ [Query (OnAssetTags DELETE [L_eq_assetId id]);
              Query (OnAssets DELETE [A_eq_id id])]))
  end.
Proof.
  intros Hu c. unfold AssetRoute.DELETE, handler, try_catch.
  rewrite Hu, bind_run, selectAssets_run by done. fold c.
  cbn [db logged].
  destruct (first _) as [asset|]; [|reflexivity].
  rewrite bind_run, deleteFile_quietly_run, bind_run.
  destruct (AssetRoute.preview_of asset) as [[bucket path]|].
  - rewrite deleteFile_quietly_run, bind_run, deleteAssetTags_run, bind_run,
      deleteAssets_run, ret_run.
    tidy_log. reflexivity.
  - rewrite ret_run, bind_run, deleteAssetTags_run, bind_run,
      deleteAssets_run, ret_run.
    tidy_log. reflexivity.
Qed.

Lemma AssetRoute_GET_run env id user w :
  getUser env = Some user →
  let c := [A_eq_id id; A_eq_ownerId user] in
  AssetRoute.GET env id w =
  match first (filter (λ r, all_hold asset_holds c r) (assets (db w))) with
  | None =>
      (Done (json (B_error "Asset not found") 404), logged w (OnAssets SELECT c))
  | Some asset =>
      (Done (ok (B_asset_detail
         (mkAssetDetail asset
            (storage_createSignedUrl env (Asset.storageBucket asset)
               (Asset.storagePath asset))
            match AssetRoute.preview_of asset with
            | Some (bucket, path) => storage_createSignedUrl env bucket path
            | None => None
            end
            (map snd (join_tags
               (filter (λ l, all_hold link_holds [L_eq_assetId id] l)
                  (assetTags (db w)))
               (tags (db w))))))),
       mkWorld (db w)
         (log w ++
          [Query (OnAssets SELECT c); Query (OnAssetTagsJoinTags [L_eq_assetId id]);
           StorageSignDownload (Asset.storageBucket asset) (Asset.storagePath asset)]
          ++ match AssetRoute.preview_of asset with
             | Some (bucket, path) => [StorageSignDownload bucket path]
             | None => []
             end))
  end.
Proof.
  intros Hu c. unfold AssetRoute.GET, handler, try_catch.
  rewrite Hu, bind_run, selectAssets_run by done. fold c.
  cbn [db logged].
  destruct (first _) as [asset|]; [|reflexivity].
  rewrite bind_run, selectAssetTagsJoinTags_run, bind_run, signed_or_null_run,
    bind_run.
  destruct (AssetRoute.preview_of asset) as [[bucket path]|].
  - rewrite signed_or_null_run, ret_run. tidy_log. reflexivity.
  - rewrite !ret_run. tidy_log. reflexivity.
Qed.

Lemma AssetRoute_PATCH_run env id body user w :
  getUser env = Some user →
  let c := [A_eq_id id; A_eq_ownerId user] in
  let d1 :=
    set_assets (update_rows (all_hold asset_holds c)
                  (AssetRoute.updateData env body) (assets (db w))) (db w) in
  let d2 :=
    set_assetTags
      (delete_rows (all_hold link_holds [L_eq_assetId id]) (assetTags d1)) d1 in
  AssetRoute.PATCH env id body w =
  match first (filter (λ r, all_hold asset_holds c r) (assets (db w))) with
  | None =>
      (Done (json (B_error "Asset not found") 404),
       mkWorld d1 (log w ++ [Query (OnAssets UPDATE c)]))
  | Some asset =>
      let updated := ok (B_asset (AssetRoute.updateData env body asset)) in
      match AssetRoute.tagIds body with
      | None => (Done updated, mkWorld d1 (log w ++ [Query (OnAssets UPDATE c)]))
      | Some tagIds =>
          let rows := map (λ tagId, AssetTag.mk id tagId) tagIds in
          if bool_decide (0 < length tagIds)%nat then
            if forallb
                 (λ l, bool_decide (AssetTag.assetId l ∈ map Asset.id (assets d2)))
                 rows
            then
              (Done updated,
               mkWorld (set_assetTags (assetTags d2 ++ rows) d2)
                 (log w ++ [Query (OnAssets UPDATE c);
                            Query (OnAssetTags DELETE [L_eq_assetId id]);
                            Query (OnAssetTags INSERT [])]))
            else
              (Done (json (B_error "Failed to update asset") 500),
               mkWorld d2
                 (log w ++ [Query (OnAssets UPDATE c);
                            Query (OnAssetTags DELETE [L_eq_assetId id]);
                            Query (OnAssetTags INSERT [])]))
          else
            (Done updated,
             mkWorld d2
               (log w ++ [Query (OnAssets UPDATE c);
                          Query (OnAssetTags DELETE [L_eq_assetId id])]))
      end
  end.
Proof.
  intros Hu c d1 d2. unfold AssetRoute.PATCH, handler, try_catch.
  rewrite Hu, bind_run, updateAssets_run. cbn [forallb]. fold c.
  rewrite first_map.
  destruct (first _) as [asset|]; [|reflexivity]. cbn [fmap option_fmap option_map].
  destruct (AssetRoute.tagIds body) as [tagIds|]; [|reflexivity].
  rewrite bind_run, deleteAssetTags_run. cbn [db log]. fold d1. fold d2.
  rewrite bind_run.
  destruct (bool_decide (0 < length tagIds)%nat).
  - rewrite insertAssetTags_run. cbn [db log].
    destruct (forallb _ _); rewrite ?ret_run; tidy_log; reflexivity.
  - rewrite !ret_run. tidy_log. reflexivity.
Qed.

Lemma InitUpload_POST_total env body user w :
  getUser env = Some user →
  InitUpload.POST env body w =
  match InitUpload.filename body, InitUpload.mimeType body with
  | Some f, Some m =>
      if negb (Js.truthy f && Js.truthy m) then
        (Done (json (B_error "Missing required fields: filename, mimeType") 400), w)
      else if negb (nullable bigint (Js.num_or_null (InitUpload.sizeBytes body)))
              || bool_decide (newId env ∈ map Asset.id (assets (db w))) then
        (Done (json (B_error "Failed to initialize upload") 500),
         logged w (OnAssets INSERT []))
      else
        let sp := InitUpload.storagePath env user f in
        let pp := InitUpload.previewPath env user f in
        (Done match storage_createSignedUploadUrl env ASSETS_BUCKET sp,
                    storage_createSignedUploadUrl env PREVIEWS_BUCKET pp with
              | Some a, Some b => ok (B_init (newId env) (Some a) (Some b))
              | _, _ => json (B_error "Failed to initialize upload") 500
              end,
         mkWorld (set_assets (assets (db w) ++ [InitUpload.values env user f m body]) (db w))
           (log w ++ [Query (OnAssets INSERT []); StorageSignUpload ASSETS_BUCKET sp;
                      StorageSignUpload PREVIEWS_BUCKET pp]))
  | _, _ =>
      (Done (json (B_error "Missing required fields: filename, mimeType") 400), w)
  end.
Proof.
  intros Hu.
  destruct (InitUpload.filename body) as [f|] eqn:Hf.
  2:{ unfold InitUpload.POST, handler, try_catch. by rewrite Hu, Hf. }
  destruct (InitUpload.mimeType body) as [m|] eqn:Hm.
  2:{ unfold InitUpload.POST, handler, try_catch. by rewrite Hu, Hf, Hm. }
  destruct (Js.truthy f) eqn:Tf.
  2:{ unfold InitUpload.POST, handler, try_catch. by rewrite Hu, Hf, Hm, Tf. }
  destruct (Js.truthy m) eqn:Tm.
  2:{ unfold InitUpload.POST, handler, try_catch. by rewrite Hu, Hf, Hm, Tf, Tm. }
  cbn [negb andb].
  destruct (nullable bigint _) eqn:Hfits.
  2:{ unfold InitUpload.POST, handler, try_catch.
      rewrite Hu, Hf, Hm, Tf, Tm. cbn [negb andb orb].
      by rewrite bind_run, insertAsset_unfit by (by rewrite asset_params_size). }
  cbn [negb orb].
  destruct (bool_decide _) eqn:Htaken.
  - apply bool_decide_eq_true in Htaken.
    unfold InitUpload.POST, handler, try_catch.
    rewrite Hu, Hf, Hm, Tf, Tm. cbn [negb andb].
    by rewrite bind_run, insertAsset_taken.
  - apply bool_decide_eq_false in Htaken.
    by rewrite (InitUpload_POST_run env body user f m).
Qed.

Lemma TagsRoute_GET_run env user w :
  getUser env = Some user →
  TagsRoute.GET env w =
  (Done (ok (B_tags (orderBy_asc_name
     (filter (λ r, all_hold tag_holds [T_eq_ownerId user] r) (tags (db w)))))),
   logged w (OnTags SELECT [T_eq_ownerId user])).
Proof.
  intros Hu. unfold TagsRoute.GET, handler, try_catch.
  by rewrite Hu, bind_run, selectTags_run.
Qed.

(** The row [POST /api/tags] inserts. *)
Lemma TagsRoute_POST_run env body user w :
  getUser env = Some user →
  TagsRoute.POST env body w =
  match Js.or_null (TagsRoute.name body) with
  | None => (Done (json (B_error "Name is required") 400), w)
  | Some name =>
      let row :=
        Tag.mk (newId env) user (Js.trim name)
          (Js.or_default (TagsRoute.color body) "#6b7280") (dbNow env) in
      if bool_decide (Tag.id row ∈ map Tag.id (tags (db w)))
         || key_clash row (tags (db w))
      then (Done (json (B_error "Failed to create tag") 500),
            logged w (OnTags INSERT []))
      else (Done (ok (B_tag row)),
            mkWorld (set_tags (tags (db w) ++ [row]) (db w))
              (log w ++ [Query (OnTags INSERT [])]))
  end.
Proof.
  intros Hu. unfold TagsRoute.POST, handler, try_catch. rewrite Hu.
  destruct (Js.or_null _) as [name|]; [|reflexivity].
  rewrite bind_run, insertTag_run. cbn [Tag.id].
  destruct (_ || _); reflexivity.
Qed.

Lemma TagRoute_PATCH_run env id body user w :
  getUser env = Some user →
  let c := [T_eq_id id; T_eq_ownerId user] in
  let set := TagRoute.apply_all (TagRoute.updateData body) in
  let hit := filter (λ r, all_hold tag_holds c r) (tags (db w)) in
  TagRoute.PATCH env id body w =
  if bool_decide (length (TagRoute.updateData body) = 0%nat) then
    (Done (json (B_error "No fields to update") 400), w)
  else if existsb (λ r, key_clash (set r)
                          (delete_rows (all_hold tag_holds c) (tags (db w)))) hit
          || negb (bool_decide (NoDup (map (λ r, tag_key (set r)) hit)))
  then (Done (json (B_error "Failed to update tag") 500),
        logged w (OnTags UPDATE c))
  else
    (Done match first hit with
          | Some t => ok (B_tag (set t))
          | None => json (B_error "Tag not found") 404
          end,
     mkWorld (set_tags (update_rows (all_hold tag_holds c) set (tags (db w))) (db w))
       (log w ++ [Query (OnTags UPDATE c)])).
Proof.
  intros Hu c set hit. unfold TagRoute.PATCH, handler, try_catch. rewrite Hu.
  destruct (bool_decide (length _ = 0%nat)); [reflexivity|].
  rewrite bind_run, updateTags_run. cbn zeta. fold c set hit.
  destruct (_ || _); [reflexivity|]. rewrite first_map.
  destruct (first hit); reflexivity.
Qed.

Lemma TagRoute_DELETE_run env id user w :
  getUser env = Some user →
  let c := [T_eq_id id; T_eq_ownerId user] in
  TagRoute.DELETE env id w =
  match first (filter (λ r, all_hold tag_holds c r) (tags (db w))) with
  | None =>
      (Done (json (B_error "Tag not found") 404), logged w (OnTags SELECT c))
  | Some tag =>
      (Done (ok B_success),
       mkWorld
         (set_tags (delete_rows (all_hold tag_holds [T_eq_id id]) (tags (db w)))
            (set_assetTags
               (delete_rows (all_hold link_holds [L_eq_tagId id]) (assetTags (db w)))
               (db w)))
         (log w ++ [Query (OnTags SELECT c);
                    Query (OnAssetTags DELETE [L_eq_tagId id]);
                    Query (OnTags DELETE [T_eq_id id])]))
  end.
Proof.
  intros Hu c. unfold TagRoute.DELETE, handler, try_catch.
  rewrite Hu, bind_run, selectTags_run. fold c.
  destruct (first _) as [tag|]; [|reflexivity].
  rewrite bind_run, deleteAssetTags_run, bind_run, deleteTags_run, ret_run.
  tidy_log. reflexivity.
Qed.

Lemma TokensRoute_GET_run env user w :
  getUser env = Some user →
  TokensRoute.GET env w =
  (Done (ok (B_tokens (filter (λ _, True)
     (map TokensRoute.info (orderBy_desc_token_createdAt
        (filter (λ r, all_hold token_holds [K_eq_ownerId user] r)
           (personalAccessTokens (db w)))))))),
   logged w (OnTokens SELECT [K_eq_ownerId user])).
Proof.
  intros Hu. unfold TokensRoute.GET, handler, try_catch.
  by rewrite Hu, bind_run, selectTokens_run.
Qed.

Lemma TokensRoute_POST_run env name user w :
  getUser env = Some user →
  TokensRoute.POST env name w =
  match Js.or_null name with
  | None => (Done (json (B_error "Name is required") 400), w)
  | Some name =>
      let token := generatePAT env in
      let row :=
        Token.mk (newId env) user (Js.trim name) (hashPAT env token)
          (getPATPrefix token) (dbNow env) None None None in
      if bool_decide (Token.id row ∈ map Token.id (personalAccessTokens (db w)))
      then (Done (json (B_error "Failed to create token") 500),
            logged w (OnTokens INSERT []))
      else (Done (ok (B_token_created token (TokensRoute.info row))),
            mkWorld (set_tokens (personalAccessTokens (db w) ++ [row]) (db w))
              (log w ++ [Query (OnTokens INSERT [])]))
  end.
Proof.
  intros Hu. unfold TokensRoute.POST, handler, try_catch. rewrite Hu.
  destruct (Js.or_null _) as [nm|]; [|reflexivity].
  rewrite bind_run, insertToken_run. cbn [Token.id].
  destruct (bool_decide _); reflexivity.
Qed.

Lemma TokenRoute_DELETE_run env id user w :
  getUser env = Some user →
  TokenRoute.DELETE env id w =
  (Done (ok B_success),
   mkWorld
     (set_tokens
        (delete_rows (all_hold token_holds [K_eq_id id; K_eq_ownerId user])
           (personalAccessTokens (db w))) (db w))
     (log w ++ [Query (OnTokens DELETE [K_eq_id id; K_eq_ownerId user])])).
Proof.
  intros Hu. unfold TokenRoute.DELETE, handler, try_catch.
  by rewrite Hu, bind_run, deleteTokens_run.
Qed.

(** *** The extension's routes *)
Lemma verifyPAT_run env h w :
  ExtensionVerify.verifyPAT env h w =
  (Done (Token.ownerId <$> bearer_row env h (db w)), looked_up env h w).
Proof.
  rewrite ExtensionVerify_verifyPAT_run. unfold looked_up, bearer_row.
  destruct h as [header|]; [|reflexivity].
  destruct (Js.startsWith header "Bearer "); reflexivity.
Qed.

Lemma verifyPAT_stamped_run env h w :
  ExtensionInit.verifyPAT env h w =
  (Done (Token.ownerId <$> bearer_row env h (db w)), looked_up_stamped env h w).
Proof.
  rewrite ExtensionInit_verifyPAT_run. unfold looked_up_stamped, looked_up.
  destruct h as [header|]; [|reflexivity].
  destruct (Js.startsWith header "Bearer ") eqn:Hb.
  - destruct (bearer_row env (Some header) (db w)); [|reflexivity].
    unfold logged. cbn [log fmap option_fmap option_map].
    by rewrite <- app_assoc.
  - unfold bearer_row. rewrite Hb. reflexivity.
Qed.

Lemma ExtensionVerify_GET_run env h w :
  ExtensionVerify.GET env h w =
  (Done match principal env (ExtVerify h) (db w) with
        | Some ownerId => ok (B_valid ownerId)
        | None => Unauthorized
        end,
   looked_up env h w).
Proof.
  unfold ExtensionVerify.GET, handler, try_catch, principal.
  rewrite bind_run, verifyPAT_run.
  destruct (Js.or_null _); reflexivity.
Qed.

Lemma ExtensionFinalize_POST_run env h body w :
  ExtensionFinalize.POST env h body w =
  let w1 := looked_up env h w in
  match principal env (ExtFinalize h body) (db w) with
  | None => (Done Unauthorized, w1)
  | Some ownerId =>
      match Js.or_null (ExtensionFinalize.assetId body) with
      | None => (Done (json (B_error "Missing assetId") 400), w1)
      | Some id =>
          let c := [A_eq_id id; A_eq_ownerId ownerId] in
          let d1 :=
            set_assets (update_rows (all_hold asset_holds c)
                          (ExtensionFinalize.finalized env body) (assets (db w)))
              (db w) in
          if negb (forallb param_fits (ExtensionFinalize.params body)) then
            (Done (json (B_error "Failed to finalize upload") 500),
             logged w1 (OnAssets UPDATE c))
          else
          match first (filter (λ r, all_hold asset_holds c r) (assets (db w))) with
          | None =>
              (Done (json (B_error "Asset not found") 404),
               mkWorld d1 (log w1 ++ [Query (OnAssets UPDATE c)]))
          | Some asset =>
              let updated :=
                ok (B_asset (ExtensionFinalize.finalized env body asset)) in
              match ExtensionFinalize.tagIds body with
              | None =>
                  (Done updated, mkWorld d1 (log w1 ++ [Query (OnAssets UPDATE c)]))
              | Some tagIds =>
                  let rows := map (λ tagId, AssetTag.mk id tagId) tagIds in
                  if bool_decide (0 < length tagIds)%nat then
                    if forallb
                         (λ l, bool_decide
                                 (AssetTag.assetId l ∈ map Asset.id (assets d1)))
                         rows
                    then
                      (Done updated,
                       mkWorld (set_assetTags (assetTags d1 ++ rows) d1)
                         (log w1 ++ [Query (OnAssets UPDATE c);
                                     Query (OnAssetTags INSERT [])]))
                    else
                      (Done (json (B_error "Failed to finalize upload") 500),
                       mkWorld d1
                         (log w1 ++ [Query (OnAssets UPDATE c);
                                     Query (OnAssetTags INSERT [])]))
                  else
                    (Done updated,
                     mkWorld d1 (log w1 ++ [Query (OnAssets UPDATE c)]))
              end
          end
      end
  end.
Proof.
  unfold ExtensionFinalize.POST, handler, try_catch, principal. cbn zeta.
  rewrite bind_run, ExtensionFinalize_verifyPAT_run, verifyPAT_run.
  assert (db (looked_up env h w) = db w) as Hdb.
  { unfold looked_up. destruct h as [header|]; [|done].
    by destruct (Js.startsWith header "Bearer "). }
  destruct (Js.or_null (Token.ownerId <$> _)) as [ownerId|]; [|reflexivity].
  destruct (Js.or_null (ExtensionFinalize.assetId body)) as [id|]; [|reflexivity].
  rewrite bind_run, updateAssets_run.
  destruct (forallb _ _); [|reflexivity]. cbn [negb].
  rewrite first_map. rewrite !Hdb.
  destruct (first _) as [asset|]; [|reflexivity].
  cbn [fmap option_fmap option_map].
  destruct (ExtensionFinalize.tagIds body) as [tagIds|]; [|reflexivity].
  rewrite bind_run.
  destruct (bool_decide (0 < length tagIds)%nat).
  - rewrite insertAssetTags_run. cbn [db log].
    destruct (forallb _ _); rewrite ?ret_run; tidy_log; reflexivity.
  - rewrite !ret_run. tidy_log. reflexivity.
Qed.

Lemma looked_up_db env h w : db (looked_up env h w) = db w.
Proof.
  unfold looked_up. destruct h as [header|]; [|done].
  by destruct (Js.startsWith header "Bearer ").
Qed.

Lemma looked_up_stamped_assets env h w :
  assets (db (looked_up_stamped env h w)) = assets (db w).
Proof.
  unfold looked_up_stamped.
  destruct (bearer_row env h (db w)); [done | by rewrite looked_up_db].
Qed.

Lemma ExtensionInit_POST_run env h body w :
  ExtensionInit.POST env h body w =
  let w1 := looked_up_stamped env h w in
  match principal env (ExtInit h body) (db w) with
  | None => (Done Unauthorized, w1)
  | Some ownerId =>
      match ExtensionInit.filename body, ExtensionInit.mimeType body with
      | Some f, Some m =>
          if negb (Js.truthy f && Js.truthy m) then
            (Done (json (B_error "Missing required fields: filename, mimeType") 400), w1)
          else if negb (nullable bigint (Js.num_or_null (ExtensionInit.sizeBytes body)))
                  || bool_decide (newId env ∈ map Asset.id (assets (db w))) then
            (Done (json (B_error "Failed to initialize upload") 500),
             logged w1 (OnAssets INSERT []))
          else
            let sp := ExtensionInit.storagePath env ownerId f in
            let pp := ExtensionInit.previewPath env ownerId f in
            let d2 :=
              set_assets
                (assets (db w1) ++ [ExtensionInit.values env ownerId f m body])
                (db w1) in
            if ExtensionInit.hasBlob body then
              if adminConfigured env then
                (Done match storage_createSignedUploadUrl env ASSETS_BUCKET sp,
                            storage_createSignedUploadUrl env PREVIEWS_BUCKET pp with
                      | Some a, Some b => ok (B_init (newId env) (Some a) (Some b))
                      | _, _ => json (B_error "Failed to initialize upload") 500
                      end,
                 mkWorld d2
                   (log w1 ++ [Query (OnAssets INSERT []);
                               StorageSignUpload ASSETS_BUCKET sp;
                               StorageSignUpload PREVIEWS_BUCKET pp]))
              else
                (Done (json (B_error "Failed to initialize upload") 500),
                 mkWorld d2 (log w1 ++ [Query (OnAssets INSERT [])]))
            else
              (Done (ok (B_init (newId env) None None)),
               mkWorld d2 (log w1 ++ [Query (OnAssets INSERT [])]))
      | _, _ =>
          (Done (json (B_error "Missing required fields: filename, mimeType") 400), w1)
      end
  end.
Proof.
  unfold ExtensionInit.POST, handler, try_catch, principal. cbn zeta.
  rewrite bind_run, verifyPAT_stamped_run.
  destruct (Js.or_null (Token.ownerId <$> _)) as [ownerId|]; [|reflexivity].
  destruct (ExtensionInit.filename body) as [f|]; [|reflexivity].
  destruct (ExtensionInit.mimeType body) as [m|]; [|reflexivity].
  destruct (negb _); [reflexivity|].
  rewrite bind_run, insertAsset_run_total, looked_up_stamped_assets.
  rewrite asset_params_size by done.
  cbn [Asset.id Asset.sizeBytes ExtensionInit.values].
  destruct (_ || _); [reflexivity|].
  destruct (ExtensionInit.hasBlob body); [|reflexivity].
  rewrite bind_run. unfold ExtensionInit.getAdminSupabase.
  destruct (adminConfigured env); [|reflexivity].
  rewrite ret_run, bind_run, Promise_all_sign_run. cbn [db log].
  rewrite <- app_assoc. cbn [app].
  destruct (storage_createSignedUploadUrl env ASSETS_BUCKET _);
    [destruct (storage_createSignedUploadUrl env PREVIEWS_BUCKET _)|];
    reflexivity.
Qed.

(** *** The listing *)
Lemma free_storage A e :
  match e with Query _ => False | _ => True end → free A e.
Proof. by destruct e. Qed.

Lemma addPreviewUrls_run env rows tagsByAsset w :
  ∃ items evs,
    AssetsRoute.addPreviewUrls env rows tagsByAsset w
      = (Done items, mkWorld (db w) (log w ++ evs))
    ∧ map lp_asset items = rows
    ∧ (∀ A, Forall (free A) evs).
Proof.
  unfold AssetsRoute.addPreviewUrls. revert w.
  induction rows as [|asset rows IH]; intros w.
  - exists [], []. cbn [mapM]. rewrite ret_run, app_nil_r. by destruct w.
  - cbn [mapM]. rewrite !bind_run.
    set (sign := try_catch _ _).
    assert (∃ u evs, sign w = (Done u, mkWorld (db w) (log w ++ evs))
                     ∧ ∀ A, Forall (free A) evs) as (u & evs1 & Hsign & Hfree1).
    { unfold sign, try_catch, createSignedDownloadUrl.
      destruct (Asset.previewBucket asset) as [bucket|];
        [destruct (Asset.previewPath asset) as [path|]|].
      2,3: exists None, []; rewrite ret_run, app_nil_r; by destruct w.
      destruct (Js.truthy bucket && Js.truthy path).
      2: exists None, []; rewrite ret_run, app_nil_r; by destruct w.
      run. destruct (storage_createSignedUrl env bucket path) as [url|].
      - exists (Some url), [StorageSignDownload bucket path]. split; [done|].
        intros A. by repeat constructor.
      - exists None, [StorageSignDownload bucket path]. split; [done|].
        intros A. by repeat constructor. }
    rewrite Hsign, ret_run, bind_run.
    destruct (IH (mkWorld (db w) (log w ++ evs1))) as (items & evs2 & Hrest & Hmap & Hfree2).
    rewrite Hrest, ret_run. cbn [db log].
    eexists (_ :: items), (evs1 ++ evs2). rewrite app_assoc.
    split; [reflexivity|]. split; [cbn; by rewrite Hmap|].
    intros A. apply Forall_app. split; auto.
Qed.

Lemma limit_offset_elem {R} limit offset (l page : list R) x :
  limit_offset limit offset l = Some page → x ∈ page → x ∈ l.
Proof.
  unfold limit_offset. intros H Hx.
  assert (∃ l', page ⊆ l' ∧ l' ⊆ l) as (l' & H1 & H2).
  { destruct offset as [k|].
    - destruct (bool_decide (k < 0 ∨ _)); [by destruct limit|].
      exists (drop (Z.to_nat k) l). split; [|apply subseteq_drop].
      destruct limit as [n|]; inversion H; subst; [|done].
      destruct (bool_decide (0 ≤ n)); [apply subseteq_take | done].
    - exists l. split; [|done].
      destruct limit as [n|]; inversion H; subst; [|done].
      destruct (bool_decide (0 ≤ n)); [apply subseteq_take | done]. }
  apply H2, H1, Hx.
Qed.

Lemma selectAssetsPage_run c limit offset w :
  selectAssetsPage c limit offset w =
  if forallb asset_sendable c then
    match limit_offset limit offset
            (orderBy_desc_createdAt
               (filter (λ r, all_hold asset_holds c r) (assets (db w)))) with
    | Some page => (Done page, logged w (OnAssets SELECT c))
    | None => (Thrown, logged w (OnAssets SELECT c))
    end
  else (Thrown, w).
Proof.
  unfold selectAssetsPage. rewrite bind_run. unfold selectAssets.
  destruct (forallb asset_sendable c); [|reflexivity].
  run. destruct (limit_offset _ _ _); reflexivity.
Qed.

Lemma selectAssetsPage_elem c limit offset w page w' a :
  selectAssetsPage c limit offset w = (Done page, w') → a ∈ page →
  a ∈ assets (db w) ∧ all_hold asset_holds c a = true.
Proof.
  rewrite selectAssetsPage_run. destruct (forallb asset_sendable c); [|done].
  destruct (limit_offset _ _ _) as [pg|] eqn:Hpg; [|done].
  intros [= -> _] Ha. eapply limit_offset_elem in Ha; [|done].
  unfold orderBy_desc_createdAt in Ha. rewrite merge_sort_Permutation in Ha.
  apply list_elem_of_filter in Ha as [Hh Ha]. split; [done|].
  by apply Is_true_true.
Qed.

Lemma buildWhereConditions_owner env user params :
  A_eq_ownerId user ∈ AssetsRoute.buildWhereConditions env user params.
Proof. unfold AssetsRoute.buildWhereConditions. apply elem_of_app. left. left. Qed.

Lemma all_hold_elem {C R} (holds : C → R → bool) (w : list C) (r : R) c :
  all_hold holds w r = true → c ∈ w → holds c r = true.
Proof.
  unfold all_hold. rewrite forallb_forall. intros H Hc. apply H.
  by apply list_elem_of_In.
Qed.

Lemma getAssetsWithTags_run ids w :
  ∃ m evs, AssetsRoute.getAssetsWithTags ids w
             = (Done m, mkWorld (db w) (log w ++ evs))
           ∧ ∀ A, Forall (free A) evs.
Proof.
  unfold AssetsRoute.getAssetsWithTags. destruct ids as [|i ids].
  - exists ∅, []. rewrite ret_run, app_nil_r. by destruct w.
  - rewrite bind_run, selectAssetTagsJoinTags_run, ret_run.
    eexists _, [_]. split; [reflexivity|]. intros A. by repeat constructor.
Qed.

(** What a listing does: it leaves the database as it was, sends only
    statements that carry the owner condition or go to the asset-tag table,
    and returns rows that satisfy every condition built for the request
    and, when tags are requested, that the tag sub-query selects. *)
Lemma AssetsRoute_GET_summary env sp user w :
  getUser env = Some user →
  let params := AssetsRoute.parseQueryParams sp in
  let conds := AssetsRoute.buildWhereConditions env user params in
  ∃ r evs,
    AssetsRoute.GET env sp w = (Done r, mkWorld (db w) (log w ++ evs))
    ∧ Forall (free user) evs
    ∧ returned_tags r = [] ∧ returned_tokens r = []
    ∧ ∀ a, a ∈ returned_assets r →
        a ∈ assets (db w) ∧ all_hold asset_holds conds a = true
        ∧ (AssetsRoute.tagIds params ≠ [] →
           Asset.id a ∈ assetsWithTags_rows (AssetsRoute.tagIds params)
                          (assetTags (db w))).
Proof.
  intros Hu params conds.
  unfold AssetsRoute.GET, handler, try_catch. rewrite Hu. fold params conds.
  assert (∀ extra, free user (Query (OnAssets SELECT (conds ++ extra)))) as Hfree.
  { intros extra earlier. change (A_eq_ownerId user ∈ conds ++ extra).
    apply elem_of_app. left. apply buildWhereConditions_owner. }
  rewrite bind_run.
  set (pageQuery := if bool_decide (0 < length (AssetsRoute.tagIds params))%nat
                    then _ else _).
  assert (∃ o evs1, pageQuery w = (o, mkWorld (db w) (log w ++ evs1))
            ∧ Forall (free user) evs1
            ∧ ∀ page, o = Done page → ∀ a, a ∈ page →
                a ∈ assets (db w) ∧ all_hold asset_holds conds a = true
                ∧ (AssetsRoute.tagIds params ≠ [] →
                   Asset.id a ∈ assetsWithTags_rows (AssetsRoute.tagIds params)
                                  (assetTags (db w))))
    as (o & evs1 & Hpage & Hfree1 & Hrows).
  { unfold pageQuery. destruct (bool_decide _) eqn:Htags.
    - rewrite bind_run. unfold selectAssetsWithTags. run.
      set (ids := assetsWithTags_rows _ _).
      destruct (selectAssetsPage _ _ _ _) as [o w'] eqn:Hq.
      pose proof Hq as Hq'. rewrite selectAssetsPage_run in Hq'.
      exists o.
      destruct (forallb asset_sendable (conds ++ [A_inArray_id ids])).
      + eexists [_; _].
        assert (w' = logged (mkWorld (db w) (log w ++
                  [Query (OnAssetTags SELECT [L_inArray_tagId (AssetsRoute.tagIds params)])]))
                  (OnAssets SELECT (conds ++ [A_inArray_id ids]))) as ->.
        { by destruct (limit_offset _ _ _); inversion Hq'. }
        split; [unfold logged; cbn [db log]; by rewrite <- app_assoc|].
        split; [by repeat constructor|].
        intros page -> a Ha.
        destruct (selectAssetsPage_elem _ _ _ _ _ _ a Hq Ha) as [Hin Hall].
        split; [done|]. unfold all_hold in *. rewrite forallb_app in Hall.
        apply andb_true_iff in Hall as [Hc Hid]. split; [done|]. intros _.
        cbn in Hid. rewrite andb_true_r in Hid. by apply bool_decide_eq_true in Hid.
      + injection Hq' as <- <-. eexists [_]. split; [reflexivity|].
        split; [by repeat constructor | done].
    - destruct (selectAssetsPage conds _ _ w) as [o w'] eqn:Hq.
      pose proof Hq as Hq'. rewrite selectAssetsPage_run in Hq'.
      exists o. destruct (forallb asset_sendable conds).
      + eexists [_].
        assert (w' = logged w (OnAssets SELECT conds)) as ->.
        { by destruct (limit_offset _ _ _); inversion Hq'. }
        split; [reflexivity|]. split.
        { apply Forall_cons. split; [|constructor].
          rewrite <- (app_nil_r conds). apply Hfree. }
        intros page -> a Ha.
        destruct (selectAssetsPage_elem _ _ _ _ _ _ a Hq Ha) as [Hin Hall].
        split; [done|]. split; [done|]. intros Hne.
        apply bool_decide_eq_false in Htags. destruct (AssetsRoute.tagIds params);
          [done | simpl in Htags; lia].
      + injection Hq' as <- <-. exists []. rewrite app_nil_r.
        split; [by destruct w|]. split; [constructor | done]. }
  rewrite Hpage.
  destruct o as [page|].
  2:{ exists (json (B_error "Failed to fetch assets") 500), evs1.
      split; [done|]. split; [done|]. split; [done|]. split; [done | inversion 1]. }
  rewrite bind_run. unfold selectAssets.
  destruct (forallb asset_sendable conds).
  2:{ exists (json (B_error "Failed to fetch assets") 500), evs1.
      split; [done|]. split; [done|]. split; [done|]. split; [done | inversion 1]. }
  run.
  destruct (getAssetsWithTags_run (map Asset.id page)
              (mkWorld (db w) ((log w ++ evs1) ++ [Query (OnAssets SELECT conds)])))
    as (m & evs2 & Hm & Hfree2).
  rewrite Hm. cbn [db log]. rewrite bind_run.
  destruct (addPreviewUrls_run env page m
              (mkWorld (db w) (((log w ++ evs1) ++ [Query (OnAssets SELECT conds)]) ++ evs2)))
    as (items & evs3 & Hitems & Hmap & Hfree3).
  rewrite Hitems, ret_run. cbn [db log].
  eexists _, (evs1 ++ [Query (OnAssets SELECT conds)] ++ evs2 ++ evs3).
  split. { rewrite !app_assoc. reflexivity. }
  split.
  { apply Forall_app. split; [done|]. apply Forall_cons. split.
    - rewrite <- (app_nil_r conds). apply Hfree.
    - apply Forall_app. split; auto. }
  split; [done|]. split; [done|].
  intros a Ha. cbn in Ha. rewrite Hmap in Ha. by eapply Hrows.
Qed.

(** ** Storage paths *)
Lemma path_safe_class c : path_safe c = in_class c.
Proof. destruct c as [[] [] [] [] [] [] [] []]; vm_compute; reflexivity. Qed.

Lemma sanitize_get filename i :
  String.get i (sanitize filename) =
  (λ c, if in_class c then c else "_"%char) <$> String.get i filename.
Proof.
  revert i. induction filename as [|c s IH]; intros i; simpl; [done|].
  destruct i as [|i]; simpl; [by rewrite path_safe_class | apply IH].
Qed.

Lemma take_length n s : (String.length (Js.take n s) ≤ n)%nat.
Proof.
  revert s. induction n as [|n IH]; intros [|c s]; simpl; try lia.
  specialize (IH s). lia.
Qed.

Lemma randomSuffix_length r : (String.length (randomSuffix r) ≤ 6)%nat.
Proof. unfold randomSuffix, Js.substring. apply take_length. Qed.

Lemma generateAssetPath_primary ts r user f :
  generateAssetPath ts r user f None =
  user +:+ "/" +:+ Js.toString ts +:+ "-" +:+ randomSuffix r +:+ "-" +:+ sanitize f.
Proof. reflexivity. Qed.

Lemma generateAssetPath_preview ts r user f :
  generateAssetPath ts r user ("preview-" +:+ f) (Some "previews") =
  "previews/" +:+ user +:+ "/" +:+ Js.toString ts +:+ "-" +:+ randomSuffix r
    +:+ "-preview-" +:+ sanitize f.
Proof. reflexivity. Qed.

Lemma String_length_app (a b : string) :
  String.length (a +:+ b) = (String.length a + String.length b)%nat.
Proof. induction a as [|c a IH]; simpl; [done | by rewrite IH]. Qed.

(** The two paths of the sample upload when [Math.random()] returns one
    half, whose base-36 rendering is ["0.i"]. *)
Lemma primary_path_not_as_specified :
  ¬ path_as_specified "u1" "ad.png" "u1/1700000000000-i-ad.png".
Proof.
  intros (ts & suffix & Hlen & Heq).
  unfold Js.toString in Heq. generalize dependent (pretty ts). intros s Heq.
  assert (String.length s = 8%nat) as Hs.
  { apply (f_equal String.length) in Heq.
    rewrite !String_length_app in Heq. rewrite Hlen in Heq. simpl in Heq. lia. }
  do 9 (destruct s as [|? s]; try discriminate Hs).
  cbv in Heq. discriminate Heq.
Qed.

Lemma preview_path_not_as_specified :
  ¬ path_as_specified "u1" "ad.png" "previews/u1/1700000000001-i-preview-ad.png".
Proof. intros (ts & suffix & _ & Heq). cbv in Heq. discriminate Heq. Qed.

(** What a successful init-upload has done. *)
Lemma InitUpload_POST_ok env body d id up pu d' :
  respond env (InitUpload body) d = (Some (ok (B_init id up pu)), d') →
  ∃ user f m,
    getUser env = Some user ∧ InitUpload.filename body = Some f
    ∧ InitUpload.mimeType body = Some m
    ∧ id = newId env
    ∧ d' = set_assets (assets d ++ [InitUpload.values env user f m body]) d.
Proof.
  unfold respond, serve. intros H.
  destruct (getUser env) as [user|] eqn:Hu.
  2:{ unfold InitUpload.POST, handler, try_catch in H. rewrite Hu in H.
      discriminate H. }
  rewrite (InitUpload_POST_total env body user) in H by done.
  destruct (InitUpload.filename body) as [f|] eqn:Hf; [|discriminate H].
  destruct (InitUpload.mimeType body) as [m|] eqn:Hm; [|discriminate H].
  destruct (negb (Js.truthy f && Js.truthy m)); [discriminate H|].
  destruct (_ || _); [discriminate H|].
  cbn zeta in H. cbn [db] in H.
  destruct (storage_createSignedUploadUrl env ASSETS_BUCKET _);
    [destruct (storage_createSignedUploadUrl env PREVIEWS_BUCKET _)|];
    inversion H; subst.
  exists user, f, m. done.
Qed.

(** C8 (as amended). Every upload that the web route or the extension
    route initialises stores, in bucket [assets], the path
    [owner/timestamp-random-sanitizedFilename] and, in bucket [previews],
    the path [previews/owner/timestamp-random-preview-sanitizedFilename];
    each path has its own clock and random readings, a random part is
    characters 2 to 7 of [Math.random().toString(36)] and so has at most
    six characters, and the sanitised name is the filename with every
    character outside [[a-zA-Z0-9.-]] replaced by an underscore. *)
Theorem init_upload_paths :
  (∀ env body d id up pu d',
     respond env (InitUpload body) d = (Some (ok (B_init id up pu)), d') →
     ∃ a f,
       a ∈ assets d' ∧ Asset.id a = id ∧ getUser env = Some (Asset.ownerId a)
       ∧ InitUpload.filename body = Some f
       ∧ Asset.storageBucket a = "assets"
       ∧ Asset.storagePath a =
           Asset.ownerId a +:+ "/" +:+ Js.toString (dateNow env 0) +:+ "-"
             +:+ randomSuffix (random36 env 0) +:+ "-" +:+ sanitize f
       ∧ Asset.previewBucket a = Some "previews"
       ∧ Asset.previewPath a =
           Some ("previews/" +:+ Asset.ownerId a +:+ "/"
                   +:+ Js.toString (dateNow env 1) +:+ "-"
                   +:+ randomSuffix (random36 env 1) +:+ "-preview-" +:+ sanitize f))
  ∧ (∀ env h body d id up pu d',
       respond env (ExtInit h body) d = (Some (ok (B_init id up pu)), d') →
       ∃ a f,
         a ∈ assets d' ∧ Asset.id a = id
         ∧ principal env (ExtInit h body) d = Some (Asset.ownerId a)
         ∧ ExtensionInit.filename body = Some f
         ∧ Asset.storageBucket a = "assets"
         ∧ Asset.storagePath a =
             Asset.ownerId a +:+ "/" +:+ Js.toString (dateNow env 1) +:+ "-"
               +:+ randomSuffix (random36 env 0) +:+ "-" +:+ sanitize f
         ∧ Asset.previewBucket a = Some "previews"
         ∧ Asset.previewPath a =
             Some ("previews/" +:+ Asset.ownerId a +:+ "/"
                     +:+ Js.toString (dateNow env 2) +:+ "-"
                     +:+ randomSuffix (random36 env 1) +:+ "-preview-" +:+ sanitize f))
  ∧ (∀ random36,
       randomSuffix random36 = Js.substring 2 8 random36
       ∧ (String.length (randomSuffix random36) ≤ 6)%nat)
  ∧ (∀ f i, String.get i (sanitize f) =
              (λ c, if in_class c then c else "_"%char) <$> String.get i f).
Proof.
  split; [|split; [|split]].
  - intros env body d id up pu d'
      (user & f & m & Hu & Hf & Hm & -> & ->)%InitUpload_POST_ok.
    exists (InitUpload.values env user f m body), f.
    split. { cbn [assets set_assets]. apply elem_of_app. right. left. }
    by repeat split.
  - intros env h body d id up pu d' Hrun.
    unfold respond, serve in Hrun. rewrite ExtensionInit_POST_run in Hrun.
    cbn zeta in Hrun. cbn [db] in Hrun.
    destruct (principal env (ExtInit h body) d) as [ownerId|] eqn:Hp;
      [|discriminate Hrun].
    destruct (ExtensionInit.filename body) as [f|]; [|discriminate Hrun].
    destruct (ExtensionInit.mimeType body) as [m|]; [|discriminate Hrun].
    destruct (negb (Js.truthy f && Js.truthy m)); [discriminate Hrun|].
    destruct (_ || _); [discriminate Hrun|].
    exists (ExtensionInit.values env ownerId f m body), f.
    assert (d' = set_assets
                   (assets (db (looked_up_stamped env h (mkWorld d [])))
                      ++ [ExtensionInit.values env ownerId f m body])
                   (db (looked_up_stamped env h (mkWorld d [])))
            ∧ id = newId env) as [-> ->].
    { destruct (ExtensionInit.hasBlob body); [destruct (adminConfigured env)|];
        try discriminate Hrun.
      - destruct (storage_createSignedUploadUrl env ASSETS_BUCKET _);
          [destruct (storage_createSignedUploadUrl env PREVIEWS_BUCKET _)|];
          try discriminate Hrun.
        by injection Hrun as <- _ _ <-.
      - by injection Hrun as <- _ _ <-. }
    split. { cbn [assets set_assets]. apply elem_of_app. right. left. }
    by repeat split.
  - intros r. split; [reflexivity | apply randomSuffix_length].
  - apply sanitize_get.
Qed.

(** The amended statement at the sample upload. *)
Lemma init_upload_paths_witness :
  let env := Demo.env_for (Some "u1") "a1" "0.4fzyo82mvyr" true in
  ∃ a f,
    a ∈ assets (respond env (InitUpload Demo.ad_png) Demo.empty).2
    ∧ Asset.id a = "a1" ∧ getUser env = Some (Asset.ownerId a)
    ∧ InitUpload.filename Demo.ad_png = Some f
    ∧ Asset.storageBucket a = "assets"
    ∧ Asset.storagePath a =
        Asset.ownerId a +:+ "/" +:+ Js.toString 1700000000000 +:+ "-"
          +:+ "4fzyo8" +:+ "-" +:+ sanitize f
    ∧ Asset.previewBucket a = Some "previews"
    ∧ Asset.previewPath a =
        Some ("previews/" +:+ Asset.ownerId a +:+ "/"
                +:+ Js.toString 1700000000001 +:+ "-"
                +:+ "4fzyo8" +:+ "-preview-" +:+ sanitize f).
Proof.
  exact (proj1 init_upload_paths
           (Demo.env_for (Some "u1") "a1" "0.4fzyo82mvyr" true)
           Demo.ad_png Demo.empty "a1" _ _ _ eq_refl).
Defined.

(** C8 (as stated) fails: with [Math.random()] returning one half the
    random part is the single character [i], and the preview path starts
    with the directory [previews/] and names the file [preview-ad.png]. *)
Lemma init_upload_paths_counterexample :
  let env := Demo.env_for (Some "u1") "a1" "0.i" true in
  ∃ up pu a,
    respond env (InitUpload Demo.ad_png) Demo.empty
      = (Some (ok (B_init "a1" up pu)), mkDb [a] [] [] [])
    ∧ Asset.ownerId a = "u1"
    ∧ Asset.storagePath a = "u1/1700000000000-i-ad.png"
    ∧ Asset.previewPath a = Some "previews/u1/1700000000001-i-preview-ad.png"
    ∧ ¬ path_as_specified "u1" "ad.png" (Asset.storagePath a)
    ∧ ¬ path_as_specified "u1" "ad.png"
          "previews/u1/1700000000001-i-preview-ad.png".
Proof.
  do 3 eexists. split; [vm_compute; reflexivity|].
  split; [reflexivity|]. split; [vm_compute; reflexivity|].
  split; [vm_compute; reflexivity|].
  split; [apply primary_path_not_as_specified
         | apply preview_path_not_as_specified].
Qed.



(** ** Rows of another owner *)
Lemma filter_update_rows_other {R} (P : R → Prop) `{∀ r, Decision (P r)}
    (hit : R → bool) (set : R → R) (l : list R) :
  (∀ r, r ∈ l → hit r = true → ¬ P r ∧ ¬ P (set r)) →
  filter P (update_rows hit set l) = filter P l.
Proof.
  induction l as [|x l IH]; intros Hl; [done|].
  unfold update_rows in *. simpl.
  assert (filter P (map (λ r, if hit r then set r else r) l) = filter P l) as IH'.
  { apply IH. intros r Hr. apply Hl. by right. }
  destruct (hit x) eqn:Hx.
  - destruct (Hl x) as [H1 H2]; [left|done|].
    by rewrite !filter_cons_False.
  - rewrite !filter_cons. rewrite IH'. done.
Qed.

Lemma filter_delete_rows_other {R} (P : R → Prop) `{∀ r, Decision (P r)}
    (hit : R → bool) (l : list R) :
  (∀ r, r ∈ l → hit r = true → ¬ P r) →
  filter P (delete_rows hit l) = filter P l.
Proof.
  induction l as [|x l IH]; intros Hl; [done|].
  assert (filter P (delete_rows hit l) = filter P l) as IH'.
  { apply IH. intros r Hr. apply Hl. by right. }
  unfold delete_rows in *.
  destruct (hit x) eqn:Hx.
  - rewrite (filter_cons_False _ x) by (rewrite Hx; intros []).
    rewrite (filter_cons_False P x); [done|]. apply Hl; [left | done].
  - rewrite (filter_cons_True _ x) by (by rewrite Hx).
    rewrite !filter_cons, IH'. done.
Qed.

Lemma filter_insert_other {R} (P : R → Prop) `{∀ r, Decision (P r)}
    (l : list R) (row : R) :
  ¬ P row → filter P (l ++ [row]) = filter P l.
Proof.
  intros H0. rewrite filter_app, (filter_cons_False _ row) by done.
  apply app_nil_r.
Qed.

(** With unique keys, a key names one row. *)
Lemma same_key_same_row {R} (key : R → string) (l : list R) (a r : R) :
  NoDup (map key l) → a ∈ l → r ∈ l → key r = key a → r = a.
Proof.
  intros Hnd Ha Hr Hk. induction l as [|x l IH]; [inversion Ha|].
  simpl in Hnd. apply NoDup_cons in Hnd as [Hx Hnd].
  apply elem_of_cons in Ha as [-> | Ha]; apply elem_of_cons in Hr as [-> | Hr];
    try done.
  - exfalso. apply Hx. rewrite <- Hk. apply list_elem_of_fmap. eauto.
  - exfalso. apply Hx. rewrite Hk. apply list_elem_of_fmap. eauto.
  - by apply IH.
Qed.

Lemma first_filter_elem {R} (P : R → Prop) `{∀ r, Decision (P r)} (l : list R) a :
  first (filter P l) = Some a → a ∈ l ∧ P a.
Proof.
  intros Hf. assert (a ∈ filter P l) as Ha.
  { destruct (filter P l) as [|x l']; [discriminate|].
    injection Hf as ->. left. }
  apply list_elem_of_filter in Ha. tauto.
Qed.

Lemma holds_tag_id_owner id user r :
  all_hold tag_holds [T_eq_id id; T_eq_ownerId user] r = true ↔
  Tag.id r = id ∧ Tag.ownerId r = user.
Proof.
  unfold all_hold. simpl. rewrite andb_true_r, andb_true_iff, !bool_decide_eq_true.
  done.
Qed.

Lemma holds_token_id_owner id user r :
  all_hold token_holds [K_eq_id id; K_eq_ownerId user] r = true ↔
  Token.id r = id ∧ Token.ownerId r = user.
Proof.
  unfold all_hold. simpl. rewrite andb_true_r, andb_true_iff, !bool_decide_eq_true.
  done.
Qed.

Lemma holds_tag_owner user r :
  all_hold tag_holds [T_eq_ownerId user] r = true ↔ Tag.ownerId r = user.
Proof. unfold all_hold. simpl. by rewrite andb_true_r, bool_decide_eq_true. Qed.

Lemma holds_token_owner user r :
  all_hold token_holds [K_eq_ownerId user] r = true ↔ Token.ownerId r = user.
Proof. unfold all_hold. simpl. by rewrite andb_true_r, bool_decide_eq_true. Qed.

Lemma holds_asset_id id r :
  all_hold asset_holds [A_eq_id id] r = true ↔ Asset.id r = id.
Proof. unfold all_hold. simpl. by rewrite andb_true_r, bool_decide_eq_true. Qed.

Lemma holds_tag_id id r :
  all_hold tag_holds [T_eq_id id] r = true ↔ Tag.id r = id.
Proof. unfold all_hold. simpl. by rewrite andb_true_r, bool_decide_eq_true. Qed.

Lemma holds_token_id id r :
  all_hold token_holds [K_eq_id id] r = true ↔ Token.id r = id.
Proof. unfold all_hold. simpl. by rewrite andb_true_r, bool_decide_eq_true. Qed.

Lemma updateData_owner env body r :
  Asset.ownerId (AssetRoute.updateData env body r) = Asset.ownerId r.
Proof.
  unfold AssetRoute.updateData.
  destruct (AssetRoute.notes body), (AssetRoute.sourcePlatform body) as [v|];
    try destruct (Js.truthy v); reflexivity.
Qed.

Lemma apply_all_owner fs t :
  Forall (λ f, ∀ t, Tag.ownerId (f t) = Tag.ownerId t) fs →
  Tag.ownerId (TagRoute.apply_all fs t) = Tag.ownerId t.
Proof.
  unfold TagRoute.apply_all. revert t.
  induction fs as [|f fs IH]; intros t Hfs; [done|].
  apply Forall_cons in Hfs as [Hf Hfs]. simpl. rewrite IH by done. apply Hf.
Qed.

Lemma tag_updateData_owner body t :
  Tag.ownerId (TagRoute.apply_all (TagRoute.updateData body) t) = Tag.ownerId t.
Proof.
  apply apply_all_owner. unfold TagRoute.updateData.
  apply Forall_app. split.
  - destruct (Js.or_null (TagsRoute.name body)); by repeat constructor.
  - destruct (Js.or_null (TagsRoute.color body)); by repeat constructor.
Qed.

(** *** What each route does for its principal *)
Ltac untouched_now :=
  unfold untouched, owned_assets, owned_tags, owned_tokens;
  cbn [db assets tags assetTags personalAccessTokens
       set_assets set_tags set_assetTags set_tokens];
  repeat split; try reflexivity.

Section Tenancy.
Context (env : Env) (A : string) (d : Db).
Hypothesis Hwf : wf d.

Lemma tenant_GetAsset id :
  getUser env = Some A → tenant_safe A env (GetAsset id) d.
Proof.
  intros Hu. unfold tenant_safe, respond, events, serve.
  rewrite (AssetRoute_GET_run env id A) by done. cbn zeta. cbn [db].
  destruct (first _) as [a|] eqn:Hfirst; cbn [fst snd db log].
  - apply first_filter_elem in Hfirst as [Ha [Hid Hown]%Is_true_true%holds_id_owner].
    split; [intros B HB; untouched_now|]. split.
    + intros r [= <-]. cbn. split; [|split]; intros x Hx; [|inversion Hx..].
      by apply list_elem_of_singleton in Hx as ->.
    + unfold disciplined. cbn. split; [by repeat constructor|].
      split; [done|]. split; [done|].
      destruct (AssetRoute.preview_of a) as [[??]|]; cbn; done.
  - split; [intros B HB; untouched_now|]. split.
    + intros r [= <-]. cbn. repeat split; intros x Hx; inversion Hx.
    + unfold disciplined. cbn. split; [by repeat constructor | done].
Qed.

Lemma free_disciplined earlier evs :
  Forall (free A) evs → disciplined_after A earlier evs.
Proof.
  revert earlier. induction evs as [|e evs IH]; intros earlier Hf; [done|].
  apply Forall_cons in Hf as [He Hf]. split; [apply He | by apply IH].
Qed.

Lemma tenant_ListAssets sp :
  getUser env = Some A → tenant_safe A env (ListAssets sp) d.
Proof.
  intros Hu. unfold tenant_safe, respond, events, serve.
  destruct (AssetsRoute_GET_summary env sp A (mkWorld d []) Hu)
    as (r & evs & Hrun & Hfree & Htags & Htokens & Hrows).
  rewrite Hrun. cbn [fst snd db log app].
  split; [intros B HB; untouched_now|]. split.
  - intros r' [= <-]. rewrite Htags, Htokens.
    split; [|split; intros x Hx; inversion Hx].
    intros a Ha. destruct (Hrows a Ha) as (_ & Hall & _).
    eapply all_hold_elem in Hall; [|apply buildWhereConditions_owner].
    by apply bool_decide_eq_true in Hall.
  - by apply free_disciplined.
Qed.

Ltac no_rows := repeat split; intros ? Hx; inversion Hx.

Lemma tenant_PatchAsset id body :
  getUser env = Some A → tenant_safe A env (PatchAsset id body) d.
Proof.
  intros Hu. unfold tenant_safe, respond, events, serve.
  rewrite (AssetRoute_PATCH_run env id body A) by done. cbn zeta. cbn [db log app].
  assert (∀ B, B ≠ A →
    filter (λ r, Asset.ownerId r = B)
      (update_rows (all_hold asset_holds [A_eq_id id; A_eq_ownerId A])
         (AssetRoute.updateData env body) (assets d))
    = filter (λ r, Asset.ownerId r = B) (assets d)) as Hframe.
  { intros B HB. apply filter_update_rows_other.
    intros r _ [_ Hown]%holds_id_owner. rewrite updateData_owner. split; congruence. }
  destruct (first _) as [a|] eqn:Hfirst.
  2:{ cbn [fst snd db log]. split; [intros B HB; untouched_now; by apply Hframe|].
      split; [intros r [= <-]; cbn; no_rows|].
      unfold disciplined. cbn. split; [by repeat constructor | done]. }
  apply first_filter_elem in Hfirst as [Ha [Hid Hown]%Is_true_true%holds_id_owner].
  assert (∀ r, Some (ok (B_asset (AssetRoute.updateData env body a))) = Some r →
    (∀ x, x ∈ returned_assets r → Asset.ownerId x = A)
    ∧ (∀ t, t ∈ returned_tags r → Tag.ownerId t = A)
    ∧ (∀ i, i ∈ returned_tokens r → False)) as Hret.
  { intros r [= <-]. cbn. split; [|split]; intros x Hx; [|inversion Hx..].
    apply list_elem_of_singleton in Hx as ->. by rewrite updateData_owner. }
  destruct (AssetRoute.tagIds body) as [tagIds|].
  2:{ cbn [fst snd db log]. split; [intros B HB; untouched_now; by apply Hframe|].
      split.
      - intros r Hr. destruct (Hret r Hr) as (H1 & H2 & H3).
        repeat split; auto. intros i Hi. destruct (H3 i Hi).
      - unfold disciplined. cbn. split; [by repeat constructor | done]. }
  destruct (bool_decide (0 < length tagIds)%nat); [destruct (forallb _ _)|];
    cbn [fst snd db log].
  - split; [intros B HB; untouched_now; by apply Hframe|]. split.
    + intros r Hr. destruct (Hret r Hr) as (H1 & H2 & H3).
      repeat split; auto. intros i Hi. destruct (H3 i Hi).
    + unfold disciplined. cbn. split; [by repeat constructor | done].
  - split; [intros B HB; untouched_now; by apply Hframe|]. split.
    + intros r [= <-]. cbn. no_rows.
    + unfold disciplined. cbn. split; [by repeat constructor | done].
  - split; [intros B HB; untouched_now; by apply Hframe|]. split.
    + intros r Hr. destruct (Hret r Hr) as (H1 & H2 & H3).
      repeat split; auto. intros i Hi. destruct (H3 i Hi).
    + unfold disciplined. cbn. split; [by repeat constructor | done].
Qed.

Lemma tenant_DeleteAsset id :
  getUser env = Some A → tenant_safe A env (DeleteAsset id) d.
Proof.
  intros Hu. unfold tenant_safe, respond, events, serve.
  rewrite (AssetRoute_DELETE_run env id A) by done. cbn zeta. cbn [db log app].
  destruct (first _) as [a|] eqn:Hfirst; cbn [fst snd db log].
  2:{ split; [intros B HB; untouched_now|].
      split; [intros r [= <-]; cbn; no_rows|].
      unfold disciplined. cbn. split; [by repeat constructor | done]. }
  apply first_filter_elem in Hfirst as [Ha [Hid Hown]%Is_true_true%holds_id_owner].
  split.
  { intros B HB. untouched_now. apply filter_delete_rows_other.
    intros r Hr Hhit%holds_asset_id.
    assert (r = a) as -> by
      (eapply (same_key_same_row Asset.id); eauto using wf_asset_ids; congruence).
    congruence. }
  split; [intros r [= <-]; cbn; no_rows|].
  unfold disciplined.
  destruct (AssetRoute.preview_of a) as [[bucket path]|]; cbn.
  - split; [by repeat constructor|]. do 3 (split; [done|]).
    split; [|done]. exists id. split; [done | by repeat constructor].
  - split; [by repeat constructor|]. do 2 (split; [done|]).
    split; [|done]. exists id. split; [done | by repeat constructor].
Qed.

Lemma tenant_InitUpload body :
  getUser env = Some A → tenant_safe A env (InitUpload body) d.
Proof.
  intros Hu. unfold tenant_safe, respond, events, serve.
  rewrite (InitUpload_POST_total env body A) by done. cbn [db log app].
  destruct (InitUpload.filename body) as [f|], (InitUpload.mimeType body) as [m|];
    cbn [fst snd db log].
  2,3,4: split; [intros B HB; untouched_now|];
         (split; [intros r [= <-]; cbn; no_rows | done]).
  destruct (negb (Js.truthy f && Js.truthy m)); cbn [fst snd db log].
  { split; [intros B HB; untouched_now|].
    split; [intros r [= <-]; cbn; no_rows | done]. }
  destruct (_ || _); cbn [fst snd db log].
  { split; [intros B HB; untouched_now|].
    split; [intros r [= <-]; cbn; no_rows | by unfold disciplined; cbn]. }
  cbn zeta. cbn [fst snd db log].
  split.
  { intros B HB. untouched_now. apply filter_insert_other. cbn. congruence. }
  split.
  - intros r [= <-].
    destruct (storage_createSignedUploadUrl env ASSETS_BUCKET _);
      [destruct (storage_createSignedUploadUrl env PREVIEWS_BUCKET _)|];
      cbn; no_rows.
  - by unfold disciplined; cbn.
Qed.

Lemma FinalizeUpload_POST_total env' body user w :
  getUser env' = Some user →
  FinalizeUpload.POST env' body w =
  match Js.or_null (FinalizeUpload.assetId body) with
  | None => (Done (json (B_error "Missing assetId") 400), w)
  | Some id =>
      let c := [A_eq_id id; A_eq_ownerId user] in
      if negb (forallb param_fits (FinalizeUpload.params body)) then
        (Done (json (B_error "Failed to finalize upload") 500),
         logged w (OnAssets UPDATE c))
      else
      (Done match first (filter (λ r, all_hold asset_holds c r) (assets (db w))) with
            | Some a => ok (B_asset (FinalizeUpload.finalized env' body a))
            | None => json (B_error "Asset not found") 404
            end,
       mkWorld
         (set_assets (update_rows (all_hold asset_holds c)
                        (FinalizeUpload.finalized env' body) (assets (db w))) (db w))
         (log w ++ [Query (OnAssets UPDATE c)]))
  end.
Proof.
  intros Hu'. destruct (Js.or_null _) as [id|] eqn:Hid.
  - destruct (forallb _ _) eqn:Hfits; cbn [negb].
    + by apply FinalizeUpload_POST_run.
    + by apply FinalizeUpload_POST_unfit.
  - unfold FinalizeUpload.POST, handler, try_catch. by rewrite Hu', Hid.
Qed.

Lemma tenant_FinalizeUpload body :
  getUser env = Some A → tenant_safe A env (FinalizeUpload body) d.
Proof.
  intros Hu. unfold tenant_safe, respond, events, serve.
  rewrite (FinalizeUpload_POST_total env body A) by done. cbn [db log app].
  destruct (Js.or_null _) as [id|]; cbn zeta; cbn [fst snd db log].
  2:{ split; [intros B HB; untouched_now|].
      split; [intros r [= <-]; cbn; no_rows | done]. }
  destruct (negb _); cbn [fst snd db log logged app].
  { split; [intros B HB; untouched_now|].
    split; [intros r [= <-]; cbn; no_rows|].
    unfold disciplined. cbn. split; [by repeat constructor | done]. }
  split.
  { intros B HB. untouched_now. apply filter_update_rows_other.
    intros r _ [_ Hown]%holds_id_owner. cbn. split; congruence. }
  split.
  - intros r [= <-]. destruct (first _) as [a|] eqn:Hfirst; cbn; [|no_rows].
    apply first_filter_elem in Hfirst as [Ha [Hid Hown]%Is_true_true%holds_id_owner].
    split; [|split]; intros x Hx; [|inversion Hx..].
    by apply list_elem_of_singleton in Hx as ->.
  - unfold disciplined. cbn. split; [by repeat constructor | done].
Qed.

Lemma tenant_ListTags : getUser env = Some A → tenant_safe A env ListTags d.
Proof.
  intros Hu. unfold tenant_safe, respond, events, serve.
  rewrite (TagsRoute_GET_run env A) by done. cbn [fst snd db log logged app].
  split; [intros B HB; untouched_now|]. split.
  - intros r [= <-]. cbn. split; [|split]; intros x Hx; [inversion Hx| |inversion Hx].
    unfold orderBy_asc_name in Hx. rewrite merge_sort_Permutation in Hx.
    apply list_elem_of_filter in Hx as [Hx _].
    by apply Is_true_true, holds_tag_owner in Hx.
  - unfold disciplined. cbn. split; [by repeat constructor | done].
Qed.

Lemma tenant_CreateTag body :
  getUser env = Some A → tenant_safe A env (CreateTag body) d.
Proof.
  intros Hu. unfold tenant_safe, respond, events, serve.
  rewrite (TagsRoute_POST_run env body A) by done. cbn [db log app].
  destruct (Js.or_null _) as [name|]; cbn zeta; cbn [fst snd db log].
  2:{ split; [intros B HB; untouched_now|].
      split; [intros r [= <-]; cbn; no_rows | done]. }
  destruct (_ || _); cbn [fst snd db log logged].
  { split; [intros B HB; untouched_now|].
    split; [intros r [= <-]; cbn; no_rows | by unfold disciplined; cbn]. }
  split.
  { intros B HB. untouched_now. apply filter_insert_other. cbn. congruence. }
  split; [|by unfold disciplined; cbn].
  intros r [= <-]. cbn. split; [|split]; intros x Hx; [inversion Hx| |inversion Hx].
  by apply list_elem_of_singleton in Hx as ->.
Qed.

Lemma tenant_PatchTag id body :
  getUser env = Some A → tenant_safe A env (PatchTag id body) d.
Proof.
  intros Hu. unfold tenant_safe, respond, events, serve.
  rewrite (TagRoute_PATCH_run env id body A) by done. cbn zeta. cbn [db log app].
  destruct (bool_decide (length _ = 0%nat)); cbn [fst snd db log].
  { split; [intros B HB; untouched_now|].
    split; [intros r [= <-]; cbn; no_rows | done]. }
  destruct (_ || _); cbn [fst snd db log logged].
  { split; [intros B HB; untouched_now|].
    split; [intros r [= <-]; cbn; no_rows|].
    unfold disciplined. cbn. split; [by repeat constructor | done]. }
  split.
  { intros B HB. untouched_now. apply filter_update_rows_other.
    intros r _ [_ Hown]%holds_tag_id_owner. rewrite tag_updateData_owner.
    split; congruence. }
  split.
  - intros r [= <-]. destruct (first _) as [t|] eqn:Hfirst; cbn; [|no_rows].
    apply first_filter_elem in Hfirst
      as [Ht [Hid Hown]%Is_true_true%holds_tag_id_owner].
    split; [|split]; intros x Hx; [inversion Hx| |inversion Hx].
    apply list_elem_of_singleton in Hx as ->. by rewrite tag_updateData_owner.
  - unfold disciplined. cbn. split; [by repeat constructor | done].
Qed.

Lemma tenant_DeleteTag id :
  getUser env = Some A → tenant_safe A env (DeleteTag id) d.
Proof.
  intros Hu. unfold tenant_safe, respond, events, serve.
  rewrite (TagRoute_DELETE_run env id A) by done. cbn zeta. cbn [db log app].
  destruct (first _) as [t|] eqn:Hfirst; cbn [fst snd db log logged].
  2:{ split; [intros B HB; untouched_now|].
      split; [intros r [= <-]; cbn; no_rows|].
      unfold disciplined. cbn. split; [by repeat constructor | done]. }
  apply first_filter_elem in Hfirst
    as [Ht [Hid Hown]%Is_true_true%holds_tag_id_owner].
  split.
  { intros B HB. untouched_now. apply filter_delete_rows_other.
    intros r Hr Hhit%holds_tag_id.
    assert (r = t) as -> by
      (eapply (same_key_same_row Tag.id); eauto using wf_tag_ids; congruence).
    congruence. }
  split; [intros r [= <-]; cbn; no_rows|].
  unfold disciplined. cbn. split; [by repeat constructor|]. split; [done|].
  split; [|done]. exists id. split; [done | by repeat constructor].
Qed.

Lemma tenant_ListTokens : getUser env = Some A → tenant_safe A env ListTokens d.
Proof.
  intros Hu. unfold tenant_safe, respond, events, serve.
  rewrite (TokensRoute_GET_run env A) by done. cbn [fst snd db log logged app].
  split; [intros B HB; untouched_now|]. split.
  - intros r [= <-]. cbn. split; [|split]; intros x Hx; [inversion Hx..|].
    apply list_elem_of_filter in Hx as [_ Hx].
    apply list_elem_of_fmap in Hx as (t & -> & Ht).
    unfold orderBy_desc_token_createdAt in Ht. rewrite merge_sort_Permutation in Ht.
    apply list_elem_of_filter in Ht as [Hh Ht].
    apply Is_true_true, holds_token_owner in Hh. eauto.
  - unfold disciplined. cbn. split; [|done]. left. by repeat constructor.
Qed.

Lemma tenant_CreateToken name :
  getUser env = Some A → tenant_safe A env (CreateToken name) d.
Proof.
  intros Hu. unfold tenant_safe, respond, events, serve.
  rewrite (TokensRoute_POST_run env name A) by done. cbn [db log app].
  destruct (Js.or_null _) as [nm|]; cbn zeta; cbn [fst snd db log].
  2:{ split; [intros B HB; untouched_now|].
      split; [intros r [= <-]; cbn; no_rows | done]. }
  destruct (bool_decide _); cbn [fst snd db log logged].
  { split; [intros B HB; untouched_now|].
    split; [intros r [= <-]; cbn; no_rows | by unfold disciplined; cbn]. }
  split.
  { intros B HB. untouched_now. apply filter_insert_other. cbn. congruence. }
  split; [|by unfold disciplined; cbn].
  intros r [= <-]. cbn. split; [|split]; intros x Hx; [inversion Hx..|].
  apply list_elem_of_singleton in Hx as ->.
  eexists. split; [apply elem_of_app; right; left|]. done.
Qed.

Lemma tenant_DeleteToken id :
  getUser env = Some A → tenant_safe A env (DeleteToken id) d.
Proof.
  intros Hu. unfold tenant_safe, respond, events, serve.
  rewrite (TokenRoute_DELETE_run env id A) by done. cbn [fst snd db log app].
  split.
  { intros B HB. untouched_now. apply filter_delete_rows_other.
    intros r _ [_ Hown]%holds_token_id_owner. congruence. }
  split; [intros r [= <-]; cbn; no_rows|].
  unfold disciplined. cbn. split; [|done]. left. by repeat constructor.
Qed.

(** *** The extension's routes: the principal is the owner of the row
    the bearer header selects. *)
Lemma principal_bearer h :
  Js.or_null (Token.ownerId <$> bearer_row env h d) = Some A →
  ∃ header pat,
    h = Some header ∧ Js.startsWith header "Bearer " = true
    ∧ bearer_row env h d = Some pat ∧ pat ∈ personalAccessTokens d
    ∧ Token.ownerId pat = A.
Proof.
  intros Hp. destruct (bearer_row env h d) as [pat|] eqn:Hrow; [|done].
  cbn in Hp. destruct (Js.truthy _); [|done]. injection Hp as Hown.
  unfold bearer_row in Hrow. destruct h as [header|]; [|done].
  destruct (Js.startsWith header "Bearer ") eqn:Hb; [|done].
  pose proof Hrow as [Hin _]%first_filter_elem.
  exists header, pat. unfold bearer_row. rewrite Hb. by repeat split.
Qed.

Lemma tenant_ExtVerify h :
  principal env (ExtVerify h) d = Some A → tenant_safe A env (ExtVerify h) d.
Proof.
  intros Hp. unfold tenant_safe, respond, events, serve.
  rewrite ExtensionVerify_GET_run. cbn [fst snd db log].
  rewrite looked_up_db. cbn [db]. rewrite Hp. cbn [fst snd].
  split; [intros B HB; untouched_now|].
  split; [intros r [= <-]; cbn; no_rows|].
  apply principal_bearer in Hp as (header & pat & -> & Hb & _).
  unfold disciplined, looked_up. rewrite Hb. cbn. split; [|done].
  right. left. split; [done|]. eauto.
Qed.

Lemma stamped_frame B pat :
  B ≠ A → pat ∈ personalAccessTokens d → Token.ownerId pat = A →
  filter (λ r, Token.ownerId r = B)
    (update_rows (all_hold token_holds [K_eq_id (Token.id pat)])
       (ExtensionInit.set_lastUsedAt (dateNow env 0)) (personalAccessTokens d))
  = filter (λ r, Token.ownerId r = B) (personalAccessTokens d).
Proof.
  intros HB Hin Hown. apply filter_update_rows_other.
  intros r Hr Hhit%holds_token_id.
  assert (r = pat) as -> by
    (eapply (same_key_same_row Token.id); eauto using wf_token_ids).
  cbn. split; congruence.
Qed.

Lemma tenant_ExtInit h body :
  principal env (ExtInit h body) d = Some A →
  tenant_safe A env (ExtInit h body) d.
Proof.
  intros Hp. unfold tenant_safe, respond, events, serve.
  rewrite ExtensionInit_POST_run. cbn zeta. cbn [db]. rewrite Hp.
  apply principal_bearer in Hp as (header & pat & -> & Hb & Hrow & Hin & Hown).
  unfold looked_up_stamped, looked_up. cbn [db log]. rewrite Hrow, Hb.
  cbn [db log logged app].
  pose proof (λ B HB, stamped_frame B pat HB Hin Hown) as Hstamp.
  assert (disciplined_after A []
            [Query (lookup env header);
             Query (OnTokens UPDATE [K_eq_id (Token.id pat)])]) as Hlog0.
  { cbn. split; [right; left; split; [done|]; eauto|]. split; [|done].
    right. right. split; [done|]. eexists _, _. split; [done|].
    by repeat constructor. }
  destruct (ExtensionInit.filename body) as [f|],
    (ExtensionInit.mimeType body) as [m|]; cbn [fst snd db log].
  2,3,4: split; [intros B HB; untouched_now; by apply Hstamp|];
         (split; [intros r [= <-]; cbn; no_rows | done]).
  destruct (negb (Js.truthy f && Js.truthy m)); cbn [fst snd db log].
  { split; [intros B HB; untouched_now; by apply Hstamp|].
    split; [intros r [= <-]; cbn; no_rows | done]. }
  destruct (_ || _); cbn [fst snd db log].
  { split; [intros B HB; untouched_now; by apply Hstamp|].
    split; [intros r [= <-]; cbn; no_rows|].
    unfold disciplined. cbn. cbn in Hlog0. tauto. }
  assert (∀ B, B ≠ A →
    filter (λ r, Asset.ownerId r = B)
      (assets d ++ [ExtensionInit.values env A f m body])
    = filter (λ r, Asset.ownerId r = B) (assets d)) as Hins.
  { intros B HB. apply filter_insert_other. cbn. congruence. }
  destruct (ExtensionInit.hasBlob body); [destruct (adminConfigured env)|];
    cbn [fst snd db log].
  - split; [intros B HB; untouched_now; [by apply Hins | by apply Hstamp]|].
    split.
    + intros r [= <-].
      destruct (storage_createSignedUploadUrl env ASSETS_BUCKET _);
        [destruct (storage_createSignedUploadUrl env PREVIEWS_BUCKET _)|];
        cbn; no_rows.
    + unfold disciplined. cbn in Hlog0. cbn. tauto.
  - split; [intros B HB; untouched_now; [by apply Hins | by apply Hstamp]|].
    split; [intros r [= <-]; cbn; no_rows|].
    unfold disciplined. cbn. cbn in Hlog0. tauto.
  - split; [intros B HB; untouched_now; [by apply Hins | by apply Hstamp]|].
    split; [intros r [= <-]; cbn; no_rows|].
    unfold disciplined. cbn. cbn in Hlog0. tauto.
Qed.

Lemma tenant_ExtFinalize h body :
  principal env (ExtFinalize h body) d = Some A →
  tenant_safe A env (ExtFinalize h body) d.
Proof.
  intros Hp. unfold tenant_safe, respond, events, serve.
  rewrite ExtensionFinalize_POST_run. cbn zeta. cbn [db]. rewrite Hp.
  apply principal_bearer in Hp as (header & pat & -> & Hb & Hrow & Hin & Hown).
  unfold looked_up. rewrite Hb. cbn [db log logged app].
  assert (cleared A [] (Query (lookup env header))) as Hlog0.
  { right. left. split; [done|]. eauto. }
  destruct (Js.or_null (ExtensionFinalize.assetId body)) as [id|];
    cbn [fst snd db log].
  2:{ split; [intros B HB; untouched_now|].
      split; [intros r [= <-]; cbn; no_rows | by unfold disciplined; cbn]. }
  assert (∀ B, B ≠ A →
    filter (λ r, Asset.ownerId r = B)
      (update_rows (all_hold asset_holds [A_eq_id id; A_eq_ownerId A])
         (ExtensionFinalize.finalized env body) (assets d))
    = filter (λ r, Asset.ownerId r = B) (assets d)) as Hframe.
  { intros B HB. apply filter_update_rows_other.
    intros r _ [_ Ho]%holds_id_owner. cbn. split; congruence. }
  destruct (negb _); cbn [fst snd db log logged app].
  { split; [intros B HB; untouched_now|].
    split; [intros r [= <-]; cbn; no_rows|].
    unfold disciplined. cbn. split; [done|]. split; [by repeat constructor|done]. }
  destruct (first _) as [a|] eqn:Hfirst; cbn [fst snd db log].
  2:{ split; [intros B HB; untouched_now; by apply Hframe|].
      split; [intros r [= <-]; cbn; no_rows|].
      unfold disciplined. cbn. split; [done|]. split; [by repeat constructor|done]. }
  apply first_filter_elem in Hfirst as [Ha [Hid Ho]%Is_true_true%holds_id_owner].
  assert (∀ r, Some (ok (B_asset (ExtensionFinalize.finalized env body a))) = Some r →
    (∀ x, x ∈ returned_assets r → Asset.ownerId x = A)
    ∧ (∀ t, t ∈ returned_tags r → Tag.ownerId t = A)
    ∧ (∀ i, i ∈ returned_tokens r →
         ∃ t, t ∈ personalAccessTokens d ∧ Token.ownerId t = A
              ∧ TokensRoute.info t = i)) as Hret.
  { intros r [= <-]. cbn. split; [|split]; intros x Hx; [|inversion Hx..].
    by apply list_elem_of_singleton in Hx as ->. }
  destruct (ExtensionFinalize.tagIds body) as [tagIds|].
  2:{ cbn [fst snd db log]. split; [intros B HB; untouched_now; by apply Hframe|].
      split; [done|].
      unfold disciplined. cbn. split; [done|]. split; [by repeat constructor|done]. }
  destruct (bool_decide (0 < length tagIds)%nat); [destruct (forallb _ _)|];
    cbn [fst snd db log].
  - split; [intros B HB; untouched_now; by apply Hframe|]. split; [done|].
    unfold disciplined. cbn. split; [done|]. split; [by repeat constructor|done].
  - split; [intros B HB; untouched_now; by apply Hframe|].
    split; [intros r [= <-]; cbn; no_rows|].
    unfold disciplined. cbn. split; [done|]. split; [by repeat constructor|done].
  - split; [intros B HB; untouched_now; by apply Hframe|]. split; [done|].
    unfold disciplined. cbn. split; [done|]. split; [by repeat constructor|done].
Qed.

End Tenancy.


(** C1 (as amended). Whatever call principal [A] makes on a database
    with unique primary keys, the asset, tag and token rows of every other
    owner stay exactly as they were; the asset rows a response returns, the
    tag rows the tag routes return and the tokens the token routes list are
    [A]'s; and every statement is cleared for [A]: selects and updates on
    assets and tags and the token routes' statements carry the equality on
    [A]'s id, an asset or tag row is deleted by id alone after a select by
    that id and owner, and the extension routes look the token up by hash.
    (The tag rows attached to returned assets are not covered.) *)
Theorem owner_isolation env c d A :
  wf d → principal env c d = Some A → tenant_safe A env c d.
Proof.
  intros Hwf Hp. destruct c; cbn [principal] in Hp.
  - by apply tenant_ListAssets.
  - by apply tenant_GetAsset.
  - by apply tenant_PatchAsset.
  - by apply tenant_DeleteAsset.
  - by apply tenant_InitUpload.
  - by apply tenant_FinalizeUpload.
  - by apply tenant_ListTags.
  - by apply tenant_CreateTag.
  - by apply tenant_PatchTag.
  - by apply tenant_DeleteTag.
  - by apply tenant_ListTokens.
  - by apply tenant_CreateToken.
  - by apply tenant_DeleteToken.
  - by apply tenant_ExtVerify.
  - by apply tenant_ExtInit.
  - by apply tenant_ExtFinalize.
Qed.

(** The sample database is well formed. *)
Lemma shared_wf : wf Demo.shared.
Proof.
  split; cbn.
  - apply (bool_decide_unpack _). vm_compute. exact I.
  - apply (bool_decide_unpack _). vm_compute. exact I.
  - apply (bool_decide_unpack _). vm_compute. exact I.
  - intros t Ht. apply list_elem_of_In in Ht. cbn in Ht.
    destruct Ht as [<- | [<- | []]]; discriminate.
Qed.

(** The amended statement when tenant [u1] deletes its asset [a1] from the
    sample database. *)
Lemma owner_isolation_witness :
  tenant_safe "u1" (Demo.env_for (Some "u1") "n1" "0.4fzyo82mvyr" true)
    (DeleteAsset "a1") Demo.shared.
Proof.
  exact (owner_isolation (Demo.env_for (Some "u1") "n1" "0.4fzyo82mvyr" true)
           (DeleteAsset "a1") Demo.shared "u1" shared_wf eq_refl).
Defined.

(** C1 (as stated) fails twice over. Tenant [u1] patches its own asset
    [a1] with the id of tenant [u2]'s tag [t2]; the detail route and the
    listing then return [u2]'s tag row to [u1]. And the statement with which
    [u1]'s delete removes the asset row has the id as its only condition. *)
Lemma owner_isolation_counterexample :
  let env := Demo.env_for (Some "u1") "n1" "0.4fzyo82mvyr" true in
  let link_t2 := AssetRoute.mkPatchBody None None (Some ["t2"]) in
  let d1 := (respond env (PatchAsset "a1" link_t2) Demo.shared).2 in
  let t2 := Tag.mk "t2" "u2" "launch" "#ff0000" 1700000000000 in
  t2 ∈ owned_tags "u2" Demo.shared
  ∧ (∃ r, (respond env (GetAsset "a1") d1).1 = Some r ∧ attached_tags r = [t2])
  ∧ (∃ r, (respond env (ListAssets []) d1).1 = Some r ∧ attached_tags r = [t2])
  ∧ events env (DeleteAsset "a1") Demo.shared !! 4%nat
      = Some (Query (OnAssets DELETE [A_eq_id "a1"]))
  ∧ A_eq_ownerId "u1" ∉ [A_eq_id "a1"].
Proof.
  cbv zeta. split; [vm_compute; by repeat constructor|].
  split; [eexists; split; vm_compute; reflexivity|].
  split; [eexists; split; vm_compute; reflexivity|].
  split; [vm_compute; reflexivity|].
  intros Hin. apply list_elem_of_singleton in Hin. discriminate Hin.
Qed.

(** ** The content script never lists a URL twice *)
Section Dedup.
Import Content.
Context (p : Page).

Lemma tidy_empty : tidy (mkScan [] ∅ 0).
Proof. split; [constructor | intros c Hc; inversion Hc]. Qed.

Lemma has_false st u : has st u = false → u ∉ seenUrls st.
Proof. unfold has. intros H. by apply bool_decide_eq_false in H. Qed.

Lemma add_push_tidy u c st :
  tidy st → u ∉ seenUrls st → (∀ t r, url (c t r) = u) →
  tidy (add_push p u c st).
Proof.
  intros [Hnd Hseen] Hu Hc. unfold add_push. split; simpl.
  - rewrite map_app. simpl. rewrite Hc. apply NoDup_app. split; [done|].
    split; [|apply NoDup_singleton].
    intros x Hx Hx'. apply list_elem_of_singleton in Hx' as ->.
    apply list_elem_of_fmap in Hx as (c' & -> & Hc').
    apply Hu. by apply Hseen.
  - intros c' Hc'. apply elem_of_app in Hc' as [Hc' | Hc'].
    + apply elem_of_union_r. by apply Hseen.
    + apply list_elem_of_singleton in Hc' as ->. rewrite Hc. set_solver.
Qed.

Lemma scanImages_from_tidy imgs i st :
  tidy st → tidy (scanImages_from p imgs i st).
Proof.
  revert i st. induction imgs as [|img imgs IH]; intros i st Hst; simpl; [done|].
  destruct (negb _ || _ || has st _) eqn:Hskip; [by apply IH|].
  destruct (bool_decide _ || bool_decide _); [by apply IH|].
  apply IH. apply add_push_tidy; [done| |done].
  apply has_false. apply orb_false_iff in Hskip. tauto.
Qed.

Lemma scanBackgroundImages_from_tidy els i st :
  tidy st → tidy (scanBackgroundImages_from p els i st).
Proof.
  revert i st. induction els as [|el els IH]; intros i st Hst; simpl; [done|].
  destruct (bg_match el) as [u|]; [|by apply IH].
  destruct (Js.startsWith u "data:" || has st u) eqn:Hskip; [by apply IH|].
  apply IH. apply add_push_tidy; [done| |done].
  apply has_false. apply orb_false_iff in Hskip. tauto.
Qed.

Lemma handleBlobVideo_tidy v i st : tidy st → tidy (handleBlobVideo p v i st).
Proof.
  intros Hst. unfold handleBlobVideo.
  destruct (Js.truthy _ && negb (has st _)) eqn:Hgo; [|done].
  apply add_push_tidy; [done| |done].
  apply has_false. apply andb_true_iff in Hgo as [_ Hgo].
  by apply negb_true_iff in Hgo.
Qed.

Lemma scanVideos_from_tidy vs i st :
  tidy st → tidy (scanVideos_from p vs i st).
Proof.
  revert i st. induction vs as [|v vs IH]; intros i st Hst; simpl; [done|].
  destruct (negb _ || _ || _).
  - apply IH. destruct (_ || _); [by apply handleBlobVideo_tidy | done].
  - destruct (has st (getVideoUrl v)) eqn:Hseen; [by apply IH|].
    apply IH. apply add_push_tidy; [done| by apply has_false |done].
Qed.

Lemma instagram_matches_tidy label ty ms st :
  tidy st → tidy (instagram_matches p label ty ms st).1.
Proof.
  revert st. induction ms as [|m ms IH]; intros st Hst; simpl; [done|].
  destruct (JSON_parse_quoted p m) as [u|]; [|done].
  apply IH. destruct (has st u) eqn:Hseen; simpl; [done|].
  apply add_push_tidy; [done| by apply has_false |done].
Qed.

Lemma scanInstagramMedia_from_tidy scripts st :
  tidy st → tidy (scanInstagramMedia_from p scripts st).
Proof.
  revert st. induction scripts as [|text scripts IH]; intros st Hst; simpl; [done|].
  pose proof (instagram_matches_tidy "ig-video-" video
                (matchAll INSTAGRAM_VIDEO_REGEX text) st Hst) as H1.
  destruct (instagram_matches p "ig-video-" video _ st) as [st1 [|]]; [done|].
  pose proof (instagram_matches_tidy "ig-image-" image
                (matchAll INSTAGRAM_IMAGE_REGEX text) st1 H1) as H2.
  destruct (instagram_matches p "ig-image-" image _ st1) as [st2 [|]]; [done|].
  by apply IH.
Qed.

Lemma tiktok_matches_tidy ms st : tidy st → tidy (tiktok_matches p ms st).
Proof.
  revert st. induction ms as [|m ms IH]; intros st Hst; simpl; [done|].
  destruct (JSON_parse_quoted p m) as [u|]; [|by apply IH].
  apply IH. destruct (has st u || _) eqn:Hskip; simpl; [done|].
  apply add_push_tidy; [done| |done].
  apply has_false. apply orb_false_iff in Hskip. tauto.
Qed.

Lemma scanTikTokMedia_tidy st : tidy st → tidy (scanTikTokMedia p st).
Proof.
  unfold scanTikTokMedia. generalize (hydrationScripts p). intros scripts.
  revert st. induction scripts as [|text scripts IH]; intros st Hst; simpl; [done|].
  apply IH. by apply tiktok_matches_tidy.
Qed.

Lemma scanPlatformSpecificMedia_tidy st :
  tidy st → tidy (scanPlatformSpecificMedia p st).
Proof.
  intros Hst. unfold scanPlatformSpecificMedia.
  assert (tidy (if Js.includes (hostname p) "instagram.com"
                then scanInstagramMedia p st else st)) as H1.
  { destruct (Js.includes _ _); [by apply scanInstagramMedia_from_tidy | done]. }
  destruct (Js.includes (hostname p) "tiktok.com"); [|done].
  by apply scanTikTokMedia_tidy.
Qed.

End Dedup.

(** C9. The candidates [getCandidates] returns have pairwise distinct
    URLs, whatever the page holds: the image, background, video and
    platform passes all test and extend the one set [seenUrls]. *)
Theorem getCandidates_urls_distinct (p : Content.Page) :
  NoDup (map Content.url (Content.candidates (Content.getCandidates p))).
Proof.
  unfold Content.getCandidates. simpl.
  apply scanPlatformSpecificMedia_tidy, scanVideos_from_tidy,
    scanBackgroundImages_from_tidy, scanImages_from_tidy, tidy_empty.
Qed.

(** ** Deleting a tag, deleting an asset *)
Lemma delete_rows_filter {R} (hit : R → bool) (P : R → Prop)
    `{∀ r, Decision (P r)} (l : list R) :
  (∀ r, hit r = true ↔ ¬ P r) → delete_rows hit l = filter P l.
Proof.
  intros Hhit. unfold delete_rows. apply list_filter_iff. intros r.
  destruct (hit r) eqn:Hr; cbn.
  - split; [done|]. intros HP. by apply Hhit in Hr.
  - split; [|done]. intros _. destruct (decide (P r)) as [|Hn]; [done|].
    apply Hhit in Hn. congruence.
Qed.

Lemma holds_link_tag id l :
  all_hold link_holds [L_eq_tagId id] l = true ↔ AssetTag.tagId l = id.
Proof. unfold all_hold. simpl. by rewrite andb_true_r, bool_decide_eq_true. Qed.

Lemma holds_link_asset id l :
  all_hold link_holds [L_eq_assetId id] l = true ↔ AssetTag.assetId l = id.
Proof. unfold all_hold. simpl. by rewrite andb_true_r, bool_decide_eq_true. Qed.

Lemma first_filter_found {R} (P : R → Prop) `{∀ r, Decision (P r)} (l : list R) a :
  a ∈ l → P a → ∃ b, first (filter P l) = Some b.
Proof.
  intros Ha HP. destruct (filter P l) as [|b l'] eqn:Hf; [|by eexists].
  assert (a ∈ filter P l) as Hin by (apply list_elem_of_filter; done).
  rewrite Hf in Hin. inversion Hin.
Qed.

(** C7. Deleting an owned tag succeeds, first deletes exactly the
    asset-tag rows that reference the tag, then the tag row, and leaves the
    assets table (and the tokens) as it was. *)
Theorem tag_delete_keeps_assets env id user d t :
  getUser env = Some user →
  t ∈ tags d → Tag.id t = id → Tag.ownerId t = user →
  ∃ d',
    respond env (DeleteTag id) d = (Some (ok B_success), d')
    ∧ assetTags d' = filter (λ l, AssetTag.tagId l ≠ id) (assetTags d)
    ∧ tags d' = filter (λ x, Tag.id x ≠ id) (tags d)
    ∧ assets d' = assets d
    ∧ personalAccessTokens d' = personalAccessTokens d
    ∧ events env (DeleteTag id) d =
        [Query (OnTags SELECT [T_eq_id id; T_eq_ownerId user]);
         Query (OnAssetTags DELETE [L_eq_tagId id]);
         Query (OnTags DELETE [T_eq_id id])].
Proof.
  intros Hu Hin Hid Hown. unfold respond, events, serve.
  rewrite (TagRoute_DELETE_run env id user) by done. cbn zeta. cbn [db log app].
  destruct (first_filter_found
              (λ r, all_hold tag_holds [T_eq_id id; T_eq_ownerId user] r)
              (tags d) t Hin) as [b ->].
  { apply Is_true_true, holds_tag_id_owner. done. }
  eexists. split; [reflexivity|]. cbn [assetTags tags assets personalAccessTokens
    set_tags set_assetTags snd db log].
  split; [|split; [|done]].
  - apply delete_rows_filter. intros l. rewrite holds_link_tag.
    split; [intros ->; tauto|]. intros Hn.
    destruct (decide (AssetTag.tagId l = id)); [done | tauto].
  - apply delete_rows_filter. intros x. rewrite holds_tag_id.
    split; [intros ->; tauto|]. intros Hn.
    destruct (decide (Tag.id x = id)); [done | tauto].
Qed.

(** The statement at the sample database: tenant [u1] deletes tag [t1]. *)
Lemma tag_delete_keeps_assets_witness :
  ∃ d',
    respond (Demo.env_for (Some "u1") "n1" "0.4fzyo82mvyr" true)
      (DeleteTag "t1") Demo.shared = (Some (ok B_success), d')
    ∧ assetTags d' = [AssetTag.mk "b1" "t2"]
    ∧ tags d' = [Tag.mk "t2" "u2" "launch" "#ff0000" 1700000000000]
    ∧ assets d' = assets Demo.shared
    ∧ personalAccessTokens d' = personalAccessTokens Demo.shared
    ∧ events (Demo.env_for (Some "u1") "n1" "0.4fzyo82mvyr" true)
        (DeleteTag "t1") Demo.shared =
        [Query (OnTags SELECT [T_eq_id "t1"; T_eq_ownerId "u1"]);
         Query (OnAssetTags DELETE [L_eq_tagId "t1"]);
         Query (OnTags DELETE [T_eq_id "t1"])].
Proof.
  apply (tag_delete_keeps_assets
           (Demo.env_for (Some "u1") "n1" "0.4fzyo82mvyr" true) "t1" "u1"
           Demo.shared (Tag.mk "t1" "u1" "brand" "#6b7280" 1700000000000));
    [reflexivity | left | reflexivity | reflexivity].
Defined.

(** After the explicit delete of the links the cascade finds none left. *)
Lemma delete_cascade_idle id (links : list AssetTag.t) (ids : list string) :
  (∀ i, i ∈ ids → i = id) →
  delete_rows (λ l, bool_decide (AssetTag.assetId l ∈ ids))
    (delete_rows (all_hold link_holds [L_eq_assetId id]) links)
  = filter (λ l, AssetTag.assetId l ≠ id) links.
Proof.
  intros Hids.
  rewrite (delete_rows_filter _ (λ l, AssetTag.assetId l ≠ id) links).
  2:{ intros l. rewrite holds_link_asset. split; [intros ->; tauto|].
      intros Hn. destruct (decide (AssetTag.assetId l = id)); [done | tauto]. }
  unfold delete_rows. apply list_filter_filter_r.
  intros l Hl. cbn. rewrite bool_decide_eq_false_2; [done|].
  intros Hin. apply Hl. by apply Hids.
Qed.

(** C6. Deleting an owned asset asks the storage provider to remove the
    primary file and the preview, in that order, and whatever the provider
    answers to either request the handler goes on to delete the asset's tag
    links and the asset row and answers with success. *)
Theorem asset_delete_best_effort env id user d a :
  getUser env = Some user → wf d →
  a ∈ assets d → Asset.id a = id → Asset.ownerId a = user →
  ∃ d',
    respond env (DeleteAsset id) d = (Some (ok B_success), d')
    ∧ assetTags d' = filter (λ l, AssetTag.assetId l ≠ id) (assetTags d)
    ∧ assets d' = filter (λ r, Asset.id r ≠ id) (assets d)
    ∧ events env (DeleteAsset id) d =
        [Query (OnAssets SELECT [A_eq_id id; A_eq_ownerId user]);
         StorageRemove (Asset.storageBucket a) (Asset.storagePath a)]
        ++ match AssetRoute.preview_of a with
           | Some (bucket, path) => [StorageRemove bucket path]
           | None => []
           end
        ++ [Query (OnAssetTags DELETE [L_eq_assetId id]);
            Query (OnAssets DELETE [A_eq_id id])]
    ∧ (∀ bucket path,
         Asset.previewBucket a = Some bucket → Asset.previewPath a = Some path →
         bucket ≠ "" → path ≠ "" →
         AssetRoute.preview_of a = Some (bucket, path)).
Proof.
  intros Hu Hwf Hin Hid Hown. unfold respond, events, serve.
  rewrite (AssetRoute_DELETE_run env id user) by done. cbn zeta. cbn [db log app].
  rewrite (filter_by_key Asset.id _ (assets d) a); eauto using wf_asset_ids.
  2:{ apply Is_true_true, holds_id_owner. done. }
  2:{ intros r [Hr _]%Is_true_true%holds_id_owner. congruence. }
  cbn [first head]. eexists. split; [reflexivity|].
  cbn [assetTags assets set_assets set_assetTags snd db log].
  split; [|split; [|split; [done|]]].
  - apply delete_cascade_idle.
    intros i (r & -> & Hr)%list_elem_of_fmap.
    apply list_elem_of_filter in Hr as [Hr _].
    by apply Is_true_true, holds_asset_id in Hr.
  - apply delete_rows_filter. intros r. rewrite holds_asset_id.
    split; [intros ->; tauto|]. intros Hn.
    destruct (decide (Asset.id r = id)); [done | tauto].
  - intros bucket path Hb Hp Hbn Hpn. unfold AssetRoute.preview_of.
    rewrite Hb, Hp. destruct bucket, path; done.
Qed.

(** The statement at the sample database, with a storage provider that
    refuses every removal. *)
Lemma asset_delete_best_effort_witness :
  let env := Demo.env_for (Some "u1") "n1" "0.4fzyo82mvyr" false in
  storage_remove env "assets" "u1/1700000000000-4fzyo8-ad.png" = false
  ∧ ∃ d',
    respond env (DeleteAsset "a1") Demo.shared = (Some (ok B_success), d')
    ∧ assetTags d' = [AssetTag.mk "b1" "t2"]
    ∧ assets d' = [Demo.asset_of "b1" "u2"]
    ∧ events env (DeleteAsset "a1") Demo.shared =
        [Query (OnAssets SELECT [A_eq_id "a1"; A_eq_ownerId "u1"]);
         StorageRemove "assets" "u1/1700000000000-4fzyo8-ad.png";
         StorageRemove "previews" "previews/u1/1700000000001-4fzyo8-preview-ad.png";
         Query (OnAssetTags DELETE [L_eq_assetId "a1"]);
         Query (OnAssets DELETE [A_eq_id "a1"])]
    ∧ (∀ bucket path,
         Some "previews" = Some bucket →
         Some "previews/u1/1700000000001-4fzyo8-preview-ad.png" = Some path →
         bucket ≠ "" → path ≠ "" →
         AssetRoute.preview_of (Demo.asset_of "a1" "u1") = Some (bucket, path)).
Proof.
  split; [reflexivity|].
  apply (asset_delete_best_effort
           (Demo.env_for (Some "u1") "n1" "0.4fzyo82mvyr" false) "a1" "u1"
           Demo.shared (Demo.asset_of "a1" "u1"));
    [reflexivity | apply shared_wf | left | reflexivity | reflexivity].
Defined.

(** ** Finalize overwrites the metadata *)
Lemma num_or_null_spec o : truthy_or_null 0 o (Js.num_or_null o).
Proof.
  destruct o as [v|]; cbn; [|done]. destruct (Z.eqb_spec v 0); split; congruence.
Qed.

Lemma or_null_spec o : truthy_or_null "" o (Js.or_null o).
Proof.
  destruct o as [v|]; cbn; [|done]. destruct v; cbn; split; congruence.
Qed.

(** [Number.prototype.toString] never returns the empty string, so a
    duration that is supplied is stored, zero included. *)
Lemma pretty_N_go_nonempty x s : s ≠ "" → pretty_N_go x s ≠ "".
Proof.
  revert s. induction (N.lt_wf_0 x) as [x _ IH]; intros s Hs.
  destruct (decide (x = 0)%N) as [-> | Hx]; [by rewrite pretty_N_go_0|].
  rewrite pretty_N_go_step by lia. apply IH; [|done].
  apply N.div_lt; lia.
Qed.

Lemma pretty_positive_nonempty (p : positive) : pretty p ≠ "".
Proof.
  unfold pretty, pretty_positive, pretty, pretty_N.
  rewrite decide_False by done. rewrite pretty_N_go_step by lia.
  by apply pretty_N_go_nonempty.
Qed.

Lemma toString_truthy n : Js.truthy (Js.toString n) = true.
Proof.
  unfold Js.toString, pretty, pretty_Z. destruct n as [|p|p]; [done| |done].
  pose proof (pretty_positive_nonempty p). by destruct (pretty p).
Qed.

(** A number that is not whole is written with a sign or with the digits
    before its point, so that a duration that is supplied is stored, be it
    zero, whole or not. *)
Lemma number_toString_truthy x : Js.truthy (Js.number_toString x) = true.
Proof.
  unfold Js.number_toString.
  destruct (Js.shortest (Js.mantissa x) (Js.scale x)) as [m [|s]];
    [apply toString_truthy|].
  destruct (m <? 0); [reflexivity|].
  pose proof (toString_truthy (Z.abs m / 10 ^ Z.of_nat (S s))) as Hint.
  unfold Js.toString in Hint.
  by destruct (pretty (Z.abs m / 10 ^ Z.of_nat (S s))).
Qed.

Lemma duration_or_null_spec o :
  FinalizeUpload.duration_or_null o = Js.number_toString <$> o.
Proof.
  unfold FinalizeUpload.duration_or_null. destruct o as [v|]; cbn; [|done].
  by rewrite number_toString_truthy.
Qed.

Lemma update_rows_keys {R} (key : R → string) (hit : R → bool) (set : R → R)
    (l : list R) :
  (∀ r, key (set r) = key r) →
  map key (update_rows hit set l) = map key l.
Proof.
  intros Hk. unfold update_rows. rewrite map_map. apply map_ext.
  intros r. destruct (hit r); [apply Hk | done].
Qed.

Lemma filter_key_update_rows {R} (key : R → string) (hit : R → bool)
    (set : R → R) (l : list R) (a : R) :
  NoDup (map key l) → a ∈ l → hit a = true → (∀ r, key (set r) = key r) →
  filter (λ r, key r = key a) (update_rows hit set l) = [set a].
Proof.
  intros Hnd Ha Hhit Hk.
  apply (filter_by_key key).
  - by rewrite update_rows_keys.
  - unfold update_rows. apply list_elem_of_fmap. exists a. by rewrite Hhit.
  - apply Hk.
  - intros r ->. by rewrite Hk.
Qed.

(** The row a statement picks by id and owner, on a table whose ids are
    unique. *)
Lemma first_by_id_owner id user d a :
  wf d →
  first (filter (λ r, all_hold asset_holds [A_eq_id id; A_eq_ownerId user] r)
           (assets d)) = Some a →
  a ∈ assets d ∧ Asset.id a = id ∧ Asset.ownerId a = user.
Proof.
  intros Hwf Hfirst. unfold first in Hfirst.
  assert (a ∈ filter (λ r, all_hold asset_holds [A_eq_id id; A_eq_ownerId user] r)
                (assets d)) as Hin.
  { destruct (filter _ (assets d)); [done|]. injection Hfirst as ->. left. }
  apply list_elem_of_filter in Hin as [[Hid Hown]%Is_true_true%holds_id_owner Hin].
  done.
Qed.

Lemma or_null_Some o (v : string) : Js.or_null o = Some v → o = Some v.
Proof. destruct o as [s|]; [|done]. cbn. by destruct (Js.truthy s). Qed.

(** C10 (as amended). A finalize call that succeeds has found the asset
    and has overwritten, whatever the row held before: on the web route
    width, height, size, hash and notes, each with the request's value when
    truthy and null otherwise, and the duration with the decimal string of
    the request's value when one is given (zero gives ["0"], twelve and a
    half gives ["12.5"]) and null when none is; on the extension route the
    same for width, height, hash and duration, while size and notes keep
    what the row held. *)
Theorem finalize_overwrites :
  (∀ env req d r d',
     wf d →
     respond env (FinalizeUpload req) d = (Some r, d') → status r = 200%nat →
     ∃ id a a',
       FinalizeUpload.assetId req = Some id
       ∧ a ∈ assets d ∧ Asset.id a = id ∧ getUser env = Some (Asset.ownerId a)
       ∧ body r = B_asset a'
       ∧ filter (λ x, Asset.id x = id) (assets d') = [a']
       ∧ Asset.status a' = ready
       ∧ truthy_or_null 0 (FinalizeUpload.width req) (Asset.width a')
       ∧ truthy_or_null 0 (FinalizeUpload.height req) (Asset.height a')
       ∧ truthy_or_null 0 (FinalizeUpload.sizeBytes req) (Asset.sizeBytes a')
       ∧ truthy_or_null "" (FinalizeUpload.sha256 req) (Asset.sha256 a')
       ∧ truthy_or_null "" (FinalizeUpload.notes req) (Asset.notes a')
       ∧ Asset.durationSeconds a'
           = Js.number_toString <$> FinalizeUpload.durationSeconds req)
  ∧ (∀ env h req d r d',
       wf d →
       respond env (ExtFinalize h req) d = (Some r, d') → status r = 200%nat →
       ∃ id a a',
         ExtensionFinalize.assetId req = Some id
         ∧ a ∈ assets d ∧ Asset.id a = id
         ∧ principal env (ExtFinalize h req) d = Some (Asset.ownerId a)
         ∧ body r = B_asset a'
         ∧ filter (λ x, Asset.id x = id) (assets d') = [a']
         ∧ Asset.status a' = ready
         ∧ truthy_or_null 0 (ExtensionFinalize.width req) (Asset.width a')
         ∧ truthy_or_null 0 (ExtensionFinalize.height req) (Asset.height a')
         ∧ truthy_or_null "" (ExtensionFinalize.sha256 req) (Asset.sha256 a')
         ∧ Asset.durationSeconds a'
             = Js.number_toString <$> ExtensionFinalize.durationSeconds req
         ∧ Asset.sizeBytes a' = Asset.sizeBytes a
         ∧ Asset.notes a' = Asset.notes a).
Proof.
  split.
  - intros env req d r d' Hwf Hrun Hok.
    unfold respond, serve in Hrun.
    destruct (getUser env) as [user|] eqn:Hu.
    2:{ unfold FinalizeUpload.POST, handler, try_catch in Hrun. rewrite Hu in Hrun.
        injection Hrun as <- <-. discriminate Hok. }
    rewrite (FinalizeUpload_POST_total env req user) in Hrun by done.
    destruct (Js.or_null (FinalizeUpload.assetId req)) as [id|] eqn:Hid.
    2:{ injection Hrun as <- <-. discriminate Hok. }
    apply or_null_Some in Hid. cbn zeta in Hrun.
    destruct (negb _).
    { injection Hrun as <- <-. discriminate Hok. }
    cbn [db] in Hrun.
    destruct (first _) as [a|] eqn:Hfirst.
    2:{ injection Hrun as <- <-. discriminate Hok. }
    apply first_by_id_owner in Hfirst as (Ha & Hida & Hown); [|done].
    injection Hrun as <- <-.
    exists id, a, (FinalizeUpload.finalized env req a).
    do 3 (split; [done|]). split; [by rewrite Hown|]. split; [done|].
    split.
    { cbn [assets set_assets]. subst id.
      apply (filter_key_update_rows Asset.id); [apply Hwf | done | | done].
      by apply holds_id_owner. }
    split; [done|]. cbn.
    repeat split; try apply num_or_null_spec; try apply or_null_spec.
    apply duration_or_null_spec.
  - intros env h req d r d' Hwf Hrun Hok.
    unfold respond, serve in Hrun. rewrite ExtensionFinalize_POST_run in Hrun.
    cbn zeta in Hrun. cbn [db] in Hrun.
    destruct (principal env (ExtFinalize h req) d) as [user|] eqn:Hp.
    2:{ injection Hrun as <- <-. discriminate Hok. }
    destruct (Js.or_null (ExtensionFinalize.assetId req)) as [id|] eqn:Hid.
    2:{ injection Hrun as <- <-. discriminate Hok. }
    apply or_null_Some in Hid.
    destruct (negb _).
    { injection Hrun as <- <-. discriminate Hok. }
    destruct (first _) as [a|] eqn:Hfirst.
    2:{ injection Hrun as <- <-. discriminate Hok. }
    apply first_by_id_owner in Hfirst as (Ha & Hida & Hown); [|done].
    assert (filter (λ x, Asset.id x = id)
              (update_rows (all_hold asset_holds [A_eq_id id; A_eq_ownerId user])
                 (ExtensionFinalize.finalized env req) (assets d))
            = [ExtensionFinalize.finalized env req a]) as Hrow.
    { subst id.
      apply (filter_key_update_rows Asset.id); [apply Hwf | done | | done].
      by apply holds_id_owner. }
    assert (truthy_or_null 0 (ExtensionFinalize.width req)
              (Asset.width (ExtensionFinalize.finalized env req a))
            ∧ truthy_or_null 0 (ExtensionFinalize.height req)
                (Asset.height (ExtensionFinalize.finalized env req a))
            ∧ truthy_or_null "" (ExtensionFinalize.sha256 req)
                (Asset.sha256 (ExtensionFinalize.finalized env req a))
            ∧ Asset.durationSeconds (ExtensionFinalize.finalized env req a)
                = Js.number_toString <$> ExtensionFinalize.durationSeconds req
            ∧ Asset.sizeBytes (ExtensionFinalize.finalized env req a)
                = Asset.sizeBytes a
            ∧ Asset.notes (ExtensionFinalize.finalized env req a)
                = Asset.notes a) as Hfields.
    { cbn. repeat split; try apply num_or_null_spec; try apply or_null_spec.
      apply duration_or_null_spec. }
    exists id, a, (ExtensionFinalize.finalized env req a).
    do 3 (split; [done|]). split; [by rewrite Hown|].
    destruct (ExtensionFinalize.tagIds req) as [tagIds|].
    2:{ injection Hrun as <- <-. cbn [db assets set_assets body]. by split. }
    destruct (bool_decide (0 < length tagIds)%nat).
    2:{ injection Hrun as <- <-. cbn [db assets set_assets body]. by split. }
    destruct (forallb _ _).
    2:{ injection Hrun as <- <-. discriminate Hok. }
    injection Hrun as <- <-. cbn [db assets set_assets set_assetTags body].
    by split.
Qed.

(** The amended statement when tenant [u1] finalizes its asset [a1] as a
    clip of 1280 by 720 that lasts 12.345 seconds: the size, the hash and
    the notes the row held are gone. *)
Lemma finalize_overwrites_witness :
  let env := Demo.env_for (Some "u1") "n1" "0.4fzyo82mvyr" true in
  ∃ r d' id a a',
    respond env (FinalizeUpload Demo.finalize_clip) Demo.shared = (Some r, d')
    ∧ status r = 200%nat
    ∧ FinalizeUpload.assetId Demo.finalize_clip = Some id
    ∧ a ∈ assets Demo.shared ∧ Asset.id a = id
    ∧ getUser env = Some (Asset.ownerId a)
    ∧ body r = B_asset a'
    ∧ filter (λ x, Asset.id x = id) (assets d') = [a']
    ∧ Asset.status a' = ready
    ∧ truthy_or_null 0 (Some 1280) (Asset.width a')
    ∧ truthy_or_null 0 (Some 720) (Asset.height a')
    ∧ truthy_or_null 0 None (Asset.sizeBytes a')
    ∧ truthy_or_null "" None (Asset.sha256 a')
    ∧ truthy_or_null "" None (Asset.notes a')
    ∧ Asset.durationSeconds a' = Some "12.345".
Proof.
  intros env.
  assert (∃ r d',
            respond env (FinalizeUpload Demo.finalize_clip) Demo.shared
              = (Some r, d')
            ∧ status r = 200%nat) as (r & d' & Hrun & Hok).
  { eexists _, _. split; [by_vm | reflexivity]. }
  destruct (proj1 finalize_overwrites env Demo.finalize_clip Demo.shared r d'
              shared_wf Hrun Hok) as (id & a & a' & Hrow).
  exists r, d', id, a, a'. split; [done|]. split; [done|]. exact Hrow.
Defined.

(** C10 (as stated) fails on both routes. On the web route a duration of
    zero is stored as the string ["0"], not as null. On the extension route
    a request that omits everything leaves the size and the notes of the
    row as they were. *)
Lemma finalize_overwrites_counterexample :
  let web := Demo.env_for (Some "u1") "n1" "0.4fzyo82mvyr" true in
  let ext := Demo.env_for None "n1" "0.4fzyo82mvyr" true in
  (∃ a' d',
     respond web (FinalizeUpload Demo.finalize_zero_duration) Demo.shared
       = (Some (ok (B_asset a')), d')
     ∧ FinalizeUpload.durationSeconds Demo.finalize_zero_duration
         = Some (Js.whole 0)
     ∧ Asset.durationSeconds a' = Some "0")
  ∧ (∃ a' d',
       respond ext (ExtFinalize Demo.bearer_one Demo.finalize_bare) Demo.shared
         = (Some (ok (B_asset a')), d')
       ∧ Asset.id a' = "a1"
       ∧ Asset.sizeBytes a' = Some 2048
       ∧ Asset.notes a' = Some "spring campaign").
Proof.
  split.
  - eexists _, _. split; [by_vm|]. split; reflexivity.
  - eexists _, _. split; [by_vm|]. repeat split; reflexivity.
Qed.

(** ** The tag filter of the listing *)

(** An asset the sub-query selects is linked to every requested tag: its
    distinct matched tag ids are among the requested ones and are as many
    as the request lists, so they are all of them. *)
Lemma assetsWithTags_rows_all tagIds links a t :
  a ∈ assetsWithTags_rows tagIds links → t ∈ tagIds →
  AssetTag.mk a t ∈ links.
Proof.
  unfold assetsWithTags_rows, groupBy_assetId_having, count_distinct_tagId.
  set (matched := filter _ links).
  intros [Hcount _]%list_elem_of_filter Ht.
  set (mine := filter (λ l, AssetTag.assetId l = a) matched) in Hcount.
  set (D := remove_dups (map AssetTag.tagId mine)) in Hcount.
  assert (D ⊆+ tagIds) as Hsub.
  { apply NoDup_submseteq; [apply NoDup_remove_dups|].
    intros x Hx. unfold D in Hx. rewrite elem_of_remove_dups in Hx.
    apply list_elem_of_fmap in Hx as (l & -> & Hl).
    apply list_elem_of_filter in Hl as [_ Hl].
    apply list_elem_of_filter in Hl as [Hl _].
    apply Is_true_true in Hl. unfold all_hold in Hl. cbn in Hl.
    rewrite andb_true_r in Hl. by apply bool_decide_eq_true in Hl. }
  apply submseteq_length_Permutation in Hsub; [|lia].
  rewrite <- Hsub in Ht. unfold D in Ht. rewrite elem_of_remove_dups in Ht.
  apply list_elem_of_fmap in Ht as (l & -> & Hl).
  apply list_elem_of_filter in Hl as [<- Hl].
  apply list_elem_of_filter in Hl as [_ Hl]. by destruct l.
Qed.

Lemma assetsWithTags_rows_count tagIds links a :
  a ∈ assetsWithTags_rows tagIds links →
  count_distinct_tagId
    (filter (λ l, AssetTag.assetId l = a)
       (filter (λ l, AssetTag.tagId l ∈ tagIds) links))
  = length tagIds.
Proof.
  unfold assetsWithTags_rows, groupBy_assetId_having.
  intros [Hcount _]%list_elem_of_filter. rewrite <- Hcount.
  f_equal. f_equal. apply list_filter_iff. intros l.
  unfold all_hold. cbn. rewrite andb_true_r.
  split; [apply bool_decide_pack | apply bool_decide_unpack].
Qed.

(** C2. When the request names at least one tag id, every asset of the
    page the listing returns is linked to every one of the requested ids,
    so none that holds only some of them is returned; the assets were
    selected by grouping the matching asset-tag rows by asset and keeping
    the groups whose number of distinct tag ids is the number of ids
    requested. *)
Theorem listing_tag_intersection env sp d r items pagination d' item t :
  respond env (ListAssets sp) d = (Some r, d') →
  body r = B_assets items pagination →
  let tagIds := AssetsRoute.tagIds (AssetsRoute.parseQueryParams sp) in
  tagIds ≠ [] → item ∈ items → t ∈ tagIds →
  AssetTag.mk (Asset.id (lp_asset item)) t ∈ assetTags d
  ∧ count_distinct_tagId
      (filter (λ l, AssetTag.assetId l = Asset.id (lp_asset item))
         (filter (λ l, AssetTag.tagId l ∈ tagIds) (assetTags d)))
    = length tagIds.
Proof.
  intros Hrun Hbody tagIds Hne Hitem Ht. unfold respond, serve in Hrun.
  destruct (getUser env) as [user|] eqn:Hu.
  2:{ unfold AssetsRoute.GET, handler, try_catch in Hrun. rewrite Hu in Hrun.
      injection Hrun as <- _. discriminate Hbody. }
  destruct (AssetsRoute_GET_summary env sp user (mkWorld d []) Hu)
    as (r0 & evs & Hget & _ & _ & _ & Hrows).
  rewrite Hget in Hrun. injection Hrun as -> _.
  destruct (Hrows (lp_asset item)) as (_ & _ & Hsel).
  { unfold returned_assets. rewrite Hbody. apply list_elem_of_fmap. eauto. }
  specialize (Hsel Hne). cbn [db] in Hsel. split.
  - by apply (assetsWithTags_rows_all tagIds).
  - by apply assetsWithTags_rows_count.
Qed.

(** The request [?tags=t1,t2] on the sample library: only [a1], which holds
    both tags, is on the page. *)
Lemma listing_tag_intersection_witness :
  let env := Demo.env_for (Some "u1") "n1" "0.4fzyo82mvyr" true in
  (∃ r item pagination,
     (respond env (ListAssets [("tags", "t1,t2")]) Demo.library).1 = Some r
     ∧ body r = B_assets [item] pagination
     ∧ lp_asset item = Demo.asset_of "a1" "u1")
  ∧ AssetTag.mk "a1" "t2" ∈ assetTags Demo.library
  ∧ count_distinct_tagId
      (filter (λ l, AssetTag.assetId l = "a1")
         (filter (λ l, AssetTag.tagId l ∈ ["t1"; "t2"]) (assetTags Demo.library)))
    = 2%nat.
Proof.
  intros env. split.
  { do 3 eexists. split; [by_vm|]. split; reflexivity. }
  eapply (listing_tag_intersection env [("tags", "t1,t2")] Demo.library
            _ _ _ _ (mkAssetWithPreview (Demo.asset_of "a1" "u1") _ _) "t2").
  - by_vm.
  - reflexivity.
  - discriminate.
  - left.
  - right. left.
Defined.

(** ** Personal access tokens *)

(** The principal of an extension call is defined exactly by a non-revoked
    row with the hash of the bearer token. *)
Lemma app_cons c p s : String c p +:+ s = String c (p +:+ s).
Proof. reflexivity. Qed.

Lemma startsWith_app p s : Js.startsWith (p +:+ s) p = true.
Proof.
  unfold Js.startsWith. induction p as [|c p IH]; [by destruct s|].
  rewrite app_cons. cbn. rewrite IH. by destruct (ascii_dec c c).
Qed.

Lemma slice_app p s : Js.slice (String.length p) (p +:+ s) = s.
Proof.
  induction p as [|c p IH]; [by destruct s|]. rewrite app_cons. cbn. apply IH.
Qed.

Lemma startsWith_split s p :
  Js.startsWith s p = true → s = p +:+ Js.slice (String.length p) s.
Proof.
  unfold Js.startsWith. revert s. induction p as [|c p IH]; intros s H.
  - by destruct s.
  - destruct s as [|c' s]; cbn in H; [done|].
    destruct (ascii_dec c c') as [->|]; [|done].
    rewrite app_cons. cbn. f_equal. by apply IH.
Qed.

Lemma holds_hash_live hash r :
  all_hold token_holds [K_eq_tokenHash hash; K_isNull_revokedAt] r = true ↔
  Token.tokenHash r = hash ∧ Token.revokedAt r = None.
Proof.
  unfold all_hold. simpl. rewrite andb_true_r, andb_true_iff, !bool_decide_eq_true.
  done.
Qed.

Lemma bearer_row_valid env h d pat :
  bearer_row env h d = Some pat → valid_bearer env h d.
Proof.
  unfold bearer_row. destruct h as [header|]; [|done].
  destruct (Js.startsWith header "Bearer ") eqn:Hb; [|done].
  intros [Hin [Hh Hr]%Is_true_true%holds_hash_live]%first_filter_elem.
  exists (Js.slice 7 header), pat. split; [|done].
  f_equal. by apply (startsWith_split header "Bearer ").
Qed.

Lemma valid_bearer_row env h d :
  valid_bearer env h d → ∃ pat, bearer_row env h d = Some pat
                                ∧ pat ∈ personalAccessTokens d.
Proof.
  intros (token & row & -> & Hin & Hh & Hr). unfold bearer_row.
  rewrite (startsWith_app "Bearer " token).
  change 7%nat with (String.length "Bearer "). rewrite slice_app.
  destruct (first_filter_found
              (λ r, all_hold token_holds
                      [K_eq_tokenHash (hashPAT env token); K_isNull_revokedAt] r)
              (personalAccessTokens d) row Hin) as [pat Hpat].
  { by apply Is_true_true, holds_hash_live. }
  exists pat. split; [done|]. by apply first_filter_elem in Hpat as [? _].
Qed.

Lemma principal_valid env c d h :
  wf d → authorization c = Some h →
  (is_Some (principal env c d) ↔ valid_bearer env h d).
Proof.
  intros Hwf Hc.
  assert (principal env c d = Js.or_null (Token.ownerId <$> bearer_row env h d)) as ->.
  { by destruct c; inversion Hc; subst. }
  split.
  - intros [o Ho]. destruct (bearer_row env h d) as [pat|] eqn:Hrow; [|done].
    by eapply bearer_row_valid.
  - intros (pat & -> & Hin)%valid_bearer_row. cbn.
    pose proof (wf_token_owner d Hwf pat Hin).
    destruct (Token.ownerId pat); [done | by eexists].
Qed.

(** Each extension route answers 401 exactly when there is no principal. *)
Lemma rejected_no_principal env c d h :
  authorization c = Some h →
  (rejected (respond env c d).1 ↔ principal env c d = None).
Proof.
  intros Hc. unfold rejected, respond, serve.
  destruct c as [| | | | | | | | | | | | |h'|h' body|h' body]; inversion Hc; subst.
  - rewrite ExtensionVerify_GET_run. cbn [fst db].
    destruct (principal _ _ _); cbn; split; try done; discriminate.
  - rewrite ExtensionInit_POST_run. cbn zeta. cbn [db].
    destruct (principal _ _ _); [|done]. split; [|done].
    destruct (ExtensionInit.filename body) as [f|],
      (ExtensionInit.mimeType body) as [m|]; try discriminate.
    destruct (negb (Js.truthy f && Js.truthy m)); [discriminate|].
    destruct (_ || _); [discriminate|].
    destruct (ExtensionInit.hasBlob body); [destruct (adminConfigured env)|];
      try discriminate.
    destruct (storage_createSignedUploadUrl env ASSETS_BUCKET _);
      [destruct (storage_createSignedUploadUrl env PREVIEWS_BUCKET _)|];
      discriminate.
  - rewrite ExtensionFinalize_POST_run. cbn zeta. cbn [db].
    destruct (principal _ _ _); [|done]. split; [|done].
    destruct (Js.or_null _); [|discriminate].
    destruct (negb _); [discriminate|].
    destruct (first _); [|discriminate].
    destruct (ExtensionFinalize.tagIds body) as [tagIds|]; [|discriminate].
    destruct (bool_decide _); [destruct (forallb _ _)|]; discriminate.
Qed.

(** *** Where the rows of the token table come from *)
Lemma serve_unauthenticated env c w :
  getUser env = None → authorization c = None →
  serve env c w = (Done Unauthorized, w).
Proof.
  intros Hu Hc. destruct c; try discriminate Hc; cbn [serve].
  - unfold AssetsRoute.GET, handler, try_catch. by rewrite Hu.
  - unfold AssetRoute.GET, handler, try_catch. by rewrite Hu.
  - unfold AssetRoute.PATCH, handler, try_catch. by rewrite Hu.
  - unfold AssetRoute.DELETE, handler, try_catch. by rewrite Hu.
  - unfold InitUpload.POST, handler, try_catch. by rewrite Hu.
  - unfold FinalizeUpload.POST, handler, try_catch. by rewrite Hu.
  - unfold TagsRoute.GET, handler, try_catch. by rewrite Hu.
  - unfold TagsRoute.POST, handler, try_catch. by rewrite Hu.
  - unfold TagRoute.PATCH, handler, try_catch. by rewrite Hu.
  - unfold TagRoute.DELETE, handler, try_catch. by rewrite Hu.
  - unfold TokensRoute.GET, handler, try_catch. by rewrite Hu.
  - unfold TokensRoute.POST, handler, try_catch. by rewrite Hu.
  - unfold TokenRoute.DELETE, handler, try_catch. by rewrite Hu.
Qed.

Ltac same_tokens :=
  repeat case_match; simplify_eq;
  cbn [fst snd db personalAccessTokens set_assets set_tags set_assetTags
       set_tokens logged];
  reflexivity.

Lemma tokens_kept env c d :
  match c with
  | CreateToken _ | DeleteToken _ | ExtInit _ _ => True
  | _ => personalAccessTokens (respond env c d).2 = personalAccessTokens d
  end.
Proof.
  destruct c as [sp|id|id body|id|body|body| |body|id body|id| |name|id
                 |h|h body|h body]; try exact I;
    unfold respond;
    try (destruct (getUser env) as [user|] eqn:Hu;
         [|by rewrite serve_unauthenticated]);
    cbn [serve].
  - destruct (AssetsRoute_GET_summary env sp user (mkWorld d []) Hu)
      as (r & evs & -> & _). reflexivity.
  - rewrite (AssetRoute_GET_run env id user) by done. cbn zeta. same_tokens.
  - rewrite (AssetRoute_PATCH_run env id body user) by done. cbn zeta. same_tokens.
  - rewrite (AssetRoute_DELETE_run env id user) by done. cbn zeta. same_tokens.
  - rewrite (InitUpload_POST_total env body user) by done. cbn zeta. same_tokens.
  - rewrite (FinalizeUpload_POST_total env body user) by done. cbn zeta. same_tokens.
  - rewrite (TagsRoute_GET_run env user) by done. same_tokens.
  - rewrite (TagsRoute_POST_run env body user) by done. cbn zeta. same_tokens.
  - rewrite (TagRoute_PATCH_run env id body user) by done. cbn zeta. same_tokens.
  - rewrite (TagRoute_DELETE_run env id user) by done. cbn zeta. same_tokens.
  - rewrite (TokensRoute_GET_run env user) by done. same_tokens.
  - rewrite ExtensionVerify_GET_run. cbn [snd]. by rewrite looked_up_db.
  - rewrite ExtensionFinalize_POST_run. cbn zeta.
    repeat case_match; simplify_eq;
      cbn [fst snd db personalAccessTokens set_assets set_assetTags logged];
      by rewrite ?looked_up_db.
Qed.

Lemma tokens_provenance env c d r :
  r ∈ personalAccessTokens (respond env c d).2 →
  (∃ r0, r0 ∈ personalAccessTokens d ∧ Token.tokenHash r0 = Token.tokenHash r)
  ∨ (∃ name, c = CreateToken name
             ∧ Token.tokenHash r = hashPAT env (generatePAT env)).
Proof.
  intros Hr. pose proof (tokens_kept env c d) as Hkept.
  destruct c as [sp|id|id body|id|body|body| |body|id body|id| |name|id
                 |h|h body|h body];
    try (rewrite Hkept in Hr; left; by eauto); clear Hkept.
  - (* CreateToken *)
    unfold respond in Hr.
    destruct (getUser env) as [user|] eqn:Hu;
      [|rewrite serve_unauthenticated in Hr by done; left; by eauto].
    cbn [serve] in Hr. rewrite (TokensRoute_POST_run env name user) in Hr by done.
    destruct (Js.or_null name) as [nm|]; [|left; by eauto]. cbn zeta in Hr.
    destruct (bool_decide _); cbn [snd db logged] in Hr; [left; by eauto|].
    cbn [personalAccessTokens set_tokens] in Hr.
    apply elem_of_app in Hr as [Hr | Hr]; [left; by eauto|].
    apply list_elem_of_singleton in Hr as ->. right. by eexists.
  - (* DeleteToken *)
    unfold respond in Hr.
    destruct (getUser env) as [user|] eqn:Hu;
      [|rewrite serve_unauthenticated in Hr by done; left; by eauto].
    cbn [serve] in Hr. rewrite (TokenRoute_DELETE_run env id user) in Hr by done.
    cbn [snd db personalAccessTokens set_tokens] in Hr.
    unfold delete_rows in Hr. apply list_elem_of_filter in Hr as [_ Hr].
    left. by eauto.
  - (* ExtInit *)
    assert (∀ w, personalAccessTokens (db w)
                 = personalAccessTokens (db (looked_up_stamped env h (mkWorld d [])))
            → r ∈ personalAccessTokens (db w) →
            ∃ r0, r0 ∈ personalAccessTokens d
                  ∧ Token.tokenHash r0 = Token.tokenHash r) as Hstamp.
    { intros w -> Hin. unfold looked_up_stamped in Hin. cbn [db] in Hin.
      destruct (bearer_row env h d) as [pat|].
      - cbn [db personalAccessTokens set_tokens] in Hin.
        unfold update_rows in Hin.
        apply list_elem_of_fmap in Hin as (r0 & -> & Hin).
        exists r0. split; [done|]. by destruct (all_hold _ _ r0).
      - rewrite looked_up_db in Hin. by eauto. }
    left. unfold respond in Hr. cbn [serve] in Hr.
    rewrite ExtensionInit_POST_run in Hr. cbn zeta in Hr.
    revert Hr.
    repeat case_match; simplify_eq; cbn [fst snd db logged]; intros Hr;
      (eapply Hstamp; [|exact Hr]);
      cbn [db personalAccessTokens set_assets]; reflexivity.
Qed.

(** A hash absent from the token table stays absent as long as no token
    with that hash is issued. *)
Lemma hash_stays_absent hash calls d :
  (∀ r, r ∈ personalAccessTokens d → Token.tokenHash r ≠ hash) →
  (∀ e name, (e, CreateToken name) ∈ calls → hashPAT e (generatePAT e) ≠ hash) →
  ∀ r, r ∈ personalAccessTokens (after calls d) → Token.tokenHash r ≠ hash.
Proof.
  unfold after. revert d.
  induction calls as [|[e c] calls IH]; intros d Hd Hcalls; [done|].
  cbn [foldl]. apply IH.
  - intros r Hr. change ((e, c).1) with e in Hr. change ((e, c).2) with c in Hr.
    apply tokens_provenance in Hr as [(r0 & Hr0 & <-) | (name & -> & ->)].
    + by apply Hd.
    + apply (Hcalls e name). left.
  - intros e' name Hin. apply (Hcalls e' name). by right.
Qed.

(** C4. On each of the extension's routes a bearer header is accepted
    (the answer is not 401) exactly when the token table holds a row that is
    not revoked and whose hash is the hash of the token. Once the owner has
    deleted a token's row through [DELETE /api/tokens/:id], the row is gone
    and every later request on those routes that presents the token is
    answered 401 Unauthorized, whatever calls were made in between, as long
    as none of them issued a token with the same hash. *)
Theorem bearer_authentication :
  (∀ env c d h,
     wf d → authorization c = Some h →
     ((¬ rejected (fst (respond env c d))) ↔ valid_bearer env h d))
  ∧ (∀ owner id d token hash row calls verifier c,
       getUser owner = Some (Token.ownerId row) →
       row ∈ personalAccessTokens d →
       Token.id row = id → Token.tokenHash row = hash →
       (∀ r, r ∈ personalAccessTokens d → Token.tokenHash r = hash →
             Token.id r = id ∧ Token.ownerId r = Token.ownerId row) →
       (∀ e name, (e, CreateToken name) ∈ calls →
                  hashPAT e (generatePAT e) ≠ hash) →
       hashPAT verifier token = hash →
       authorization c = Some (Some ("Bearer " +:+ token)) →
       let revoked := (respond owner (DeleteToken id) d).2 in
       (row ∉ personalAccessTokens revoked)
       ∧ rejected (respond verifier c (after calls revoked)).1).
Proof.
  split.
  - intros env c d h Hwf Hc.
    rewrite (rejected_no_principal env c d h Hc).
    rewrite <- (principal_valid env c d h Hwf Hc).
    destruct (principal env c d) as [o|].
    + split; [intros _; by eexists | intros _ [=]].
    + split; [intros H; by destruct H | intros [? [=]]].
  - intros owner id d token hash row calls verifier c
      Hu Hrow Hid Hhash Huniq Hcalls Hver Hc revoked.
    assert (∀ r, r ∈ personalAccessTokens revoked → Token.tokenHash r ≠ hash)
      as Hgone.
    { unfold revoked, respond. cbn [serve].
      rewrite (TokenRoute_DELETE_run owner id (Token.ownerId row)) by done.
      cbn [snd db personalAccessTokens set_tokens].
      intros r [Hkeep Hr]%list_elem_of_filter Hh.
      destruct (Huniq r Hr Hh) as [Hrid Hrown].
      assert (all_hold token_holds [K_eq_id id; K_eq_ownerId (Token.ownerId row)] r
              = true) as Hhit by (by apply holds_token_id_owner).
      by rewrite Hhit in Hkeep. }
    split; [intros Hin; by apply (Hgone row Hin)|].
    apply (rejected_no_principal verifier c _ _ Hc).
    destruct (principal verifier c (after calls revoked)) as [o|] eqn:Hp; [|done].
    exfalso.
    assert (principal verifier c (after calls revoked)
            = Js.or_null (Token.ownerId <$>
                bearer_row verifier (Some ("Bearer " +:+ token)) (after calls revoked)))
      as Hpr by (by destruct c; inversion Hc; subst).
    rewrite Hpr in Hp.
    destruct (bearer_row verifier _ (after calls revoked)) as [pat|] eqn:Hpat;
      [|done].
    apply bearer_row_valid in Hpat as (token' & r & [= Htok] & Hr & Hh & _).
    apply String.app_inj in Htok as <-.
    apply (hash_stays_absent hash calls revoked Hgone Hcalls r Hr). congruence.
Qed.

(** The statement at the sample database: the token of tenant [u1] is
    accepted; after [u1] deletes its row, and after two further calls, it is
    answered 401. *)
Lemma bearer_authentication_witness :
  let ext := Demo.env_for None "n1" "0.4fzyo82mvyr" true in
  let owner := Demo.env_for (Some "u1") "n1" "0.4fzyo82mvyr" true in
  let k1 := Demo.token_of "k1" "u1" "adstash_one" in
  (¬ rejected (fst (respond ext (ExtVerify Demo.bearer_one) Demo.shared)))
  ∧ (let revoked := (respond owner (DeleteToken "k1") Demo.shared).2 in
     (k1 ∉ personalAccessTokens revoked)
     ∧ rejected
         (respond ext (ExtVerify Demo.bearer_one)
            (after [(owner, ListTokens); (ext, ExtInit Demo.bearer_one Demo.capture)]
               revoked)).1).
Proof.
  intros ext owner k1. split.
  - apply (proj1 bearer_authentication ext (ExtVerify Demo.bearer_one)
             Demo.shared Demo.bearer_one shared_wf eq_refl).
    exists "adstash_one", k1.
    split; [reflexivity|]. split; [left|]. split; reflexivity.
  - apply (proj2 bearer_authentication owner "k1" Demo.shared "adstash_one"
             (hashPAT ext "adstash_one") k1
             [(owner, ListTokens); (ext, ExtInit Demo.bearer_one Demo.capture)]
             ext (ExtVerify Demo.bearer_one));
      try reflexivity.
    + left.
    + intros r Hr Hh. apply list_elem_of_In in Hr.
      destruct Hr as [<- | [<- | []]]; [done|]. vm_compute in Hh. discriminate Hh.
    + intros e name Hin. apply list_elem_of_In in Hin.
      destruct Hin as [[=] | [[=] | []]].
Defined.

(** C5 is not what the code does on two of the three routes. With the
    token of tenant [u1], never used before, the verify route and the
    finalize route both accept the header and leave [lastUsedAt] null; only
    the init route stamps the row. *)
Lemma last_used_not_stamped :
  let ext := Demo.env_for None "n1" "0.4fzyo82mvyr" true in
  let k1 := Demo.token_of "k1" "u1" "adstash_one" in
  let k2 := Demo.token_of "k2" "u2" "adstash_two" in
  Token.lastUsedAt k1 = None
  ∧ respond ext (ExtVerify Demo.bearer_one) Demo.shared
      = (Some (ok (B_valid "u1")), Demo.shared)
  ∧ (∃ a' d',
       respond ext (ExtFinalize Demo.bearer_one Demo.finalize_bare) Demo.shared
         = (Some (ok (B_asset a')), d')
       ∧ personalAccessTokens d' = [k1; k2])
  ∧ (∃ d',
       respond ext (ExtInit Demo.bearer_one Demo.capture) Demo.shared
         = (Some (ok (B_init "n1" None None)), d')
       ∧ personalAccessTokens d'
           = [ExtensionInit.set_lastUsedAt 1700000000000 k1; k2]).
Proof.
  cbv zeta. split; [reflexivity|]. split; [by_vm|].
  split; [eexists _, _; split; [by_vm | reflexivity]|].
  eexists. split; [by_vm | reflexivity].
Qed.

(** ** Requests that are turned away before any statement is sent *)


Lemma bearer_row_malformed env h d :
  (∀ header, h = Some header → Js.startsWith header "Bearer " = false) →
  bearer_row env h d = None.
Proof.
  intros Hbad. destruct h as [header|]; [|reflexivity].
  unfold bearer_row. by rewrite (Hbad header eq_refl).
Qed.

Lemma looked_up_malformed env h w :
  (∀ header, h = Some header → Js.startsWith header "Bearer " = false) →
  looked_up env h w = w.
Proof.
  intros Hbad. destruct h as [header|]; [|reflexivity].
  unfold looked_up. by rewrite (Hbad header eq_refl).
Qed.

(** X1. Without a signed-in user every route of the web application answers
    401 Unauthorized, sends no statement, makes no storage call and leaves
    the database as it was. *)
Theorem session_required env c d :
  getUser env = None → authorization c = None →
  respond env c d = (Some Unauthorized, d) ∧ events env c d = [].
Proof.
  intros Hu Hc. unfold respond, events.
  by rewrite (serve_unauthenticated env c _ Hu Hc).
Qed.

Lemma session_required_witness :
  let env := Demo.env_for None "n1" "0.4fzyo82mvyr" true in
  respond env (DeleteAsset "a1") Demo.shared = (Some Unauthorized, Demo.shared)
  ∧ events env (DeleteAsset "a1") Demo.shared = [].
Proof.
  exact (session_required (Demo.env_for None "n1" "0.4fzyo82mvyr" true)
           (DeleteAsset "a1") Demo.shared eq_refl eq_refl).
Defined.

(** X2. On the extension's routes a request with no [Authorization] header, or
    with one that does not start with [Bearer ] (capital B, one space), is
    answered 401 Unauthorized without a single statement being sent: the
    token table is not even read. *)
Theorem bearer_prefix_required env c d h :
  authorization c = Some h →
  (∀ header, h = Some header → Js.startsWith header "Bearer " = false) →
  respond env c d = (Some Unauthorized, d) ∧ events env c d = [].
Proof.
  intros Hc Hbad. unfold respond, events.
  destruct c; try discriminate Hc; injection Hc as ->; cbn [serve].
  - rewrite ExtensionVerify_GET_run. unfold principal.
    rewrite bearer_row_malformed, looked_up_malformed by done. done.
  - rewrite ExtensionInit_POST_run. cbn zeta. unfold principal, looked_up_stamped.
    cbn [db]. rewrite bearer_row_malformed, looked_up_malformed by done. done.
  - rewrite ExtensionFinalize_POST_run. cbn zeta. unfold principal.
    cbn [db]. rewrite bearer_row_malformed, looked_up_malformed by done. done.
Qed.

(** The token of tenant [u1] is refused when the scheme is written in lower
    case. *)
Lemma bearer_prefix_required_witness :
  let env := Demo.env_for None "n1" "0.4fzyo82mvyr" true in
  let c := ExtVerify (Some "bearer adstash_one") in
  respond env c Demo.shared = (Some Unauthorized, Demo.shared)
  ∧ events env c Demo.shared = [].
Proof.
  apply (bearer_prefix_required (Demo.env_for None "n1" "0.4fzyo82mvyr" true)
           (ExtVerify (Some "bearer adstash_one")) Demo.shared
           (Some "bearer adstash_one") eq_refl).
  intros header [= <-]. reflexivity.
Defined.

(** ** The edges of the upload handshake *)

Lemma or_null_nonempty id : id ≠ "" → Js.or_null (Some id) = Some id.
Proof. by destruct id. Qed.


Lemma truthy_opt_pair (a b : option string) :
  Js.truthy_opt a && Js.truthy_opt b = false →
  match a, b with
  | Some f, Some m => negb (Js.truthy f && Js.truthy m) = true
  | _, _ => True
  end.
Proof. destruct a, b; cbn; try done. by intros ->. Qed.

(** X3. An init-upload request whose filename or MIME type is missing or empty
    is answered 400 before anything is written: no row, no statement, no
    storage call. *)
Theorem init_upload_requires_fields env body d user :
  getUser env = Some user →
  Js.truthy_opt (InitUpload.filename body)
    && Js.truthy_opt (InitUpload.mimeType body) = false →
  respond env (InitUpload body) d
    = (Some (json (B_error "Missing required fields: filename, mimeType") 400), d)
  ∧ events env (InitUpload body) d = [].
Proof.
  intros Hu Hbad%truthy_opt_pair. unfold respond, events. cbn [serve].
  rewrite (InitUpload_POST_total env body user) by done.
  destruct (InitUpload.filename body), (InitUpload.mimeType body); try done.
  by rewrite Hbad.
Qed.

Lemma init_upload_requires_fields_witness :
  let env := Demo.env_for (Some "u1") "n1" "0.4fzyo82mvyr" true in
  let body := InitUpload.mkInitUploadRequest (Some "ad.png") (Some "") None None None in
  respond env (InitUpload body) Demo.shared
    = (Some (json (B_error "Missing required fields: filename, mimeType") 400),
       Demo.shared)
  ∧ events env (InitUpload body) Demo.shared = [].
Proof.
  exact (init_upload_requires_fields
           (Demo.env_for (Some "u1") "n1" "0.4fzyo82mvyr" true)
           (InitUpload.mkInitUploadRequest (Some "ad.png") (Some "") None None None)
           Demo.shared "u1" eq_refl eq_refl).
Defined.





(** ** Captures sent by the extension *)




(** *** Init, then finalize, as the extension's service worker sends them *)







(** ** One asset: detail, update and delete *)

Lemma foreign_misses id user d :
  (∀ a, a ∈ assets d → Asset.id a = id → Asset.ownerId a ≠ user) →
  ∀ r, r ∈ assets d →
       all_hold asset_holds [A_eq_id id; A_eq_ownerId user] r = false.
Proof.
  intros Hno r Hr. destruct (all_hold asset_holds _ r) eqn:E; [|done].
  apply holds_id_owner in E as [E1 E2]. by destruct (Hno r Hr E1).
Qed.

Lemma foreign_filter id user d :
  (∀ a, a ∈ assets d → Asset.id a = id → Asset.ownerId a ≠ user) →
  filter (λ r, all_hold asset_holds [A_eq_id id; A_eq_ownerId user] r) (assets d)
  = [].
Proof.
  intros Hno. apply filter_none. intros r Hr Hit.
  by rewrite (foreign_misses id user d Hno r Hr) in Hit.
Qed.

Lemma own_filter id user d a :
  wf d → a ∈ assets d → Asset.id a = id → Asset.ownerId a = user →
  filter (λ r, all_hold asset_holds [A_eq_id id; A_eq_ownerId user] r) (assets d)
  = [a].
Proof.
  intros Hwf Ha Hid Hown.
  apply (filter_by_key Asset.id); [apply Hwf | done | |].
  - apply Is_true_true. by apply holds_id_owner.
  - intros r [Hr _]%Is_true_true%holds_id_owner. congruence.
Qed.

Lemma elem_of_join_tags links ts a t :
  (a, t) ∈ join_tags links ts ↔
  ∃ l, l ∈ links ∧ AssetTag.assetId l = a ∧ t ∈ ts ∧ Tag.id t = AssetTag.tagId l.
Proof.
  unfold join_tags. rewrite list_elem_of_bind. split.
  - intros (l & (t' & Hpair & [Hid Ht']%list_elem_of_filter)%list_elem_of_bind & Hl).
    apply list_elem_of_singleton in Hpair as [= -> ->]. by exists l.
  - intros (l & Hl & <- & Ht & Hid). exists l. split; [|done].
    apply list_elem_of_bind. exists t. split; [by apply list_elem_of_singleton|].
    by apply list_elem_of_filter.
Qed.



(** X9. The detail route returns the caller's asset with exactly the tag rows
    its join rows name, and with whatever the storage provider signs: a
    download URL it refuses to sign comes back as null and the request still
    succeeds. Nothing is written. *)
Theorem asset_detail env id user d a :
  getUser env = Some user → wf d →
  a ∈ assets d → Asset.id a = id → Asset.ownerId a = user →
  ∃ detail,
    respond env (GetAsset id) d = (Some (ok (B_asset_detail detail)), d)
    ∧ ad_asset detail = a
    ∧ ad_assetUrl detail
        = storage_createSignedUrl env (Asset.storageBucket a) (Asset.storagePath a)
    ∧ ad_previewUrl detail
        = match AssetRoute.preview_of a with
          | Some (bucket, path) => storage_createSignedUrl env bucket path
          | None => None
          end
    ∧ ∀ t, t ∈ ad_tags detail ↔
           t ∈ tags d ∧ AssetTag.mk id (Tag.id t) ∈ assetTags d.
Proof.
  intros Hu Hwf Ha Hid Hown. eexists.
  unfold respond. cbn [serve].
  rewrite (AssetRoute_GET_run env id user) by done. cbn zeta. cbn [db].
  rewrite (own_filter id user d a) by done. cbn [first head].
  split; [reflexivity|]. cbn [ad_asset ad_assetUrl ad_previewUrl ad_tags].
  do 3 (split; [done|]). intros t. split.
  - intros ((a' & t') & -> & Hj)%list_elem_of_fmap. cbn [snd].
    apply elem_of_join_tags
      in Hj as (l & [Hhold Hl]%list_elem_of_filter & _ & Ht & Htid).
    apply Is_true_true, holds_link_asset in Hhold.
    destruct l as [la lt]. cbn in *. by subst.
  - intros [Ht Hl]. apply list_elem_of_fmap. exists (id, t). split; [done|].
    apply elem_of_join_tags. exists (AssetTag.mk id (Tag.id t)).
    repeat split; try done. apply list_elem_of_filter. split; [|done].
    apply Is_true_true. by apply holds_link_asset.
Qed.

(** Tenant [u1] opens its asset while the storage provider refuses every
    signature. *)
Lemma asset_detail_witness :
  ∃ detail,
    respond (Demo.refused_for (Some "u1") "n1") (GetAsset "a1") Demo.shared
      = (Some (ok (B_asset_detail detail)), Demo.shared)
    ∧ ad_asset detail = Demo.asset_of "a1" "u1"
    ∧ ad_assetUrl detail = None
    ∧ ad_previewUrl detail = None
    ∧ ∀ t, t ∈ ad_tags detail ↔
           t ∈ tags Demo.shared ∧ AssetTag.mk "a1" (Tag.id t) ∈ assetTags Demo.shared.
Proof.
  apply (asset_detail (Demo.refused_for (Some "u1") "n1") "a1" "u1" Demo.shared
           (Demo.asset_of "a1" "u1") eq_refl shared_wf); [|reflexivity..].
  left.
Defined.








(** X12. Once its owner has deleted an asset, no row and no join row carries its
    id any more, every other asset row is as it was, the detail route
    answers 404 for the id and no listing returns it, whoever asks. *)
Theorem deleted_asset_is_gone env id user d a :
  getUser env = Some user → wf d →
  a ∈ assets d → Asset.id a = id → Asset.ownerId a = user →
  let d' := (respond env (DeleteAsset id) d).2 in
  assets d' = filter (λ r, Asset.id r ≠ id) (assets d)
  ∧ (∀ l, l ∈ assetTags d' → AssetTag.assetId l ≠ id)
  ∧ (∀ env' viewer, getUser env' = Some viewer →
       (respond env' (GetAsset id) d').1
         = Some (json (B_error "Asset not found") 404))
  ∧ (∀ env' sp r x, (respond env' (ListAssets sp) d').1 = Some r →
       x ∈ returned_assets r → Asset.id x ≠ id).
Proof.
  intros Hu Hwf Ha Hid Hown d'.
  assert (assets d' = filter (λ r, Asset.id r ≠ id) (assets d)
          ∧ assetTags d' = filter (λ l, AssetTag.assetId l ≠ id) (assetTags d))
    as [Hassets Hlinks].
  { subst d'. unfold respond. cbn [serve].
    rewrite (AssetRoute_DELETE_run env id user) by done. cbn zeta. cbn [db].
    rewrite (own_filter id user d a) by done. cbn [first head snd db].
    cbn [assets assetTags set_assets set_assetTags]. split.
    - apply delete_rows_filter. intros r. rewrite holds_asset_id.
      split; [by intros -> ? | intros H; by destruct (decide (Asset.id r = id))].
    - apply delete_cascade_idle.
      intros i (r & -> & [Hr _]%list_elem_of_filter)%list_elem_of_fmap.
      by apply Is_true_true, holds_asset_id in Hr. }
  assert (∀ r, r ∈ assets d' → Asset.id r ≠ id) as Hgone.
  { intros r. rewrite Hassets. by intros [? _]%list_elem_of_filter. }
  split; [done|]. split.
  { intros l. rewrite Hlinks. by intros [? _]%list_elem_of_filter. }
  split.
  - intros env' viewer Hv. unfold respond. cbn [serve].
    rewrite (AssetRoute_GET_run env' id viewer) by done. cbn zeta. cbn [db].
    rewrite foreign_filter; [done|]. intros r Hr Hrid. by destruct (Hgone r Hr).
  - intros env' sp r x Hr Hx. apply Hgone.
    unfold respond in Hr.
    destruct (getUser env') as [viewer|] eqn:Hv.
    + cbn [serve] in Hr.
      destruct (AssetsRoute_GET_summary env' sp viewer (mkWorld d' []) Hv)
        as (r' & evs & Hrun & _ & _ & _ & Hret).
      rewrite Hrun in Hr. cbn in Hr. injection Hr as <-.
      by apply Hret.
    + rewrite (serve_unauthenticated env' (ListAssets sp) _ Hv eq_refl) in Hr.
      injection Hr as <-. inversion Hx.
Qed.

Lemma deleted_asset_is_gone_witness :
  let env := Demo.env_for (Some "u1") "n1" "0.4fzyo82mvyr" true in
  let d' := (respond env (DeleteAsset "a1") Demo.shared).2 in
  assets d' = filter (λ r, Asset.id r ≠ "a1") (assets Demo.shared)
  ∧ (∀ l, l ∈ assetTags d' → AssetTag.assetId l ≠ "a1")
  ∧ (∀ env' viewer, getUser env' = Some viewer →
       (respond env' (GetAsset "a1") d').1
         = Some (json (B_error "Asset not found") 404))
  ∧ (∀ env' sp r x, (respond env' (ListAssets sp) d').1 = Some r →
       x ∈ returned_assets r → Asset.id x ≠ "a1").
Proof.
  apply (deleted_asset_is_gone
           (Demo.env_for (Some "u1") "n1" "0.4fzyo82mvyr" true) "a1" "u1"
           Demo.shared (Demo.asset_of "a1" "u1") eq_refl shared_wf);
    [|reflexivity..].
  left.
Defined.

(** ** The listing in closed form *)

(** The signed preview URL of a listed asset: what the provider signs, or
    null. *)
Lemma addPreviewUrls_items env rows tagsByAsset w :
  ∃ evs,
    AssetsRoute.addPreviewUrls env rows tagsByAsset w
    = (Done (map (λ asset,
                    mkAssetWithPreview asset
                      match AssetRoute.preview_of asset with
                      | Some (bucket, path) => storage_createSignedUrl env bucket path
                      | None => None
                      end
                      (default [] (tagsByAsset !! Asset.id asset))) rows),
       mkWorld (db w) (log w ++ evs)).
Proof.
  unfold AssetsRoute.addPreviewUrls. revert w.
  induction rows as [|asset rows IH]; intros w.
  - exists []. cbn [mapM map]. rewrite ret_run, app_nil_r. by destruct w.
  - cbn [mapM map]. rewrite !bind_run.
    set (sign := try_catch _ _).
    assert (∃ evs, sign w =
                   (Done match AssetRoute.preview_of asset with
                         | Some (bucket, path) =>
                             storage_createSignedUrl env bucket path
                         | None => None
                         end,
                    mkWorld (db w) (log w ++ evs))) as (evs1 & Hsign).
    { unfold sign, try_catch, createSignedDownloadUrl, AssetRoute.preview_of.
      destruct (Asset.previewBucket asset) as [bucket|];
        [destruct (Asset.previewPath asset) as [path|]|].
      2,3: exists []; rewrite ret_run, app_nil_r; by destruct w.
      destruct (Js.truthy bucket && Js.truthy path).
      2: exists []; rewrite ret_run, app_nil_r; by destruct w.
      run. exists [StorageSignDownload bucket path].
      by destruct (storage_createSignedUrl env bucket path). }
    rewrite Hsign, ret_run, bind_run.
    destruct (IH (mkWorld (db w) (log w ++ evs1))) as (evs2 & Hrest).
    rewrite Hrest, ret_run. cbn [db log].
    exists (evs1 ++ evs2). by rewrite app_assoc.
Qed.

Lemma sendable_with_ids conds ids :
  forallb asset_sendable (conds ++ [A_inArray_id ids]) = forallb asset_sendable conds.
Proof. rewrite forallb_app. cbn. by rewrite andb_true_r. Qed.

Lemma AssetsRoute_GET_closed env sp user w :
  getUser env = Some user →
  let params := AssetsRoute.parseQueryParams sp in
  let conds := AssetsRoute.buildWhereConditions env user params in
  let tagIds := AssetsRoute.tagIds params in
  let selected :=
    if bool_decide (0 < length tagIds)%nat
    then conds ++ [A_inArray_id (assetsWithTags_rows tagIds (assetTags (db w)))]
    else conds in
  let failed := json (B_error "Failed to fetch assets") 500 in
  ∃ evs,
    AssetsRoute.GET env sp w =
    (Done
       (if forallb asset_sendable conds then
          match limit_offset (AssetsRoute.limit params) (AssetsRoute.offset_of params)
                  (orderBy_desc_createdAt
                     (filter (λ r, all_hold asset_holds selected r) (assets (db w))))
          with
          | Some page =>
              let tagsByAsset :=
                match map Asset.id page with
                | [] => ∅
                | ids =>
                    AssetsRoute.group_tags
                      (join_tags
                         (filter (λ l, all_hold link_holds [L_inArray_assetId ids] l)
                            (assetTags (db w)))
                         (tags (db w)))
                end in
              ok (B_assets
                    (map (λ asset,
                            mkAssetWithPreview asset
                              match AssetRoute.preview_of asset with
                              | Some (bucket, path) =>
                                  storage_createSignedUrl env bucket path
                              | None => None
                              end
                              (default [] (tagsByAsset !! Asset.id asset))) page)
                    (mkPagination (AssetsRoute.page params) (AssetsRoute.limit params)
                       (length (filter (λ r, all_hold asset_holds conds r)
                                  (assets (db w))))))
          | None => failed
          end
        else failed),
     mkWorld (db w) (log w ++ evs)).
Proof.
  intros Hu params conds tagIds selected failed.
  unfold AssetsRoute.GET, handler, try_catch. rewrite Hu.
  fold params conds tagIds.
  rewrite bind_run.
  set (pageQuery := if bool_decide (0 < length tagIds)%nat then _ else _).
  assert (∃ evs1,
            pageQuery w =
            (if forallb asset_sendable conds then
               match limit_offset (AssetsRoute.limit params)
                       (AssetsRoute.offset_of params)
                       (orderBy_desc_createdAt
                          (filter (λ r, all_hold asset_holds selected r)
                             (assets (db w))))
               with
               | Some page => Done page
               | None => Thrown
               end
             else Thrown,
             mkWorld (db w) (log w ++ evs1))) as (evs1 & ->).
  { unfold pageQuery, selected. destruct (bool_decide _).
    - rewrite bind_run. unfold selectAssetsWithTags. run.
      rewrite selectAssetsPage_run, sendable_with_ids. cbn [db log].
      destruct (forallb asset_sendable conds).
      + eexists [_; _]. unfold logged. cbn [db log]. rewrite <- app_assoc.
        by destruct (limit_offset _ _ _).
      + by eexists [_].
    - rewrite selectAssetsPage_run.
      destruct (forallb asset_sendable conds) eqn:Hs.
      + eexists [_]. unfold logged. by destruct (limit_offset _ _ _).
      + exists []. rewrite app_nil_r. by destruct w. }
  destruct (forallb asset_sendable conds) eqn:Hs; [|by exists evs1].
  destruct (limit_offset _ _ _) as [page|]; [|by exists evs1].
  rewrite bind_run. unfold selectAssets. rewrite Hs. run.
  set (w2 := mkWorld _ _).
  assert (∃ evs2,
            AssetsRoute.getAssetsWithTags (map Asset.id page) w2 =
            (Done match map Asset.id page with
                  | [] => ∅
                  | ids =>
                      AssetsRoute.group_tags
                        (join_tags
                           (filter (λ l, all_hold link_holds [L_inArray_assetId ids] l)
                              (assetTags (db w)))
                           (tags (db w)))
                  end,
             mkWorld (db w) (log w2 ++ evs2))) as (evs2 & ->).
  { unfold AssetsRoute.getAssetsWithTags. destruct (map Asset.id page) as [|i ids].
    - exists []. rewrite ret_run, app_nil_r. done.
    - rewrite bind_run, selectAssetTagsJoinTags_run, ret_run. by eexists [_]. }
  rewrite bind_run.
  destruct (addPreviewUrls_items env page
              match map Asset.id page with
              | [] => ∅
              | ids =>
                  AssetsRoute.group_tags
                    (join_tags
                       (filter (λ l, all_hold link_holds [L_inArray_assetId ids] l)
                          (assetTags (db w)))
                       (tags (db w)))
              end
              (mkWorld (db w) (log w2 ++ evs2))) as (evs3 & ->).
  rewrite ret_run. cbn [db log]. unfold w2. cbn [log].
  eexists (evs1 ++ [_] ++ evs2 ++ evs3). by rewrite <- !app_assoc.
Qed.

(** *** Order and size of a page *)
Global Instance newer_first_total : Total newer_first.
Proof. intros a b. unfold newer_first. lia. Qed.
Global Instance newer_first_trans : Transitive newer_first.
Proof. intros a b c. unfold newer_first. lia. Qed.

Lemma StronglySorted_take {A} (R : relation A) n (l : list A) :
  StronglySorted R l → StronglySorted R (take n l).
Proof.
  intros H. rewrite <- (take_drop n l) in H. by apply StronglySorted_app_1_l in H.
Qed.

Lemma StronglySorted_drop {A} (R : relation A) n (l : list A) :
  StronglySorted R l → StronglySorted R (drop n l).
Proof.
  intros H. rewrite <- (take_drop n l) in H. by apply StronglySorted_app_1_r in H.
Qed.

Lemma limit_offset_sorted {A} (R : relation A) limit offset (l page : list A) :
  limit_offset limit offset l = Some page →
  StronglySorted R l → StronglySorted R page.
Proof.
  unfold limit_offset. intros H Hl.
  destruct offset as [k|]; [destruct (bool_decide (k < 0 ∨ _))|];
    destruct limit as [n|]; try destruct (bool_decide (0 ≤ n));
    try discriminate H; injection H as <-;
    auto using StronglySorted_take, StronglySorted_drop.
Qed.

Lemma limit_offset_length {A} n offset (l page : list A) :
  limit_offset (Some n) offset l = Some page → 0 ≤ n →
  (length page ≤ Z.to_nat n)%nat.
Proof.
  unfold limit_offset. intros H Hn.
  rewrite (bool_decide_eq_true_2 (0 ≤ n)) in H by done.
  destruct offset as [k|]; [destruct (bool_decide (k < 0 ∨ _))|];
    try discriminate H; injection H as <-; rewrite length_take; lia.
Qed.

Lemma limit_capped sp n :
  AssetsRoute.limit (AssetsRoute.parseQueryParams sp) = Some n → n ≤ 100.
Proof.
  cbn [AssetsRoute.parseQueryParams AssetsRoute.limit].
  destruct (Js.parseInt _) as [k|]; [|discriminate]. intros [= <-]. lia.
Qed.

Lemma conds_owner_ready env user params a :
  all_hold asset_holds (AssetsRoute.buildWhereConditions env user params) a = true →
  Asset.ownerId a = user ∧ Asset.status a = ready.
Proof.
  unfold AssetsRoute.buildWhereConditions, all_hold. rewrite forallb_app.
  cbn [forallb asset_holds]. intros [H _]%andb_true_iff.
  apply andb_true_iff in H as [Ho H]. apply andb_true_iff in H as [Hs _].
  apply bool_decide_eq_true in Ho, Hs. done.
Qed.

Lemma selected_conds (conds : list AssetCond) (b : bool) extra a :
  all_hold asset_holds (if b then conds ++ extra else conds) a = true →
  all_hold asset_holds conds a = true.
Proof.
  destruct b; [|done]. unfold all_hold. rewrite forallb_app.
  by intros [H _]%andb_true_iff.
Qed.

(** X13. A listing answered with a page leaves the database as it was; every
    asset on the page is a [ready] asset of the caller; the page is ordered
    newest first; and it holds at most [limit] assets, where the limit of
    the request is never above 100. *)
Theorem listing_page env sp d user r items pagination d' :
  getUser env = Some user →
  respond env (ListAssets sp) d = (Some r, d') →
  body r = B_assets items pagination →
  d' = d
  ∧ (∀ item, item ∈ items →
       lp_asset item ∈ assets d
       ∧ Asset.ownerId (lp_asset item) = user
       ∧ Asset.status (lp_asset item) = ready)
  ∧ StronglySorted (λ a b, Asset.createdAt b ≤ Asset.createdAt a)
      (map lp_asset items)
  ∧ (∀ n, AssetsRoute.limit (AssetsRoute.parseQueryParams sp) = Some n →
          0 ≤ n → (length items ≤ Z.to_nat n)%nat ∧ n ≤ 100).
Proof.
  intros Hu Hrun Hbody. unfold respond in Hrun. cbn [serve] in Hrun.
  destruct (AssetsRoute_GET_closed env sp user (mkWorld d []) Hu) as (evs & Hget).
  cbn zeta in Hget. rewrite Hget in Hrun. clear Hget.
  remember (AssetsRoute.parseQueryParams sp) as params eqn:Hparams.
  remember (AssetsRoute.buildWhereConditions env user params) as conds eqn:Hconds.
  remember (bool_decide (0 < length (AssetsRoute.tagIds params))%nat) as tagged.
  injection Hrun as <- <-. split; [done|].
  destruct (forallb asset_sendable conds); [|discriminate Hbody].
  destruct (limit_offset _ _ _) as [page|] eqn:Hpage; [|discriminate Hbody].
  injection Hbody as <- <-.
  rewrite map_map. cbn [lp_asset]. rewrite map_id.
  split; [|split].
  - intros item (a & -> & Ha)%list_elem_of_fmap. cbn [lp_asset].
    apply (limit_offset_elem _ _ _ _ _ Hpage) in Ha.
    unfold orderBy_desc_createdAt in Ha. rewrite merge_sort_Permutation in Ha.
    apply list_elem_of_filter in Ha as [Hhold Ha]. split; [done|].
    apply Is_true_true, selected_conds in Hhold. subst conds.
    by apply conds_owner_ready in Hhold.
  - apply (limit_offset_sorted _ _ _ _ _ Hpage).
    apply (StronglySorted_merge_sort newer_first).
  - intros n Hn Hpos. subst params. split; [|by eapply limit_capped].
    rewrite length_map. rewrite Hn in Hpage.
    by eapply limit_offset_length.
Qed.

(** The first page of one of the library of tenant [u1]. *)
Lemma listing_page_witness :
  let env := Demo.env_for (Some "u1") "n1" "0.4fzyo82mvyr" true in
  ∃ r items pagination,
    respond env (ListAssets [("limit", "1")]) Demo.library = (Some r, Demo.library)
    ∧ body r = B_assets items pagination
    ∧ Demo.library = Demo.library
    ∧ (∀ item, item ∈ items →
         lp_asset item ∈ assets Demo.library
         ∧ Asset.ownerId (lp_asset item) = "u1"
         ∧ Asset.status (lp_asset item) = ready)
    ∧ StronglySorted (λ a b, Asset.createdAt b ≤ Asset.createdAt a)
        (map lp_asset items)
    ∧ (∀ n, AssetsRoute.limit (AssetsRoute.parseQueryParams [("limit", "1")]) = Some n →
            0 ≤ n → (length items ≤ Z.to_nat n)%nat ∧ n ≤ 100).
Proof.
  intros env. do 3 eexists.
  split; [by_vm|]. split; [reflexivity|].
  eapply (listing_page env [("limit", "1")] Demo.library "u1" _ _ _ _ eq_refl).
  - by_vm.
  - reflexivity.
Defined.

(** *** The total of the pagination *)
Lemma params_apart_from_tags sp sp' :
  (∀ k, k ≠ "tags" → AssetsRoute.get sp k = AssetsRoute.get sp' k) →
  let p := AssetsRoute.parseQueryParams sp in
  let p' := AssetsRoute.parseQueryParams sp' in
  AssetsRoute.page p = AssetsRoute.page p'
  ∧ AssetsRoute.limit p = AssetsRoute.limit p'
  ∧ ∀ env user, AssetsRoute.buildWhereConditions env user p
                = AssetsRoute.buildWhereConditions env user p'.
Proof.
  intros Hsame. cbn zeta.
  unfold AssetsRoute.buildWhereConditions, AssetsRoute.parseQueryParams.
  cbn [AssetsRoute.page AssetsRoute.limit AssetsRoute.search
       AssetsRoute.sourcePlatform AssetsRoute.mimeTypeFilter
       AssetsRoute.fromDate AssetsRoute.toDate].
  rewrite !(Hsame "page"), !(Hsame "limit"), !(Hsame "search"),
    !(Hsame "source"), !(Hsame "type"), !(Hsame "from"), !(Hsame "to")
    by discriminate.
  done.
Qed.

(** X14. The [totalCount] of a listing is the number of the caller's [ready]
    assets that pass the search, platform, type and date filters: the tag
    filter does not enter it. Two requests that differ only in their [tags]
    parameter report the same pagination, however few assets hold the
    requested tags. *)
Theorem listing_total_ignores_tags env sp sp' d user r r' items items' pg pg' :
  getUser env = Some user →
  (∀ k, k ≠ "tags" → AssetsRoute.get sp k = AssetsRoute.get sp' k) →
  (respond env (ListAssets sp) d).1 = Some r → body r = B_assets items pg →
  (respond env (ListAssets sp') d).1 = Some r' → body r' = B_assets items' pg' →
  pg = pg'
  ∧ pg_totalCount pg
    = length
        (filter
           (λ a, all_hold asset_holds
                   (AssetsRoute.buildWhereConditions env user
                      (AssetsRoute.parseQueryParams sp)) a)
           (assets d)).
Proof.
  intros Hu Hsame Hr Hb Hr' Hb'.
  destruct (params_apart_from_tags sp sp' Hsame) as (Hpage & Hlimit & Hconds).
  specialize (Hconds env user).
  unfold respond in Hr, Hr'. cbn [serve] in Hr, Hr'.
  destruct (AssetsRoute_GET_closed env sp user (mkWorld d []) Hu) as (evs & Hget).
  destruct (AssetsRoute_GET_closed env sp' user (mkWorld d []) Hu) as (evs' & Hget').
  cbn zeta in Hget, Hget'. rewrite Hget in Hr. rewrite Hget' in Hr'.
  clear Hget Hget'. rewrite <- Hpage, <- Hlimit, <- Hconds in Hr'.
  remember (AssetsRoute.parseQueryParams sp) as params eqn:Hparams.
  remember (AssetsRoute.parseQueryParams sp') as params' eqn:Hparams'.
  remember (AssetsRoute.buildWhereConditions env user params) as conds eqn:Hc.
  cbn [fst] in Hr, Hr'. injection Hr as <-. injection Hr' as <-.
  destruct (forallb asset_sendable conds); [|discriminate Hb].
  destruct (limit_offset _ _ _) as [page|]; [|discriminate Hb].
  destruct (limit_offset _ _ _) as [page'|]; [|discriminate Hb'].
  injection Hb as <- <-. injection Hb' as <- <-. done.
Qed.

(** With two assets in the library and one of them holding both tags, the
    listing filtered by both tags still reports a total of two. *)
Lemma listing_total_ignores_tags_witness :
  let env := Demo.env_for (Some "u1") "n1" "0.4fzyo82mvyr" true in
  ∃ r r' item items' pg pg',
    (respond env (ListAssets [("tags", "t1,t2")]) Demo.library).1 = Some r
    ∧ body r = B_assets [item] pg
    ∧ (respond env (ListAssets []) Demo.library).1 = Some r'
    ∧ body r' = B_assets items' pg'
    ∧ pg = pg'
    ∧ pg_totalCount pg
      = length
          (filter
             (λ a, all_hold asset_holds
                     (AssetsRoute.buildWhereConditions env "u1"
                        (AssetsRoute.parseQueryParams [("tags", "t1,t2")])) a)
             (assets Demo.library)).
Proof.
  intros env.
  assert (∃ r item pg,
            (respond env (ListAssets [("tags", "t1,t2")]) Demo.library).1 = Some r
            ∧ body r = B_assets [item] pg) as (r & item & pg & Hr & Hb).
  { do 3 eexists. split; [by_vm|]. reflexivity. }
  assert (∃ r' items' pg',
            (respond env (ListAssets []) Demo.library).1 = Some r'
            ∧ body r' = B_assets items' pg') as (r' & items' & pg' & Hr' & Hb').
  { do 3 eexists. split; [by_vm|]. reflexivity. }
  exists r, r', item, items', pg, pg'. do 4 (split; [done|]).
  apply (listing_total_ignores_tags env [("tags", "t1,t2")] [] Demo.library "u1"
           r r' [item] items' pg pg' eq_refl); try done.
  intros k Hk. unfold AssetsRoute.get.
  rewrite filter_cons_False by (cbn; congruence). reflexivity.
Defined.

(** *** What is attached to a listed asset *)
Lemma group_tags_from (rows : list (string * Tag.t)) (m : gmap string (list Tag.t)) k :
  default []
    (foldl
       (λ (tagsByAsset : gmap string (list Tag.t)) row,
          let existing := default [] (tagsByAsset !! fst row) in
          <[fst row := existing ++ [snd row]]> tagsByAsset)
       m rows !! k)
  = default [] (m !! k) ++ map snd (filter (λ row, fst row = k) rows).
Proof.
  revert m. induction rows as [|row rows IH]; intros m.
  - cbn. by rewrite app_nil_r.
  - cbn [foldl]. rewrite IH. cbn zeta.
    destruct (decide (fst row = k)) as [<- | Hne].
    + rewrite lookup_insert_eq, filter_cons_True by done. simpl.
      by rewrite <- app_assoc.
    + rewrite lookup_insert_ne, filter_cons_False by done. done.
Qed.

Lemma group_tags_lookup rows k :
  default [] (AssetsRoute.group_tags rows !! k)
  = map snd (filter (λ row, fst row = k) rows).
Proof. unfold AssetsRoute.group_tags. by rewrite group_tags_from, lookup_empty. Qed.

(** X15. Each asset of a listing carries exactly the tag rows that its join rows
    name, and as preview URL whatever the storage provider signs for its
    preview object, null when the provider refuses or the row has no
    preview: a refused signature never fails the listing. *)
Theorem listing_items env sp d user r items pagination item :
  getUser env = Some user →
  (respond env (ListAssets sp) d).1 = Some r →
  body r = B_assets items pagination → item ∈ items →
  lp_previewUrl item
    = match AssetRoute.preview_of (lp_asset item) with
      | Some (bucket, path) => storage_createSignedUrl env bucket path
      | None => None
      end
  ∧ ∀ t, t ∈ lp_tags item ↔
         t ∈ tags d ∧ AssetTag.mk (Asset.id (lp_asset item)) (Tag.id t) ∈ assetTags d.
Proof.
  intros Hu Hrun Hbody Hitem. unfold respond in Hrun. cbn [serve] in Hrun.
  destruct (AssetsRoute_GET_closed env sp user (mkWorld d []) Hu) as (evs & Hget).
  cbn zeta in Hget. rewrite Hget in Hrun. clear Hget.
  remember (AssetsRoute.parseQueryParams sp) as params eqn:Hparams.
  remember (AssetsRoute.buildWhereConditions env user params) as conds eqn:Hconds.
  cbn [fst] in Hrun. injection Hrun as <-.
  destruct (forallb asset_sendable conds); [|discriminate Hbody].
  destruct (limit_offset _ _ _) as [page|] eqn:Hpage; [|discriminate Hbody].
  injection Hbody as <- <-.
  apply list_elem_of_fmap in Hitem as (a & -> & Ha).
  cbn [lp_asset lp_previewUrl lp_tags db]. split; [done|].
  destruct (map Asset.id page) as [|i ids] eqn:Hids.
  { destruct page; [inversion Ha | discriminate Hids]. }
  rewrite <- Hids. clear Hids i ids.
  intros t. rewrite group_tags_lookup, list_elem_of_fmap. split.
  - intros ((a' & t') & -> & [Hfst Hj]%list_elem_of_filter). cbn in Hfst. subst a'.
    cbn [snd].
    apply elem_of_join_tags
      in Hj as (l & [_ Hl]%list_elem_of_filter & Hla & Ht & Htid).
    split; [done|]. destruct l as [la lt]. cbn in *. by subst.
  - intros [Ht Hl]. exists (Asset.id a, t). split; [done|].
    apply list_elem_of_filter. split; [done|].
    apply elem_of_join_tags. exists (AssetTag.mk (Asset.id a) (Tag.id t)).
    repeat split; try done. apply list_elem_of_filter. split; [|done].
    unfold all_hold. cbn. rewrite andb_true_r. apply bool_decide_pack.
    apply list_elem_of_fmap. eauto.
Qed.

Lemma listing_items_witness :
  let env := Demo.refused_for (Some "u1") "n1" in
  ∃ r pagination item,
    (respond env (ListAssets [("tags", "t1,t2")]) Demo.library).1 = Some r
    ∧ body r = B_assets [item] pagination
    ∧ lp_previewUrl item = None
    ∧ ∀ t, t ∈ lp_tags item ↔
           t ∈ tags Demo.library
           ∧ AssetTag.mk (Asset.id (lp_asset item)) (Tag.id t)
               ∈ assetTags Demo.library.
Proof.
  intros env.
  assert (∃ r pagination item,
            (respond env (ListAssets [("tags", "t1,t2")]) Demo.library).1 = Some r
            ∧ body r = B_assets [item] pagination
            ∧ AssetRoute.preview_of (lp_asset item)
                = Some ("previews", "previews/u1/1700000000001-4fzyo8-preview-ad.png"))
    as (r & pagination & item & Hr & Hb & Hp).
  { do 3 eexists. split; [by_vm|]. split; reflexivity. }
  exists r, pagination, item. do 2 (split; [done|]).
  pose proof (listing_items env [("tags", "t1,t2")] Demo.library "u1" r [item]
                pagination item eq_refl Hr Hb) as H.
  rewrite Hp in H. apply H. left.
Defined.

(** ** Tags *)

Lemma owned_tags_filter user (l : list Tag.t) :
  filter (λ r, all_hold tag_holds [T_eq_ownerId user] r) l
  = filter (λ r, Tag.ownerId r = user) l.
Proof.
  apply list_filter_iff. intros r. rewrite Is_true_true. apply holds_tag_owner.
Qed.

(** The tag list of a signed-in user holds each of the user's tags exactly
    once and nothing else, and reading it changes nothing. *)
Theorem tags_listed env d user :
  getUser env = Some user →
  ∃ l, respond env ListTags d = (Some (ok (B_tags l)), d)
       ∧ l ≡ₚ owned_tags user d.
Proof.
  intros Hu. eexists. unfold respond. cbn [serve].
  rewrite (TagsRoute_GET_run env user) by done. cbn [db logged].
  split; [reflexivity|].
  unfold orderBy_asc_name, owned_tags.
  by rewrite merge_sort_Permutation, owned_tags_filter.
Qed.

Lemma tags_listed_witness :
  ∃ l, respond (Demo.env_for (Some "u1") "n1" "0.4fzyo82mvyr" true) ListTags
         Demo.library = (Some (ok (B_tags l)), Demo.library)
       ∧ l ≡ₚ owned_tags "u1" Demo.library.
Proof.
  exact (tags_listed (Demo.env_for (Some "u1") "n1" "0.4fzyo82mvyr" true)
           Demo.library "u1" eq_refl).
Defined.



(** X17. Tag names are unique per owner, compared after trimming and exactly
    (case matters): creating a tag whose trimmed name one of the caller's
    tags already bears is answered 500 and writes nothing, while the same
    name held by another owner does not stand in the way. *)
Theorem tag_name_unique_per_owner env d user body name t :
  getUser env = Some user →
  TagsRoute.name body = Some name → name ≠ "" →
  t ∈ tags d → Tag.ownerId t = user → Tag.name t = Js.trim name →
  respond env (CreateTag body) d
    = (Some (json (B_error "Failed to create tag") 500), d).
Proof.
  intros Hu Hname Hne Ht Ho Hn.
  unfold respond. cbn [serve].
  rewrite (TagsRoute_POST_run env body user) by done.
  rewrite Hname, or_null_nonempty by done. cbn zeta. cbn [db].
  assert (key_clash
            (Tag.mk (newId env) user (Js.trim name)
               (Js.or_default (TagsRoute.color body) "#6b7280") (dbNow env))
            (tags d) = true) as ->.
  { apply bool_decide_eq_true. apply list_elem_of_fmap. exists t.
    split; [|done]. unfold tag_key. cbn. by rewrite Ho, Hn. }
  by rewrite orb_true_r.
Qed.

Lemma tag_name_unique_per_owner_witness :
  respond (Demo.env_for (Some "u1") "n1" "0.4fzyo82mvyr" true)
    (CreateTag (TagsRoute.mkTagBody (Some " brand") (Some "#000000"))) Demo.shared
  = (Some (json (B_error "Failed to create tag") 500), Demo.shared).
Proof.
  apply (tag_name_unique_per_owner
           (Demo.env_for (Some "u1") "n1" "0.4fzyo82mvyr" true) Demo.shared "u1"
           (TagsRoute.mkTagBody (Some " brand") (Some "#000000")) " brand"
           (Tag.mk "t1" "u1" "brand" "#6b7280" 1700000000000)
           eq_refl eq_refl); [discriminate | left | reflexivity..].
Defined.

(** X18. A tag update whose body gives neither a name nor a colour (both absent
    or empty) is answered 400 without a statement being sent; a create
    without a name likewise. *)
Theorem tag_requests_need_fields env d user body :
  getUser env = Some user →
  Js.truthy_opt (TagsRoute.name body) = false →
  (respond env (CreateTag body) d = (Some (json (B_error "Name is required") 400), d)
   ∧ events env (CreateTag body) d = [])
  ∧ (Js.truthy_opt (TagsRoute.color body) = false →
     ∀ id,
       respond env (PatchTag id body) d
         = (Some (json (B_error "No fields to update") 400), d)
       ∧ events env (PatchTag id body) d = []).
Proof.
  intros Hu Hname.
  assert (Js.or_null (TagsRoute.name body) = None) as Hn.
  { destruct (TagsRoute.name body) as [[|]|]; done. }
  split.
  - unfold respond, events. cbn [serve].
    rewrite (TagsRoute_POST_run env body user) by done. by rewrite Hn.
  - intros Hcolor id.
    assert (Js.or_null (TagsRoute.color body) = None) as Hc.
    { destruct (TagsRoute.color body) as [[|]|]; done. }
    unfold respond, events. cbn [serve].
    rewrite (TagRoute_PATCH_run env id body user) by done. cbn zeta.
    unfold TagRoute.updateData. by rewrite Hn, Hc.
Qed.

Lemma tag_requests_need_fields_witness :
  let env := Demo.env_for (Some "u1") "n1" "0.4fzyo82mvyr" true in
  let body := TagsRoute.mkTagBody (Some "") None in
  (respond env (CreateTag body) Demo.shared
     = (Some (json (B_error "Name is required") 400), Demo.shared)
   ∧ events env (CreateTag body) Demo.shared = [])
  ∧ (Js.truthy_opt (TagsRoute.color body) = false →
     ∀ id,
       respond env (PatchTag id body) Demo.shared
         = (Some (json (B_error "No fields to update") 400), Demo.shared)
       ∧ events env (PatchTag id body) Demo.shared = []).
Proof.
  exact (tag_requests_need_fields
           (Demo.env_for (Some "u1") "n1" "0.4fzyo82mvyr" true) Demo.shared "u1"
           (TagsRoute.mkTagBody (Some "") None) eq_refl eq_refl).
Defined.

(** ** Personal access tokens *)

(** *** The token string *)
Lemma string_app_nil_r (s : string) : s +:+ "" = s.
Proof. induction s as [|c s IH]; [done|]. rewrite app_cons. by rewrite IH. Qed.

Lemma string_app_assoc (a b c : string) : (a +:+ b) +:+ c = a +:+ (b +:+ c).
Proof. induction a as [|x a IH]; [done|]. rewrite !app_cons. by rewrite IH. Qed.

Lemma charAt_in_range (s : string) (i : nat) :
  (i < String.length s)%nat →
  ∃ c, charAt s i = String c EmptyString ∧ c ∈ list_ascii_of_string s.
Proof.
  unfold charAt. revert i. induction s as [|c s IH]; intros i Hi; [cbn in Hi; lia|].
  destruct i as [|i]; cbn [String.get].
  - exists c. split; [done|]. left.
  - destruct (IH i) as (c' & Hc & Hin); [cbn in Hi; lia|].
    exists c'. split; [done|]. cbn. by right.
Qed.

Lemma generatePAT_from (f : nat → nat) (l : list nat) (s : string) :
  (∀ i, i ∈ l → (f i < String.length chars)%nat) →
  ∃ t,
    foldl (λ token i, token +:+ charAt chars (f i)) s l = s +:+ t
    ∧ String.length t = length l
    ∧ ∀ c, c ∈ list_ascii_of_string t → c ∈ list_ascii_of_string chars.
Proof.
  revert s. induction l as [|i l IH]; intros s Hl.
  - exists "". cbn. split; [by rewrite string_app_nil_r|]. split; [done|].
    intros c Hc. inversion Hc.
  - cbn [foldl].
    destruct (charAt_in_range chars (f i)) as (c & Hc & Hin); [apply Hl; left|].
    destruct (IH (s +:+ charAt chars (f i))) as (t & Ht & Hlen & Hall).
    { intros j Hj. apply Hl. by right. }
    exists (String c t). rewrite Ht, Hc. split.
    + by rewrite string_app_assoc.
    + split; [cbn; by rewrite Hlen|].
      intros c' Hc'. cbn in Hc'. apply elem_of_cons in Hc' as [-> | Hc']; auto.
Qed.

(** X19. A generated token is the prefix [adstash_] followed by forty characters
    drawn from the letters and digits, 48 characters in all, and its stored
    prefix is its first sixteen characters; this relies on every random
    index being below the size of the alphabet, as
    [Math.floor(Math.random() * 62)] is. *)
Theorem generatePAT_format env :
  (∀ i, (i < 40)%nat → (randomIndex env i < 62)%nat) →
  ∃ t,
    generatePAT env = "adstash_" +:+ t
    ∧ String.length t = 40%nat
    ∧ (∀ c, c ∈ list_ascii_of_string t → c ∈ list_ascii_of_string chars)
    ∧ String.length (generatePAT env) = 48%nat
    ∧ getPATPrefix (generatePAT env) = "adstash_" +:+ Js.take 8 t.
Proof.
  intros Hidx. unfold generatePAT, tokenLength.
  destruct (generatePAT_from (randomIndex env) (seq 0 40) "adstash_")
    as (t & Ht & Hlen & Hall).
  { intros i [_ Hi]%elem_of_seq. apply Hidx. lia. }
  rewrite length_seq in Hlen.
  exists t. rewrite Ht. repeat split; try done.
  by rewrite String_length_app, Hlen.
Qed.

Lemma generatePAT_format_witness :
  ∃ t,
    generatePAT (Demo.env_for None "" "" true) = "adstash_" +:+ t
    ∧ String.length t = 40%nat
    ∧ (∀ c, c ∈ list_ascii_of_string t → c ∈ list_ascii_of_string chars)
    ∧ String.length (generatePAT (Demo.env_for None "" "" true)) = 48%nat
    ∧ getPATPrefix (generatePAT (Demo.env_for None "" "" true))
        = "adstash_" +:+ Js.take 8 t.
Proof.
  apply (generatePAT_format (Demo.env_for None "" "" true)).
  intros i Hi. simpl. lia.
Defined.

(** *** The stored hash *)
Lemma hex_byte_two (b : Byte.byte) :
  ∃ c1 c2,
    hex_byte b = String c1 (String c2 EmptyString)
    ∧ c1 ∈ list_ascii_of_string "0123456789abcdef"
    ∧ c2 ∈ list_ascii_of_string "0123456789abcdef".
Proof.
  destruct b; vm_compute; do 2 eexists; (split; [reflexivity|]);
    split; apply list_elem_of_In; vm_compute; tauto.
Qed.

Lemma hex_byte_inj (b1 b2 : Byte.byte) : hex_byte b1 = hex_byte b2 → b1 = b2.
Proof.
  intros H.
  assert (forallb
            (λ n, forallb
                    (λ m, implb (String.eqb (hex_byte (byte_of_N n))
                                            (hex_byte (byte_of_N m)))
                                (N.eqb n m))
                    (map N.of_nat (seq 0 256)))
            (map N.of_nat (seq 0 256)) = true) as Hall by (vm_compute; reflexivity).
  assert (∀ b, Byte.to_N b ∈ map N.of_nat (seq 0 256)) as Hin.
  { intros b. apply list_elem_of_fmap. exists (N.to_nat (Byte.to_N b)).
    split; [lia|]. apply elem_of_seq. pose proof (Byte.to_N_bounded b). lia. }
  assert (∀ b, byte_of_N (Byte.to_N b) = b) as Hback.
  { intros b. unfold byte_of_N. by rewrite Byte.of_to_N. }
  rewrite forallb_forall in Hall.
  specialize (Hall (Byte.to_N b1) (proj1 (list_elem_of_In _ _) (Hin b1))).
  rewrite forallb_forall in Hall.
  specialize (Hall (Byte.to_N b2) (proj1 (list_elem_of_In _ _) (Hin b2))).
  rewrite !Hback, H, String.eqb_refl in Hall. cbn in Hall.
  apply N.eqb_eq in Hall. rewrite <- (Hback b1), <- (Hback b2). by rewrite Hall.
Qed.

(** X20. The stored hash is the digest written as two lower-case hexadecimal
    characters per byte (64 characters for a SHA-256 digest), and the
    rendering loses nothing: two tokens have the same hash exactly when
    their digests are the same. *)
Theorem hashPAT_hex env token :
  String.length (hashPAT env token) = (2 * length (digest env (encode token)))%nat
  ∧ (∀ c, c ∈ list_ascii_of_string (hashPAT env token) →
          c ∈ list_ascii_of_string "0123456789abcdef")
  ∧ (∀ token', hashPAT env token = hashPAT env token' ↔
               digest env (encode token) = digest env (encode token')).
Proof.
  assert (∀ c1 c2 acc,
            String c1 (String c2 EmptyString) +:+ acc = String c1 (String c2 acc))
    as Happ by reflexivity.
  unfold hashPAT. generalize (digest env (encode token)) as bytes.
  intros bytes. split; [|split].
  - induction bytes as [|b bytes IH]; [done|]. cbn [foldr length].
    destruct (hex_byte_two b) as (c1 & c2 & -> & _).
    rewrite Happ. cbn [String.length]. rewrite IH. lia.
  - induction bytes as [|b bytes IH]; [intros c Hc; inversion Hc|].
    cbn [foldr]. destruct (hex_byte_two b) as (c1 & c2 & -> & H1 & H2).
    rewrite Happ. cbn [list_ascii_of_string]. intros c Hc.
    apply elem_of_cons in Hc as [-> | Hc]; [done|].
    apply elem_of_cons in Hc as [-> | Hc]; [done|]. by apply IH.
  - intros token'. generalize (digest env (encode token')) as bytes'.
    intros bytes'. split; [|by intros ->].
    revert bytes'. induction bytes as [|b bytes IH]; intros [|b' bytes'] H.
    + done.
    + cbn [foldr] in H. destruct (hex_byte_two b') as (c1 & c2 & Hb & _).
      rewrite Hb, Happ in H. discriminate H.
    + cbn [foldr] in H. destruct (hex_byte_two b) as (c1 & c2 & Hb & _).
      rewrite Hb, Happ in H. discriminate H.
    + cbn [foldr] in H.
      destruct (hex_byte_two b) as (c1 & c2 & Hb & _).
      destruct (hex_byte_two b') as (c1' & c2' & Hb' & _).
      rewrite Hb, Hb', !Happ in H. injection H as -> -> Hrest.
      f_equal; [|by apply IH]. apply hex_byte_inj. by rewrite Hb, Hb'.
Qed.







(** ** Platform detection *)

(** X23. The server and the extension each carry a copy of the platform table
    and of the detector; the two copies give the same platform for every
    URL. The result is always one of the nine keys of the server's table, it
    is [other] for a URL that does not parse, and the extension has a
    non-empty label for it. *)
Theorem detectSourceFromUrl_agree env url :
  SourceDetection.detectSourceFromUrl env url = Sources.detectSourceFromUrl env url
  ∧ Sources.detectSourceFromUrl env url
      ∈ map Sources.key Sources.DEFAULT_SOURCES
  ∧ (urlHostname env url = None → Sources.detectSourceFromUrl env url = "other")
  ∧ SourceDetection.getSourceLabel (Sources.detectSourceFromUrl env url) ≠ "".
Proof.
  unfold SourceDetection.detectSourceFromUrl, Sources.detectSourceFromUrl.
  destruct (urlHostname env url) as [h|].
  2:{ split; [done|]. split; [|split; [done|]].
      - apply list_elem_of_In. vm_compute. tauto.
      - vm_compute. discriminate. }
  generalize (Js.toLowerCase h) as hostname. intros hostname.
  unfold SourceDetection.SOURCE_PATTERNS, Sources.DEFAULT_SOURCES.
  rewrite !filter_cons, filter_nil.
  cbn [SourceDetection.patterns Sources.domainPatterns].
  repeat case_decide;
    (split; [reflexivity|]); (split; [|split; [discriminate|]]);
    try (apply list_elem_of_In; vm_compute; tauto);
    try (vm_compute; discriminate);
    exfalso; cbn in *; tauto.
Qed.

(** ** What the content script reports *)
Section Reports.
Import Content Passes.
Context (p : Page).

Lemma appends_refl Q st : appends Q st st.
Proof.
  exists []. rewrite app_nil_r. split; [done|]. split; [done|].
  cbn. by rewrite (left_id_L ∅ (∪)).
Qed.

Lemma appends_trans Q st1 st2 st3 :
  appends Q st1 st2 → appends Q st2 st3 → appends Q st1 st3.
Proof.
  intros (m1 & Hf1 & HQ1 & Hs1) (m2 & Hf2 & HQ2 & Hs2). exists (m1 ++ m2).
  split; [by rewrite Hf2, Hf1, app_assoc|]. split; [by apply Forall_app|].
  rewrite Hs2, Hs1, map_app, list_to_set_app_L.
  rewrite (assoc_L (∪)). f_equal. apply (comm_L (∪)).
Qed.

Lemma appends_weaken (Q Q' : MediaCandidate → Prop) st st' :
  (∀ c, Q c → Q' c) → appends Q st st' → appends Q' st st'.
Proof.
  intros HQ (m & Hf & Hm & Hs). exists m. split; [done|]. split; [|done].
  eapply Forall_impl; eauto.
Qed.

Lemma add_push_appends (Q : MediaCandidate → Prop) u c st :
  (∀ t r, Q (c t r) ∧ url (c t r) = u) → appends Q st (add_push p u c st).
Proof.
  intros Hc. unfold add_push. eexists [_]. cbn [found seenUrls].
  split; [done|]. split; [repeat constructor; apply Hc|].
  cbn. rewrite (proj2 (Hc _ _)). by rewrite (right_id_L ∅ (∪)).
Qed.

Lemma appends_seen Q st st' u : appends Q st st' → u ∈ seenUrls st → u ∈ seenUrls st'.
Proof. intros (m & _ & _ & ->) Hu. by apply elem_of_union_r. Qed.

Lemma appends_found Q st st' c :
  appends Q st st' → c ∈ found st' → c ∈ found st ∨ Q c.
Proof.
  intros (m & -> & HQ & _) [Hc|Hc]%elem_of_app; [by left|right].
  rewrite Forall_forall in HQ. by apply HQ.
Qed.

(** *** The image pass *)
Lemma truthy_nonempty s : Js.truthy s = true → s ≠ "".
Proof. by destruct s. Qed.

Lemma scanImages_from_appends imgs i st :
  appends (from_image imgs) st (scanImages_from p imgs i st).
Proof.
  revert i st. induction imgs as [|img imgs IH]; intros i st; [apply appends_refl|].
  assert (∀ i st, appends (from_image (img :: imgs)) st (scanImages_from p imgs i st))
    as IH'.
  { intros i' st'. eapply appends_weaken; [|apply IH].
    intros c (Hty & img' & Hin & H). split; [done|]. exists img'.
    split; [by right | done]. }
  cbn [scanImages_from]. cbn zeta.
  destruct (negb _ || _ || has st _) eqn:Hskip; [apply IH'|].
  destruct (bool_decide _ || bool_decide _) eqn:Hsmall; [apply IH'|].
  eapply appends_trans; [|apply IH'].
  apply add_push_appends. intros t r. split; [|done]. split; [done|].
  exists img. cbn [url width height].
  apply orb_false_iff in Hskip as [[Hu Hdata]%orb_false_iff _].
  apply orb_false_iff in Hsmall as [Hw Hh].
  apply negb_false_iff, truthy_nonempty in Hu.
  apply bool_decide_eq_false in Hw, Hh.
  repeat split; try done; try lia. left.
Qed.

(** X24. The image pass reports an [img] of the page only when it has a URL
    that is not a [data:] URL and is at least 100 pixels wide and 100 pixels
    high, with those dimensions attached: icons and inline images are left
    out. *)
Theorem scanImages_only_sizeable st c :
  c ∈ found (scanImages p st) →
  c ∈ found st
  ∨ (type c = image
     ∧ ∃ img, img ∈ images p
              ∧ url c = or_else (img_currentSrc img) (img_src img)
              ∧ url c ≠ "" ∧ Js.startsWith (url c) "data:" = false
              ∧ 100 ≤ naturalWidth img ∧ 100 ≤ naturalHeight img
              ∧ width c = Some (naturalWidth img)
              ∧ height c = Some (naturalHeight img)).
Proof.
  intros Hc.
  by destruct (appends_found _ _ _ _ (scanImages_from_appends _ 0%nat st) Hc);
    [left | right].
Qed.

(** *** The other passes *)
Lemma scanBackgroundImages_from_appends els i st :
  appends (λ c, type c = image) st (scanBackgroundImages_from p els i st).
Proof.
  revert i st. induction els as [|el els IH]; intros i st; [apply appends_refl|].
  cbn [scanBackgroundImages_from].
  destruct (bg_match el) as [u|]; [|apply IH].
  destruct (Js.startsWith u "data:" || has st u); [apply IH|].
  eapply appends_trans; [|apply IH]. by apply add_push_appends.
Qed.

Lemma handleBlobVideo_appends v i st :
  appends (λ c, type c = image) st (handleBlobVideo p v i st).
Proof.
  unfold handleBlobVideo. destruct (Js.truthy _ && negb _); [|apply appends_refl].
  by apply add_push_appends.
Qed.

Lemma scanVideos_from_appends vs i st :
  appends no_blob_video st (scanVideos_from p vs i st).
Proof.
  revert i st. induction vs as [|v vs IH]; intros i st; [apply appends_refl|].
  simpl. destruct (negb _ || _ || _) eqn:Hskip.
  - clear Hskip. eapply appends_trans; [|apply IH].
    destruct (_ || _); [|apply appends_refl].
    eapply appends_weaken; [|apply handleBlobVideo_appends].
    intros c Hc. unfold no_blob_video. by rewrite Hc.
  - destruct (has st _); [apply IH|].
    eapply appends_trans; [|apply IH].
    apply add_push_appends. intros t r. split; [|done]. intros _. cbn [url].
    apply orb_false_iff in Hskip as [[_ Hb]%orb_false_iff _]. done.
Qed.

Lemma tiktok_matches_appends ms st :
  appends no_blob_video st (tiktok_matches p ms st).
Proof.
  revert st. induction ms as [|m ms IH]; intros st; [apply appends_refl|].
  cbn [tiktok_matches].
  destruct (JSON_parse_quoted p m) as [u|]; [|apply IH].
  eapply appends_trans; [|apply IH].
  destruct (has st u || Js.startsWith u "blob:") eqn:Hskip; cbn [negb];
    [apply appends_refl|].
  apply add_push_appends. intros t r. split; [|done]. intros _. cbn [url].
  by apply orb_false_iff in Hskip as [_ Hb].
Qed.

Lemma scanTikTokMedia_appends st :
  appends no_blob_video st (scanTikTokMedia p st).
Proof.
  unfold scanTikTokMedia. generalize (hydrationScripts p). intros scripts.
  revert st. induction scripts as [|text scripts IH]; intros st; [apply appends_refl|].
  cbn [foldl]. eapply appends_trans; [apply tiktok_matches_appends | apply IH].
Qed.

Lemma instagram_matches_appends label ty ms st :
  appends (λ _, True) st (instagram_matches p label ty ms st).1.
Proof.
  revert st. induction ms as [|m ms IH]; intros st; [apply appends_refl|].
  cbn [instagram_matches].
  destruct (JSON_parse_quoted p m) as [u|]; [|apply appends_refl].
  eapply appends_trans; [|apply IH].
  destruct (has st u); cbn [negb]; [apply appends_refl|].
  by apply add_push_appends.
Qed.

Lemma scanInstagramMedia_from_appends scripts st :
  appends (λ _, True) st (scanInstagramMedia_from p scripts st).
Proof.
  revert st. induction scripts as [|text scripts IH]; intros st; [apply appends_refl|].
  cbn [scanInstagramMedia_from].
  pose proof (instagram_matches_appends "ig-video-" video
                (matchAll INSTAGRAM_VIDEO_REGEX text) st) as H1.
  destruct (instagram_matches p "ig-video-" video _ st) as [st1 [|]]; [done|].
  pose proof (instagram_matches_appends "ig-image-" image
                (matchAll INSTAGRAM_IMAGE_REGEX text) st1) as H2.
  destruct (instagram_matches p "ig-image-" image _ st1) as [st2 [|]].
  - eapply appends_trans; eauto.
  - eapply appends_trans; [|apply IH]. eapply appends_trans; eauto.
Qed.

Lemma scanPlatformSpecificMedia_appends st :
  appends (λ _, True) st (scanPlatformSpecificMedia p st).
Proof.
  unfold scanPlatformSpecificMedia.
  eapply (appends_trans _ _
            (if Js.includes (hostname p) "instagram.com"
             then scanInstagramMedia p st else st)).
  - destruct (Js.includes _ _); [apply scanInstagramMedia_from_appends|].
    apply appends_refl.
  - destruct (Js.includes (hostname p) "tiktok.com"); [|apply appends_refl].
    eapply appends_weaken; [|apply scanTikTokMedia_appends]. done.
Qed.

Lemma appends_any Q st st' : appends Q st st' → appends (λ _, True) st st'.
Proof. by apply appends_weaken. Qed.

(** *** Nothing that qualifies is missed *)
Lemma scanImages_from_covers imgs i st img :
  img ∈ imgs →
  let u := or_else (img_currentSrc img) (img_src img) in
  u ≠ "" → Js.startsWith u "data:" = false →
  100 ≤ naturalWidth img → 100 ≤ naturalHeight img →
  u ∈ seenUrls (scanImages_from p imgs i st).
Proof.
  intros Hin u Hu Hdata Hw Hh. revert i st.
  induction imgs as [|x imgs IH]; intros i st; [inversion Hin|].
  apply elem_of_cons in Hin as [<- | Hin].
  - cbn [scanImages_from]. cbn zeta. fold u.
    assert (Js.truthy u = true) as -> by (by destruct u).
    rewrite Hdata. cbn [negb orb].
    destruct (has st u) eqn:Hseen.
    + eapply appends_seen; [apply scanImages_from_appends|].
      by apply bool_decide_eq_true in Hseen.
    + rewrite !bool_decide_eq_false_2 by lia. cbn [orb].
      eapply appends_seen; [apply scanImages_from_appends|].
      unfold add_push. cbn [seenUrls]. apply elem_of_union_l.
      by apply elem_of_singleton.
  - cbn [scanImages_from]. cbn zeta.
    destruct (negb _ || _ || has st _); [by apply IH|].
    destruct (bool_decide _ || bool_decide _); by apply IH.
Qed.

Lemma scanBackgroundImages_from_covers els i st el u :
  el ∈ els → bg_match el = Some u → Js.startsWith u "data:" = false →
  u ∈ seenUrls (scanBackgroundImages_from p els i st).
Proof.
  intros Hin Hm Hdata. revert i st.
  induction els as [|x els IH]; intros i st; [inversion Hin|].
  apply elem_of_cons in Hin as [<- | Hin].
  - cbn [scanBackgroundImages_from]. rewrite Hm, Hdata. cbn [orb].
    destruct (has st u) eqn:Hseen.
    + eapply appends_seen; [apply scanBackgroundImages_from_appends|].
      by apply bool_decide_eq_true in Hseen.
    + eapply appends_seen; [apply scanBackgroundImages_from_appends|].
      unfold add_push. cbn [seenUrls]. apply elem_of_union_l.
      by apply elem_of_singleton.
  - cbn [scanBackgroundImages_from].
    destruct (bg_match x) as [u'|]; [|by apply IH].
    destruct (Js.startsWith u' "data:" || has st u'); by apply IH.
Qed.

Lemma scanVideos_from_covers vs i st v :
  v ∈ vs →
  let u := getVideoUrl v in
  u ≠ "" → Js.startsWith u "blob:" = false → Js.startsWith u "data:" = false →
  u ∈ seenUrls (scanVideos_from p vs i st).
Proof.
  intros Hin u Hu Hblob Hdata. revert i st.
  induction vs as [|x vs IH]; intros i st; [inversion Hin|].
  apply elem_of_cons in Hin as [<- | Hin].
  - cbn [scanVideos_from]. cbn zeta. fold u.
    assert (Js.truthy u = true) as -> by (by destruct u).
    rewrite Hblob, Hdata. cbn [negb orb].
    destruct (has st u) eqn:Hseen.
    + eapply appends_seen; [apply scanVideos_from_appends|].
      by apply bool_decide_eq_true in Hseen.
    + eapply appends_seen; [apply scanVideos_from_appends|].
      unfold add_push. cbn [seenUrls]. apply elem_of_union_l.
      by apply elem_of_singleton.
  - cbn [scanVideos_from]. cbn zeta.
    destruct (negb (Js.truthy (getVideoUrl x))
              || Js.startsWith (getVideoUrl x) "blob:"
              || Js.startsWith (getVideoUrl x) "data:"); [by apply IH|].
    destruct (has st _); by apply IH.
Qed.

End Reports.

Lemma getCandidates_seen (p : Content.Page) u :
  u ∈ Content.seenUrls
        (Content.scanPlatformSpecificMedia p
           (Content.scanVideos p
              (Content.scanBackgroundImages p
                 (Content.scanImages p (Content.mkScan [] ∅ 0))))) →
  u ∈ map Content.url (Content.candidates (Content.getCandidates p)).
Proof.
  unfold Content.getCandidates. cbn [Content.candidates].
  set (st0 := Content.mkScan [] ∅ 0).
  assert (Passes.appends (λ _, True) st0
            (Content.scanPlatformSpecificMedia p
               (Content.scanVideos p
                  (Content.scanBackgroundImages p (Content.scanImages p st0)))))
    as (more & Hf & _ & Hs).
  { eapply appends_trans; [|apply scanPlatformSpecificMedia_appends].
    eapply appends_trans; [|eapply appends_any, scanVideos_from_appends].
    eapply appends_trans; [|eapply appends_any, scanBackgroundImages_from_appends].
    eapply appends_any, scanImages_from_appends. }
  rewrite Hs, Hf. cbn [Content.found Content.seenUrls st0 app].
  rewrite elem_of_union, elem_of_list_to_set.
  intros [H|H]; [done | by apply elem_of_empty in H].
Qed.

(** X25. Nothing that qualifies is missed: the URL of every [img] that is at
    least 100 by 100 pixels, of every CSS background image and of every
    [video] element is among the candidates, provided the URL is not empty
    and not a [data:] URL (nor, for a video, a [blob:] URL). *)
Theorem getCandidates_complete (p : Content.Page) :
  let urls := map Content.url (Content.candidates (Content.getCandidates p)) in
  (∀ img, img ∈ Content.images p →
     let u := Content.or_else (Content.img_currentSrc img) (Content.img_src img) in
     u ≠ "" → Js.startsWith u "data:" = false →
     100 ≤ Content.naturalWidth img → 100 ≤ Content.naturalHeight img →
     u ∈ urls)
  ∧ (∀ bgImage u, bgImage ∈ Content.backgroundImages p →
       Content.bg_match bgImage = Some u → Js.startsWith u "data:" = false →
       u ∈ urls)
  ∧ (∀ v, v ∈ Content.videos p →
       let u := Content.getVideoUrl v in
       u ≠ "" → Js.startsWith u "blob:" = false → Js.startsWith u "data:" = false →
       u ∈ urls).
Proof.
  cbn zeta. split; [|split].
  - intros img Hin Hu Hdata Hw Hh. apply getCandidates_seen.
    eapply appends_seen; [apply scanPlatformSpecificMedia_appends|].
    eapply appends_seen; [apply scanVideos_from_appends|].
    eapply appends_seen; [apply scanBackgroundImages_from_appends|].
    by apply scanImages_from_covers.
  - intros el u Hin Hm Hdata. apply getCandidates_seen.
    eapply appends_seen; [apply scanPlatformSpecificMedia_appends|].
    eapply appends_seen; [apply scanVideos_from_appends|].
    by eapply scanBackgroundImages_from_covers.
  - intros v Hin Hu Hblob Hdata. apply getCandidates_seen.
    eapply appends_seen; [apply scanPlatformSpecificMedia_appends|].
    by apply scanVideos_from_covers.
Qed.

(** X26. On a page that is not an Instagram page no candidate of type [video]
    has a [blob:] URL: the video pass and the TikTok pass both refuse them
    (a [blob:] video contributes at most its poster, as an image). *)
Theorem getCandidates_no_blob_video (p : Content.Page) c :
  Js.includes (Content.hostname p) "instagram.com" = false →
  c ∈ Content.candidates (Content.getCandidates p) →
  Content.type c = Content.video →
  Js.startsWith (Content.url c) "blob:" = false.
Proof.
  intros Hhost Hc. unfold Content.getCandidates in Hc. cbn [Content.candidates] in Hc.
  set (st0 := Content.mkScan [] ∅ 0) in Hc.
  assert (Passes.appends Passes.no_blob_video st0
            (Content.scanPlatformSpecificMedia p
               (Content.scanVideos p
                  (Content.scanBackgroundImages p (Content.scanImages p st0))))) as H.
  { eapply appends_trans.
    2:{ unfold Content.scanPlatformSpecificMedia. rewrite Hhost.
        destruct (Js.includes _ "tiktok.com");
          [apply scanTikTokMedia_appends | apply appends_refl]. }
    eapply appends_trans; [|apply scanVideos_from_appends].
    eapply appends_trans.
    - eapply appends_weaken; [|apply scanImages_from_appends].
      intros x [Hx _]. unfold Passes.no_blob_video. by rewrite Hx.
    - eapply appends_weaken; [|apply scanBackgroundImages_from_appends].
      intros x Hx. unfold Passes.no_blob_video. by rewrite Hx. }
  destruct (appends_found _ _ _ _ H Hc) as [Hc' | Hc']; [inversion Hc' | done].
Qed.

(** On the sample page the banner is reported by the image pass. *)
Lemma scanImages_only_sizeable_witness :
  let c :=
    Content.mkCandidate "img-0-1700000000000" Content.image Demo.banner None
      (Some 1200) (Some 628) (Some "Spring sale") None in
  c ∈ Content.found (Content.mkScan [] ∅ 0)
  ∨ (Content.type c = Content.image
     ∧ ∃ img, img ∈ Content.images Demo.page
              ∧ Content.url c
                  = Content.or_else (Content.img_currentSrc img) (Content.img_src img)
              ∧ Content.url c ≠ "" ∧ Js.startsWith (Content.url c) "data:" = false
              ∧ 100 ≤ Content.naturalWidth img ∧ 100 ≤ Content.naturalHeight img
              ∧ Content.width c = Some (Content.naturalWidth img)
              ∧ Content.height c = Some (Content.naturalHeight img)).
Proof.
  apply (scanImages_only_sizeable Demo.page (Content.mkScan [] ∅ 0)).
  apply list_elem_of_In. vm_compute. left. reflexivity.
Defined.

(** On the sample page, a TikTok page with a [blob:] video, the one video
    candidate is the clip. *)
Lemma getCandidates_no_blob_video_witness :
  Js.startsWith
    (Content.url
       (Content.mkCandidate "video-1-1700000000001" Content.video Demo.clip None
          (Some 720) (Some 1280) None None))
    "blob:" = false.
Proof.
  apply (getCandidates_no_blob_video Demo.page
           (Content.mkCandidate "video-1-1700000000001" Content.video Demo.clip None
              (Some 720) (Some 1280) None None)).
  - reflexivity.
  - apply list_elem_of_In. vm_compute. right. left. reflexivity.
  - reflexivity.
Defined.

(** ** The extension's settings *)
Section Settings.
Import ExtensionStorage.

Lemma setConfig_lookup config (sync : gmap string string) k :
  setConfig config sync !! k =
  if decide (k = ACCESS_TOKEN) then
    match given_accessToken config with
    | Some v => Some (default "" (Js.or_null v))
    | None => sync !! k
    end
  else if decide (k = API_URL) then
    match given_apiUrl config with
    | Some v => Some v
    | None => sync !! k
    end
  else sync !! k.
Proof.
  unfold setConfig. cbn zeta. rewrite lookup_union.
  destruct (given_apiUrl config) as [u|], (given_accessToken config) as [v|];
    repeat case_decide; subst;
    rewrite ?lookup_insert_eq, ?lookup_insert_ne, ?lookup_empty by done;
    try done; by destruct (sync !! _).
Qed.

(** What [setConfig] stores is what [getConfig] reads back: a given API URL
    comes back unless it is empty, in which case the default URL does, and a
    given token comes back unless it is empty or null, in which case the
    extension counts as not configured. A field that the call does not give
    keeps its stored value, and no other key of the store is touched. *)
Theorem setConfig_getConfig config (sync : gmap string string) :
  let sync' := setConfig config sync in
  apiUrl (getConfig sync')
    = match given_apiUrl config with
      | Some v => if Js.truthy v then v else DEFAULT_API_URL
      | None => apiUrl (getConfig sync)
      end
  ∧ accessToken (getConfig sync')
      = match given_accessToken config with
        | Some v => Js.or_null v
        | None => accessToken (getConfig sync)
        end
  ∧ isConfigured sync'
      = match given_accessToken config with
        | Some v => Js.truthy_opt v
        | None => isConfigured sync
        end
  ∧ ∀ k, k ≠ API_URL → k ≠ ACCESS_TOKEN → sync' !! k = sync !! k.
Proof.
  cbn zeta. unfold isConfigured, getConfig. cbn [apiUrl accessToken].
  rewrite !setConfig_lookup.
  repeat split.
  - rewrite decide_False by done. rewrite decide_True by done.
    by destruct (given_apiUrl config).
  - rewrite decide_True by done.
    destruct (given_accessToken config) as [[[|c v]|]|]; done.
  - rewrite decide_True by done.
    destruct (given_accessToken config) as [[[|c v]|]|]; done.
  - intros k H1 H2. rewrite setConfig_lookup. by rewrite !decide_False.
Qed.

(** After [clearConfig] the extension is back to its defaults: the local
    API URL and no token. *)
Theorem clearConfig_defaults (sync : gmap string string) :
  getConfig (clearConfig sync) = mkStorageConfig "http://localhost:3000" None
  ∧ isConfigured (clearConfig sync) = false
  ∧ ∀ k, k ≠ API_URL → k ≠ ACCESS_TOKEN → clearConfig sync !! k = sync !! k.
Proof.
  unfold isConfigured, getConfig, clearConfig.
  rewrite lookup_delete_ne, !lookup_delete_eq by done.
  repeat split. intros k H1 H2. by rewrite !lookup_delete_ne.
Qed.

(** X27. The options page saves only an API URL that is non-empty after trimming
    and parses as a URL; otherwise the stored settings stay as they were.
    When it saves, both fields are stored trimmed, and a blank token leaves
    the extension not configured. *)
Theorem saveConfig_outcome env apiUrlInput tokenInput (sync : gmap string string) :
  let result := saveConfig env apiUrlInput tokenInput sync in
  (snd result = "Settings saved!"
   ∧ Js.trim apiUrlInput ≠ ""
   ∧ is_Some (urlHostname env (Js.trim apiUrlInput))
   ∧ getConfig (fst result)
       = mkStorageConfig (Js.trim apiUrlInput) (Js.or_null (Some (Js.trim tokenInput)))
   ∧ isConfigured (fst result) = Js.truthy (Js.trim tokenInput))
  ∨ (snd result ≠ "Settings saved!" ∧ fst result = sync
     ∧ (Js.trim apiUrlInput = ""
        ∨ urlHostname env (Js.trim apiUrlInput) = None)).
Proof.
  cbn zeta. unfold saveConfig. cbn zeta.
  destruct (Js.trim apiUrlInput) as [|c u] eqn:Hu.
  { right. cbn. repeat split; [discriminate | by left]. }
  cbn [Js.truthy negb].
  destruct (urlHostname env (String c u)) as [h|] eqn:Hh.
  2:{ right. cbn. repeat split; [discriminate | by right]. }
  left. cbn [fst snd]. split; [done|]. split; [done|]. split; [by eexists|].
  pose proof (setConfig_getConfig
                (mkPartialConfig (Some (String c u)) (Some (Some (Js.trim tokenInput))))
                sync) as (Ha & Ht & Hc & _).
  cbn [given_apiUrl given_accessToken Js.truthy] in *.
  split; [|by rewrite Hc].
  destruct (getConfig _) as [a t]. cbn in Ha, Ht. by subst.
Qed.

End Settings.

(** ** The filters of the listing *)

(** X28. The tag sub-query selects exactly the assets that have a join row for
    every requested tag id, as long as the request names each id once; a
    request that repeats an id selects nothing, because the number of
    distinct tags an asset holds can then never reach the number of ids
    listed. *)
Theorem tag_subquery_exact tagIds links a :
  (NoDup tagIds → tagIds ≠ [] →
   (a ∈ assetsWithTags_rows tagIds links ↔
    ∀ t, t ∈ tagIds → AssetTag.mk a t ∈ links))
  ∧ (¬ NoDup tagIds → assetsWithTags_rows tagIds links = []).
Proof.
  assert (∀ x, x ∈ assetsWithTags_rows tagIds links →
               remove_dups
                 (map AssetTag.tagId
                    (filter (λ l, AssetTag.assetId l = x)
                       (filter (λ l, all_hold link_holds [L_inArray_tagId tagIds] l)
                          links)))
               ≡ₚ tagIds) as Hperm.
  { intros x [Hcount _]%list_elem_of_filter.
    unfold count_distinct_tagId in Hcount.
    apply submseteq_length_Permutation; [|lia].
    apply NoDup_submseteq; [apply NoDup_remove_dups|].
    intros t. rewrite elem_of_remove_dups.
    intros (l & -> & [_ [Hl _]%list_elem_of_filter]%list_elem_of_filter)
      %list_elem_of_fmap.
    apply Is_true_true in Hl. unfold all_hold in Hl. cbn in Hl.
    rewrite andb_true_r in Hl. by apply bool_decide_eq_true in Hl. }
  split.
  - intros Hnd Hne. split; [intros Ha t Ht; by eapply assetsWithTags_rows_all|].
    intros Hall.
    assert (∀ t, t ∈ tagIds →
                 AssetTag.mk a t
                 ∈ filter (λ l, AssetTag.assetId l = a)
                     (filter (λ l, all_hold link_holds [L_inArray_tagId tagIds] l)
                        links)) as Hmine.
    { intros t Ht. apply list_elem_of_filter. split; [done|].
      apply list_elem_of_filter. split; [|by apply Hall].
      apply Is_true_true. unfold all_hold. cbn. rewrite andb_true_r.
      by apply bool_decide_eq_true. }
    unfold assetsWithTags_rows, groupBy_assetId_having.
    apply list_elem_of_filter. split.
    + unfold count_distinct_tagId. apply Nat.le_antisymm.
      * apply submseteq_length, NoDup_submseteq; [apply NoDup_remove_dups|].
        intros t. rewrite elem_of_remove_dups.
        intros (l & -> & [_ [Hl _]%list_elem_of_filter]%list_elem_of_filter)
          %list_elem_of_fmap.
        apply Is_true_true in Hl. unfold all_hold in Hl. cbn in Hl.
        rewrite andb_true_r in Hl. by apply bool_decide_eq_true in Hl.
      * apply submseteq_length, NoDup_submseteq; [done|].
        intros t Ht. rewrite elem_of_remove_dups. apply list_elem_of_fmap.
        exists (AssetTag.mk a t). split; [done | by apply Hmine].
    + destruct tagIds as [|t tagIds]; [done|].
      rewrite elem_of_remove_dups. apply list_elem_of_fmap.
      exists (AssetTag.mk a t). split; [done|].
      assert (t ∈ t :: tagIds) as Ht by left.
      by apply Hmine, list_elem_of_filter in Ht as [_ Ht].
  - intros Hdup. apply elem_of_nil_inv. intros x Hx. apply Hdup.
    rewrite <- (Hperm x Hx). apply NoDup_remove_dups.
Qed.

Lemma tag_subquery_exact_witness :
  ("a1" ∈ assetsWithTags_rows ["t1"; "t2"] (assetTags Demo.library) ↔
   ∀ t, t ∈ ["t1"; "t2"] → AssetTag.mk "a1" t ∈ assetTags Demo.library)
  ∧ assetsWithTags_rows ["t1"; "t1"] (assetTags Demo.library) = [].
Proof.
  split.
  - apply (proj1 (tag_subquery_exact ["t1"; "t2"] (assetTags Demo.library) "a1")).
    + apply (bool_decide_unpack _). reflexivity.
    + discriminate.
  - apply (proj2 (tag_subquery_exact ["t1"; "t1"] (assetTags Demo.library) "a1")).
    apply (bool_decide_eq_false_1 _). reflexivity.
Defined.

(** *** Platform and type *)
Lemma like_any s : like "%" s = true.
Proof. induction s as [|c s IH]; [done|]. cbn in *. by rewrite IH. Qed.

Lemma lower_eqb_prefix (c d : ascii) (rest : bool) :
  Sql.lower c = c →
  (Ascii.eqb (Sql.lower c) (Sql.lower d) && rest)
  = (if ascii_dec c (Js.lower d) then rest else false).
Proof.
  intros ->. unfold Sql.lower.
  destruct (Ascii.eqb_spec c (Js.lower d)), (ascii_dec c (Js.lower d)); done.
Qed.

Lemma ilike_image s :
  ilike s "image/%" = Js.startsWith (Js.toLowerCase s) "image/".
Proof.
  unfold ilike, Js.startsWith.
  do 6 (destruct s as [|? s]; [reflexivity|];
        cbn [like nonempty_then Js.toLowerCase String.prefix];
        rewrite lower_eqb_prefix by reflexivity;
        destruct (ascii_dec _ _); [|reflexivity]).
  rewrite like_any. by destruct s.
Qed.

Lemma ilike_video s :
  ilike s "video/%" = Js.startsWith (Js.toLowerCase s) "video/".
Proof.
  unfold ilike, Js.startsWith.
  do 6 (destruct s as [|? s]; [reflexivity|];
        cbn [like nonempty_then Js.toLowerCase String.prefix];
        rewrite lower_eqb_prefix by reflexivity;
        destruct (ascii_dec _ _); [|reflexivity]).
  rewrite like_any. by destruct s.
Qed.

Lemma conds_filters env user params a :
  all_hold asset_holds (AssetsRoute.buildWhereConditions env user params) a = true →
  (AssetsRoute.sourcePlatform params ≠ "" →
   Asset.sourcePlatform a = AssetsRoute.sourcePlatform params)
  ∧ (AssetsRoute.mimeTypeFilter params = "image" →
     Js.startsWith (Js.toLowerCase (Asset.mimeType a)) "image/" = true)
  ∧ (AssetsRoute.mimeTypeFilter params = "video" →
     Js.startsWith (Js.toLowerCase (Asset.mimeType a)) "video/" = true).
Proof.
  unfold AssetsRoute.buildWhereConditions, all_hold.
  rewrite !forallb_app. intros H.
  apply andb_true_iff in H as [_ H]. apply andb_true_iff in H as [_ H].
  apply andb_true_iff in H as [Hsrc H]. apply andb_true_iff in H as [Hty _].
  split; [|split].
  - intros Hs. destruct (AssetsRoute.sourcePlatform params) as [|c s] eqn:E; [done|].
    cbn in Hsrc. rewrite andb_true_r in Hsrc. by apply bool_decide_eq_true in Hsrc.
  - intros E. rewrite E in Hty. rewrite bool_decide_eq_true_2 in Hty by done.
    cbn [forallb asset_holds] in Hty. rewrite andb_true_r in Hty.
    by rewrite <- ilike_image.
  - intros E. rewrite E in Hty. rewrite bool_decide_eq_false_2 in Hty by done.
    rewrite bool_decide_eq_true_2 in Hty by done.
    cbn [forallb asset_holds] in Hty. rewrite andb_true_r in Hty.
    by rewrite <- ilike_video.
Qed.

(** X29. A listing asked for one platform returns only assets of that platform;
    asked for type [image] (or [video]) it returns only assets whose MIME
    type starts with [image/] (or [video/]), letter case aside. *)
Theorem listing_filters env sp d user r items pagination item :
  getUser env = Some user →
  (respond env (ListAssets sp) d).1 = Some r →
  body r = B_assets items pagination → item ∈ items →
  let params := AssetsRoute.parseQueryParams sp in
  (AssetsRoute.sourcePlatform params ≠ "" →
   Asset.sourcePlatform (lp_asset item) = AssetsRoute.sourcePlatform params)
  ∧ (AssetsRoute.mimeTypeFilter params = "image" →
     Js.startsWith (Js.toLowerCase (Asset.mimeType (lp_asset item))) "image/" = true)
  ∧ (AssetsRoute.mimeTypeFilter params = "video" →
     Js.startsWith (Js.toLowerCase (Asset.mimeType (lp_asset item))) "video/" = true).
Proof.
  intros Hu Hrun Hbody Hitem params. apply (conds_filters env user).
  unfold respond in Hrun. cbn [serve] in Hrun.
  destruct (AssetsRoute_GET_summary env sp user (mkWorld d []) Hu)
    as (r' & evs & Hget & _ & _ & _ & Hret).
  rewrite Hget in Hrun. cbn in Hrun. injection Hrun as ->.
  apply Hret. unfold returned_assets. rewrite Hbody.
  apply list_elem_of_fmap. eauto.
Qed.

Lemma listing_filters_witness :
  let env := Demo.env_for (Some "u1") "n1" "0.4fzyo82mvyr" true in
  let sp := [("type", "image"); ("source", "other")] in
  ∃ r items pagination item,
    (respond env (ListAssets sp) Demo.library).1 = Some r
    ∧ body r = B_assets (item :: items) pagination
    ∧ (AssetsRoute.sourcePlatform (AssetsRoute.parseQueryParams sp) ≠ "" →
       Asset.sourcePlatform (lp_asset item) = "other")
    ∧ (AssetsRoute.mimeTypeFilter (AssetsRoute.parseQueryParams sp) = "image" →
       Js.startsWith (Js.toLowerCase (Asset.mimeType (lp_asset item))) "image/" = true)
    ∧ (AssetsRoute.mimeTypeFilter (AssetsRoute.parseQueryParams sp) = "video" →
       Js.startsWith (Js.toLowerCase (Asset.mimeType (lp_asset item))) "video/" = true).
Proof.
  intros env sp.
  assert (∃ r items pagination item,
            (respond env (ListAssets sp) Demo.library).1 = Some r
            ∧ body r = B_assets (item :: items) pagination)
    as (r & items & pagination & item & Hr & Hb).
  { do 4 eexists. split; [by_vm|]. reflexivity. }
  exists r, items, pagination, item. do 2 (split; [done|]).
  apply (listing_filters env sp Demo.library "u1" r (item :: items) pagination item
           eq_refl Hr Hb).
  left.
Defined.

(** ** Sanitised file names *)

(** X30. Sanitising a file name keeps its length, leaves only letters, digits,
    dots, hyphens and underscores, in particular no slash, so that a file
    name cannot add a directory to a storage path, and sanitising twice is
    the same as sanitising once. *)
Theorem sanitize_safe filename :
  String.length (sanitize filename) = String.length filename
  ∧ (∀ c, c ∈ list_ascii_of_string (sanitize filename) →
          in_class c = true ∨ c = "_"%char)
  ∧ ("/"%char ∉ list_ascii_of_string (sanitize filename))
  ∧ sanitize (sanitize filename) = sanitize filename.
Proof.
  assert (∀ c, c ∈ list_ascii_of_string (sanitize filename) →
               in_class c = true ∨ c = "_"%char) as Hsafe.
  { induction filename as [|x f IH]; [intros c Hc; inversion Hc|].
    cbn [sanitize list_ascii_of_string]. intros c Hc.
    apply elem_of_cons in Hc as [-> | Hc]; [|by apply IH].
    rewrite path_safe_class. destruct (in_class x) eqn:E; [by left | by right]. }
  split; [|split; [done|split]].
  - clear Hsafe. induction filename as [|x f IH]; [done|].
    cbn [sanitize String.length]. by rewrite IH.
  - intros H. apply Hsafe in H as [H | H]; [|discriminate H].
    vm_compute in H. discriminate H.
  - clear Hsafe. induction filename as [|x f IH]; [done|].
    cbn [sanitize]. rewrite IH. f_equal.
    destruct (path_safe x) eqn:E; [by rewrite E | reflexivity].
Qed.
